(** * Webhook dispatch engine (services/webhookDispatcher.js)

    A shallow embedding of the dispatcher: the SSRF URL guard, template
    processing, the request builder, the single-attempt executor, the retry
    orchestrator and the response field extractor.

    Conventions.
    - JavaScript strings are [string]; only ASCII case mapping is modelled.
    - JavaScript numbers that the dispatcher computes with (delays, the
      multiplier, the jitter draw) are IEEE 754 binary64 numbers, the
      primitive [float]; counters and HTTP status codes are [Z].
    - Objects are association lists of their own properties in insertion
      order with unique keys; an object whose prototype was replaced carries
      the new prototype.
    - Library code the dispatcher calls (the WHATWG [URL] parser, Handlebars,
      [JSON.parse], [JSON.stringify], axios, [Math.random], [Math.pow]) and
      the built-in objects of the runtime are parameters of the section that
      uses them; the clock, the requests issued and the timers are state
      threaded through a dispatch. Logging is left out. *)

From Stdlib Require Import List String Ascii Bool Arith ZArith Lia.
From Stdlib Require Import QArith Qround Qabs Qpower Lqa DecimalString.
From Stdlib Require Import Floats.
Import ListNotations.

#[local] Set Warnings "-abstract-large-number,-notation-for-abbreviation".

Local Open Scope Z_scope.
Local Open Scope string_scope.
Local Open Scope bool_scope.

(** ** String primitives *)

Module Str.

Definition code (c : ascii) : nat := nat_of_ascii c.

Definition in_range (lo hi c : ascii) : bool :=
  (code lo <=? code c)%nat && (code c <=? code hi)%nat.

Definition lower_ascii (c : ascii) : ascii :=
  if in_range "A" "Z" c then ascii_of_nat (code c + 32) else c.

Definition upper_ascii (c : ascii) : ascii :=
  if in_range "a" "z" c then ascii_of_nat (code c - 32) else c.

Fixpoint map_ascii (f : ascii -> ascii) (s : string) : string :=
  match s with
  | EmptyString => EmptyString
  | String c t => String (f c) (map_ascii f t)
  end.

Definition toLowerCase : string -> string := map_ascii lower_ascii.
Definition toUpperCase : string -> string := map_ascii upper_ascii.

(** [s.startsWith(p)] *)
Definition startsWith (p s : string) : bool := String.prefix p s.

(** [s.includes(needle)] *)
Fixpoint includes (needle s : string) : bool :=
  String.prefix needle s
  || match s with
     | EmptyString => false
     | String _ t => includes needle t
     end.

(** [xs.includes(x)] on an array of strings *)
Definition mem (x : string) (xs : list string) : bool :=
  existsb (String.eqb x) xs.

(** [s.split(sep)] for a one-character separator; [cur] is the segment
    read so far. *)
Fixpoint split_from (sep : ascii) (cur : string) (s : string) : list string :=
  match s with
  | EmptyString => [cur]
  | String c t =>
      if Ascii.eqb c sep then cur :: split_from sep EmptyString t
      else split_from sep (cur ++ String c EmptyString) t
  end.

Definition split (sep : ascii) (s : string) : list string :=
  split_from sep EmptyString s.

Definition is_digit (c : ascii) : bool := in_range "0" "9" c.

(** [\w] of a JavaScript regular expression: [A-Za-z0-9_] *)
Definition is_word (c : ascii) : bool :=
  in_range "a" "z" c || in_range "A" "Z" c || is_digit c || Ascii.eqb c "_".

Definition of_nat (n : nat) : string := NilEmpty.string_of_uint (Nat.to_uint n).

(** decimal value of a string of digits, most significant first *)
Fixpoint digits_value (acc : nat) (s : string) : nat :=
  match s with
  | EmptyString => acc
  | String c t => digits_value (10 * acc + (code c - 48)) t
  end.

Fixpoint all_chars (p : ascii -> bool) (s : string) : bool :=
  match s with
  | EmptyString => true
  | String c t => p c && all_chars p t
  end.

End Str.

(** ** Regular expressions

    The fragment of JavaScript regular expressions that the dispatcher's
    patterns use, matched with Brzozowski derivatives. *)

Module Regex.

Inductive re : Type :=
| Fail
| Eps
| Chr (c : ascii)
| Range (lo hi : ascii)
| Seq (a b : re)
| Alt (a b : re)
| Star (a : re).

Fixpoint nullable (r : re) : bool :=
  match r with
  | Fail | Chr _ | Range _ _ => false
  | Eps | Star _ => true
  | Seq a b => nullable a && nullable b
  | Alt a b => nullable a || nullable b
  end.

(** [icase] is the [i] flag: letters are compared up to ASCII case. *)
Definition chr_matches (icase : bool) (c x : ascii) : bool :=
  if icase then Ascii.eqb (Str.lower_ascii c) (Str.lower_ascii x)
  else Ascii.eqb c x.

Definition range_matches (icase : bool) (lo hi x : ascii) : bool :=
  if icase
  then Str.in_range lo hi x || Str.in_range lo hi (Str.lower_ascii x)
       || Str.in_range lo hi (Str.upper_ascii x)
  else Str.in_range lo hi x.

Fixpoint deriv (icase : bool) (x : ascii) (r : re) : re :=
  match r with
  | Fail | Eps => Fail
  | Chr c => if chr_matches icase c x then Eps else Fail
  | Range lo hi => if range_matches icase lo hi x then Eps else Fail
  | Seq a b =>
      if nullable a
      then Alt (Seq (deriv icase x a) b) (deriv icase x b)
      else Seq (deriv icase x a) b
  | Alt a b => Alt (deriv icase x a) (deriv icase x b)
  | Star a => Seq (deriv icase x a) (Star a)
  end.

(** [/^r$/] : the whole input matches *)
Fixpoint match_all (icase : bool) (r : re) (s : string) : bool :=
  match s with
  | EmptyString => nullable r
  | String x t => match_all icase (deriv icase x r) t
  end.

(** [/^r/] : some prefix of the input matches *)
Fixpoint match_prefix (icase : bool) (r : re) (s : string) : bool :=
  nullable r
  || match s with
     | EmptyString => false
     | String x t => match_prefix icase (deriv icase x r) t
     end.

(** a literal, every character escaped *)
Fixpoint lit (s : string) : re :=
  match s with
  | EmptyString => Eps
  | String c t => Seq (Chr c) (lit t)
  end.

Definition digit : re := Range "0" "9".
Definition opt (r : re) : re := Alt r Eps.

(** A pattern anchored at the start, as all of the dispatcher's are. *)
Record pattern : Type := Pattern {
  body : re;
  to_end : bool;       (* a trailing [$] *)
  ignore_case : bool   (* the [i] flag *)
}.

(** [pattern.test(s)] *)
Definition test (p : pattern) (s : string) : bool :=
  if to_end p then match_all (ignore_case p) (body p) s
  else match_prefix (ignore_case p) (body p) s.

Definition starts (r : re) : pattern := Pattern r false false.

(** an expression that matches no string *)
Fixpoint void (r : re) : bool :=
  match r with
  | Fail => true
  | Eps | Chr _ | Range _ _ | Star _ => false
  | Seq a b => void a || void b
  | Alt a b => void a && void b
  end.

(** the derivative by a whole string *)
Fixpoint derivs (icase : bool) (s : string) (r : re) : re :=
  match s with
  | EmptyString => r
  | String x t => derivs icase t (deriv icase x r)
  end.

(** some proper prefix of [s] is matched by [r] *)
Fixpoint matched_within (icase : bool) (r : re) (s : string) : bool :=
  match s with
  | EmptyString => false
  | String x t => nullable r || matched_within icase (deriv icase x r) t
  end.

(** the pattern cannot match a string that starts with [prefix] *)
Definition rules_out (p : pattern) (prefix : string) : bool :=
  if to_end p then void (derivs (ignore_case p) prefix (body p))
  else negb (matched_within (ignore_case p) (body p) prefix)
       && void (derivs (ignore_case p) prefix (body p)).

End Regex.

(** ** URL guard *)

Module Guard.
Import Regex.

(** The fields of a WHATWG [URL] object that the guard reads. *)
Record ParsedUrl : Type := {
  protocol : string;
  hostname : string;
  username : string;
  password : string
}.

Record Validation : Type := {
  valid : bool;
  error : option string
}.

Definition rejected (msg : string) : Validation :=
  {| valid := false; error := Some msg |}.
Definition accepted : Validation :=
  {| valid := true; error := None |}.

Definition BLOCKED_IP_PATTERNS : list pattern :=
  [ starts (lit "127.");
    starts (lit "10.");
    starts (Seq (lit "172.")
             (Seq (Alt (Seq (Chr "1") (Range "6" "9"))
                  (Alt (Seq (Chr "2") (Range "0" "9"))
                       (Seq (Chr "3") (Range "0" "1"))))
                  (Chr ".")));
    starts (lit "192.168.");
    starts (lit "169.254.");
    starts (lit "0.");
    starts (Seq (lit "100.")
             (Seq (Alt (Seq (Chr "6") (Range "4" "9"))
                  (Alt (Seq (Range "7" "9") (Range "0" "9"))
                       (Seq (Chr "1") (Seq (Range "0" "2") (Range "0" "7")))))
                  (Chr ".")));
    starts (lit "192.0.0.");
    starts (lit "192.0.2.");
    starts (lit "198.51.100.");
    starts (lit "203.0.113.");
    starts (lit "224.");
    starts (lit "240.");
    starts (lit "255.");
    Pattern (lit "::1") true false;
    Pattern (lit "fc00:") false true;
    Pattern (lit "fe80:") false true ].

Definition BLOCKED_HOSTNAMES : list string :=
  [ "localhost";
    "localhost.localdomain";
    "127.0.0.1";
    "0.0.0.0";
    "::1";
    "[::1]";
    "metadata.google.internal";
    "169.254.169.254";
    "metadata.azure.com" ].

(** [/^(\d{1,3})\.(\d{1,3})\.(\d{1,3})\.(\d{1,3})$/] *)
Definition octet : re := Seq digit (Seq (opt digit) (opt digit)).
Definition ipv4_pattern : pattern :=
  Pattern (Seq octet (Seq (Chr ".") (Seq octet (Seq (Chr ".")
          (Seq octet (Seq (Chr ".") octet)))))) true false.

(** the loop [for (const pattern of BLOCKED_IP_PATTERNS) if (pattern.test(hostname)) return ...] *)
Definition in_blocked_range (host : string) : bool :=
  existsb (fun p => test p host) BLOCKED_IP_PATTERNS.

(** leading octets inside 100.64.0.0/10, 224.0.0.0/4 and 240.0.0.0/4 that
    no entry of [BLOCKED_IP_PATTERNS] or [BLOCKED_HOSTNAMES] starts with *)
Definition unlisted_ipv4_prefixes : list string :=
  [ "100.108."; "100.109."; "100.118."; "100.119.";
    "225."; "226."; "227."; "228."; "229."; "230."; "231."; "232."; "233.";
    "234."; "235."; "236."; "237."; "238."; "239.";
    "241."; "242."; "243."; "244."; "245."; "246."; "247."; "248."; "249.";
    "250."; "251."; "252."; "253."; "254." ].

Section WithUrlParser.

  (** [new URL(s)]: [None] when the constructor throws. *)
Variable URL_parse : string -> option ParsedUrl.

Definition validateWebhookUrl (urlString : string) : Validation :=
  if String.eqb urlString EmptyString then rejected "URL is required"
  else
    match URL_parse urlString with
    | None => rejected "Invalid URL format"
    | Some parsedUrl =>
        if negb (Str.mem (protocol parsedUrl) ["http:"; "https:"])
        then rejected ("Protocol '" ++ protocol parsedUrl
                       ++ "' is not allowed. Use http or https.")
        else
          let hostname := Str.toLowerCase (hostname parsedUrl) in
          if Str.mem hostname BLOCKED_HOSTNAMES
          then rejected ("Hostname '" ++ hostname
                         ++ "' is not allowed for security reasons")
          else if test ipv4_pattern hostname && in_blocked_range hostname
          then rejected ("IP address '" ++ hostname
                         ++ "' is in a blocked range")
          else if (Str.startsWith "[" hostname || Str.includes ":" hostname)
                  && in_blocked_range hostname
          then rejected ("IPv6 address '" ++ hostname
                         ++ "' is in a blocked range")
          else if negb (String.eqb (username parsedUrl) EmptyString)
                  || negb (String.eqb (password parsedUrl) EmptyString)
          then rejected "URLs with embedded credentials are not allowed"
          else accepted
    end.

End WithUrlParser.

End Guard.

(** ** JavaScript values *)

Module Js.

#[local] Set Warnings "-register-all".

Inductive value : Type :=
| JUndefined
| JNull
| JBool (b : bool)
| JNum (n : Z)
| JStr (s : string)
| JArr (items : list value)
| JObj (fields : list (string * value))
(** an object whose prototype was replaced by [proto]: [JNull] or an object *)
| JObjP (proto : value) (fields : list (string * value)).

Inductive type : Type := TUndefined | TObject | TBoolean | TNumber | TString.

Definition typeof (v : value) : type :=
  match v with
  | JUndefined => TUndefined
  | JNull | JArr _ | JObj _ | JObjP _ _ => TObject
  | JBool _ => TBoolean
  | JNum _ => TNumber
  | JStr _ => TString
  end.

Definition is_object (v : value) : bool :=
  match typeof v with TObject => true | _ => false end.

(** truthiness, as tested by [if (v)], [!v] and [v || d] *)
Definition truthy (v : value) : bool :=
  match v with
  | JUndefined | JNull => false
  | JBool b => b
  | JNum n => negb (n =? 0)%Z
  | JStr s => negb (String.eqb s EmptyString)
  | JArr _ | JObj _ | JObjP _ _ => true
  end.

Definition fields_t : Type := list (string * value).

(** the own property [k] among the own properties [o] *)
Fixpoint obj_get {A : Type} (k : string) (o : list (string * A)) : option A :=
  match o with
  | [] => None
  | (k', v) :: rest => if String.eqb k k' then Some v else obj_get k rest
  end.

(** an own property defined: overwritten in place, or appended *)
Fixpoint obj_set {A : Type} (k : string) (v : A) (o : list (string * A))
    : list (string * A) :=
  match o with
  | [] => [(k, v)]
  | (k', v') :: rest =>
      if String.eqb k k' then (k', v) :: rest
      else (k', v') :: obj_set k v rest
  end.

Definition keys {A : Type} (o : list (string * A)) : list string := map fst o.

Fixpoint indexed {A : Type} (mk : A -> value) (i : nat) (xs : list A) : fields_t :=
  match xs with
  | [] => []
  | x :: rest => (Str.of_nat i, mk x) :: indexed mk (S i) rest
  end.

Definition chars (s : string) : list ascii := list_ascii_of_string s.
Definition char_value (c : ascii) : value := JStr (String c EmptyString).

(** The own enumerable properties, in the order [Object.entries] and the
    spread [{...v}] visit them. *)
Definition own_entries (v : value) : fields_t :=
  match v with
  | JObj fields | JObjP _ fields => fields
  | JArr items => indexed (fun x => x) 0 items
  | JStr s => indexed char_value 0 (chars s)
  | _ => []
  end.

Definition put (o : fields_t) (kv : string * value) : fields_t :=
  obj_set (fst kv) (snd kv) o.

(** [{...acc, ...v}] where [acc] is the object literal built so far *)
Definition spread (acc : fields_t) (v : value) : fields_t :=
  fold_left put (own_entries v) acc.

(** a string that is the canonical decimal form of an array index *)
Definition is_index (k : string) : bool :=
  negb (String.eqb k EmptyString)
  && Str.all_chars Str.is_digit k
  && String.eqb (Str.of_nat (Str.digits_value 0 k)) k.

Definition or_undefined (o : option value) : value :=
  match o with Some v => v | None => JUndefined end.

(** The own property [k] of [v]: a field of an object, the [length] and
    the elements of an array or a string. [None] when [v] has no such
    property of its own. *)
Definition own (v : value) (k : string) : option value :=
  match v with
  | JObj fields | JObjP _ fields => obj_get k fields
  | JArr items =>
      if String.eqb k "length" then Some (JNum (Z.of_nat (List.length items)))
      else if is_index k then nth_error items (Str.digits_value 0 k)
      else None
  | JStr s =>
      if String.eqb k "length" then Some (JNum (Z.of_nat (String.length s)))
      else if is_index k
      then option_map char_value (nth_error (chars s) (Str.digits_value 0 k))
      else None
  | _ => None
  end.

Definition has {A : Type} (k : string) (o : list (string * A)) : bool :=
  match obj_get k o with Some _ => true | None => false end.

Definition isArray (v : value) : bool :=
  match v with JArr _ => true | _ => false end.

(** What an assignment [o[k] = v] meets on the prototype chain of [o] when
    [o] has no own property [k]. *)
Inductive slot : Type :=
| Free          (** nothing, or a writable property: [o] gets an own property *)
| Proto_setter  (** the accessor [__proto__] of [Object.prototype] *)
| Closed        (** a read-only property: the assignment does nothing *)
| Thrower.      (** an accessor whose setter throws a TypeError *)

(** The chain from [holder] on, for holders that are data: objects and
    arrays hold writable properties, the chain of an object or an array
    goes on to [Object.prototype], whose only accessor is [__proto__], and
    the chain of an object with a replaced prototype goes on to that
    prototype, [null] ending it. *)
Fixpoint value_slot (holder : value) (k : string) : slot :=
  match holder with
  | JObjP proto fields => if has k fields then Free else value_slot proto k
  | JObj fields =>
      if has k fields then Free
      else if String.eqb k "__proto__" then Proto_setter else Free
  | JArr items =>
      match own (JArr items) k with
      | Some _ => Free
      | None => if String.eqb k "__proto__" then Proto_setter else Free
      end
  | _ => Free
  end.

(** [o[k] = v] on an object [o] made by an object literal: an own property
    is overwritten in place; a new one is appended, unless the key is
    [__proto__] and reaches the accessor of [Object.prototype], which
    replaces the prototype of [o] when [v] is an object or [null] and does
    nothing otherwise. *)
Definition assign (o : value) (k : string) (v : value) : value :=
  match o with
  | JObj fields =>
      if has k fields then JObj (obj_set k v fields)
      else if String.eqb k "__proto__"
      then (if is_object v then JObjP v fields else o)
      else JObj (obj_set k v fields)
  | JObjP proto fields =>
      if has k fields then JObjP proto (obj_set k v fields)
      else
        match value_slot proto k with
        | Proto_setter => if is_object v then JObjP v fields else o
        | _ => JObjP proto (obj_set k v fields)
        end
  | _ => o
  end.

End Js.

(** ** Template renderer *)

Module Template.
Import Js.

Section WithHandlebars.

  (** [Handlebars.compile(template, { noEscape: true })(context)];
      [None] when compiling or rendering throws. *)
Variable Handlebars_render : string -> value -> option string.

Definition processTemplate (template : string) (context : value) : string :=
  if String.eqb template EmptyString then template
  else
    match Handlebars_render template context with
    | Some rendered => rendered
    | None => template
    end.

Fixpoint processObjectTemplates (obj : value) (context : value) : value :=
  match obj with
  | JArr items => JArr (map (fun item => processObjectTemplates item context) items)
  | JObj fields | JObjP _ fields =>
      fold_left
        (fun result kv =>
           match kv with
           | (key, JStr s) => assign result key (JStr (processTemplate s context))
           | (key, (JNull | JArr _ | JObj _ | JObjP _ _) as v) =>
               assign result key (processObjectTemplates v context)
           | (key, v) => assign result key v
           end)
        fields (JObj [])
  | _ => obj
  end.

End WithHandlebars.

End Template.

(** ** The outside world

    One dispatch is a computation over a world that holds the wall clock, the
    requests issued so far, the timers slept on and the number of random
    draws taken. *)

Module Http.
Import Js.

(** the argument of the [axios(...)] call *)
Module Request.
Record t : Type := {
  method : string;
  url : string;
  headers : fields_t;
  data : value;
  params : value;
  timeout : Z
}.
End Request.

(** the error object axios rejects with *)
Module Failure.
Record t : Type := {
  code : option string;
  message : string
}.
End Failure.

Module Response.
Record t : Type := {
  status : Z;
  data : value;
  headers : value
}.
End Response.

Inductive outcome : Type :=
| Responded (response : Response.t)
| Threw (err : Failure.t).

Record World : Type := {
  clock : Z;
  requests : list Request.t;
  sleeps : list float;
  draws : nat
}.

Definition initial (t0 : Z) : World :=
  {| clock := t0; requests := []; sleeps := []; draws := 0 |}.

Definition M (A : Type) : Type := World -> A * World.

Definition ret {A : Type} (a : A) : M A := fun w => (a, w).

Definition bind {A B : Type} (m : M A) (k : A -> M B) : M B :=
  fun w => let (a, w') := m w in k a w'.

Definition run {A : Type} (m : M A) (w : World) : A * World := m w.

(** [Date.now()] *)
Definition Date_now : M Z := fun w => (clock w, w).

End Http.

Declare Scope io_scope.
Delimit Scope io_scope with io.
Notation "x <- m ;; k" := (Http.bind m (fun x => k))
  (at level 61, m at next level, right associativity) : io_scope.
Notation "m ;;; k" := (Http.bind m (fun _ => k))
  (at level 61, right associativity) : io_scope.

(** ** Request builder and single-attempt executor *)

Module Executor.
Import Js Http.

Module Config.
  (** [method] is [EmptyString] when the caller gave none; absent
      [headers], [body] and [params] are [JUndefined]. *)
Record t : Type := {
  url : string;
  method : string;
  headers : value;
  body : value;
  params : value
}.
End Config.

Inductive Status : Type := success_ | error_ | timeout_.

Definition Status_eqb (a b : Status) : bool :=
  match a, b with
  | success_, success_ | error_, error_ | timeout_, timeout_ => true
  | _, _ => false
  end.

(** the object [executeSingleRequest] resolves to; a key the source leaves
    out is [None] (or [JUndefined]) *)
Module Result.
Record t : Type := {
  success : bool;
  status : Status;
  httpStatusCode : option Z;
  httpResponse : option string;
  data : value;
  executionTimeMs : Z;
  headers : value;
  error : option Failure.t;
  errorMessage : option string;
  errorCode : option string
}.
End Result.

Section WithLibraries.

Variable URL_parse : string -> option Guard.ParsedUrl.
Variable Handlebars_render : string -> value -> option string.
(** [JSON.parse(s)]; [None] when it throws *)
Variable JSON_parse : string -> option value.
(** [JSON.stringify(v)] and [String(v)] *)
Variable JSON_stringify : value -> string.
Variable String_of : value -> string.
(** the [n]-th call of axios: what it settles to and after how long *)
Variable axios : nat -> Request.t -> outcome * Z.

Local Notation processTemplate := (Template.processTemplate Handlebars_render).
Local Notation processObjectTemplates := (Template.processObjectTemplates Handlebars_render).
Local Notation validateWebhookUrl := (Guard.validateWebhookUrl URL_parse).

Definition await_axios (request : Request.t) : M outcome :=
  fun w =>
    let (o, elapsed) := axios (List.length (requests w)) request in
    (o, {| clock := clock w + Z.max 0 elapsed;
           requests := requests w ++ [request];
           sleeps := sleeps w;
           draws := draws w |}).

(** [(config.method || 'POST').toUpperCase()] *)
Definition request_method (config : Config.t) : string :=
  Str.toUpperCase
    (if String.eqb (Config.method config) EmptyString then "POST"
     else Config.method config).

(** the headers literal, defaults first and the caller's spread on top *)
Definition request_headers (config : Config.t) (context : value) : fields_t :=
  spread [("Content-Type", JStr "application/json");
          ("User-Agent", JStr "CodeFlow/1.0")]
         (if truthy (Config.headers config)
          then processObjectTemplates (Config.headers config) context
          else JObj []).

(** [processedBody], computed when [config.body] is truthy *)
Definition processedBody (config : Config.t) (context : value) : value :=
  match Config.body config with
  | JStr s =>
      let processed := processTemplate s context in
      match JSON_parse processed with
      | Some parsed => parsed
      | None => JStr processed
      end
  | body => processObjectTemplates body context
  end.

(** the declared [params], before the body is looked at *)
Definition declared_params (config : Config.t) (context : value) : value :=
  if truthy (Config.params config)
  then processObjectTemplates (Config.params config) context
  else JUndefined.

(** lines 221-269: everything passed to axios *)
Definition build_request (config : Config.t) (context : value) (timeout : Z)
  : Request.t :=
  let url := processTemplate (Config.url config) context in
  let method := request_method config in
  let headers := request_headers config context in
  let data := JNull in
  let params := declared_params config context in
  let '(data, params) :=
    if truthy (Config.body config)
    then
      let processedBody := processedBody config context in
      if String.eqb method "GET" && is_object processedBody
      then (data, JObj (spread (spread [] params) processedBody))
      else (processedBody, params)
    else (data, params) in
  {| Request.method := method;
     Request.url := url;
     Request.headers := headers;
     Request.data := data;
     Request.params := params;
     Request.timeout := timeout |}.

(** [String.prototype.slice(0, 10000)] *)
Definition slice_10000 (s : string) : string := String.substring 0 10000 s.

Definition executeSingleRequest (config : Config.t) (context : value)
    (timeout : Z) (skipValidation : bool) : M Result.t :=
  (startTime <- Date_now ;;
   let url := processTemplate (Config.url config) context in
   let urlValidation := validateWebhookUrl url in
   if negb skipValidation && negb (Guard.valid urlValidation)
   then
     now <- Date_now ;;
     ret {| Result.success := false;
            Result.status := error_;
            Result.httpStatusCode := None;
            Result.httpResponse := None;
            Result.data := JUndefined;
            Result.executionTimeMs := now - startTime;
            Result.headers := JUndefined;
            Result.error := None;
            Result.errorMessage :=
              Some ("URL validation failed: "
                    ++ match Guard.error urlValidation with
                       | Some e => e
                       | None => "undefined"
                       end);
            Result.errorCode := None |}
   else
     settled <- await_axios (build_request config context timeout) ;;
     now <- Date_now ;;
     let executionTimeMs := now - startTime in
     match settled with
     | Responded response =>
         let responseData :=
           match Response.data response with
           | JStr s =>
               match JSON_parse s with
               | Some parsed => parsed
               | None => JStr s
               end
           | d => d
           end in
         let isSuccess :=
           (200 <=? Response.status response)%Z
           && (Response.status response <? 300)%Z in
         ret {| Result.success := isSuccess;
                Result.status := if isSuccess then success_ else error_;
                Result.httpStatusCode := Some (Response.status response);
                Result.httpResponse :=
                  Some (if is_object responseData
                        then slice_10000 (JSON_stringify responseData)
                        else slice_10000 (String_of responseData));
                Result.data := responseData;
                Result.executionTimeMs := executionTimeMs;
                Result.headers := Response.headers response;
                Result.error := None;
                Result.errorMessage := None;
                Result.errorCode := None |}
     | Threw err =>
         if match Failure.code err with
            | Some c => String.eqb c "ECONNABORTED"
            | None => false
            end
            || Str.includes "timeout" (Failure.message err)
         then
           ret {| Result.success := false;
                  Result.status := timeout_;
                  Result.httpStatusCode := None;
                  Result.httpResponse := None;
                  Result.data := JUndefined;
                  Result.executionTimeMs := executionTimeMs;
                  Result.headers := JUndefined;
                  Result.error := Some err;
                  Result.errorMessage :=
                    Some ("Request timed out after "
                          ++ NilEmpty.string_of_int (Z.to_int timeout) ++ "ms");
                  Result.errorCode := None |}
         else
           ret {| Result.success := false;
                  Result.status := error_;
                  Result.httpStatusCode := None;
                  Result.httpResponse := None;
                  Result.data := JUndefined;
                  Result.executionTimeMs := executionTimeMs;
                  Result.headers := JUndefined;
                  Result.error := Some err;
                  Result.errorMessage := Some (Failure.message err);
                  Result.errorCode := Failure.code err |}
     end)%io.

(** the request goes out when validation is skipped or passes *)
Definition goes_out (config : Config.t) (context : value) (skipValidation : bool) : Prop :=
  skipValidation = true
  \/ Guard.valid (validateWebhookUrl (processTemplate (Config.url config) context))
     = true.

End WithLibraries.

End Executor.


(** ** Numbers

    A JavaScript Number is a binary64 floating-point number: the primitive
    [float], whose operations round to nearest, ties to even. *)

Module Double.

Local Open Scope Z_scope.

(** the Number nearest to an integer *)
Definition of_Z (z : Z) : float := SF2Prim (binary_normalize prec emax z 0 false).

(** the rational a finite float holds; 0 stands in for the rest *)
Definition SF2Q (f : spec_float) : Q :=
  match f with
  | S754_finite s m e => (inject_Z (cond_Zopp s (Zpos m)) * 2 ^ e)%Q
  | _ => 0%Q
  end.

Definition SFfinite (f : spec_float) : bool :=
  match f with
  | S754_finite _ _ _ | S754_zero _ => true
  | _ => false
  end.

Definition value (x : float) : Q := SF2Q (Prim2SF x).
Definition finite (x : float) : bool := SFfinite (Prim2SF x).

(** the integer a Number is, if it is one *)
Definition whole (x : float) : option Z :=
  match Prim2SF x with
  | S754_zero _ => Some 0
  | S754_finite s m e =>
      let v := cond_Zopp s (Zpos m) in
      if 0 <=? e then Some (v * 2 ^ e)
      else if v mod 2 ^ (- e) =? 0 then Some (v / 2 ^ (- e)) else None
  | _ => None
  end.

(** the whole part of a Number, 0 for what is not a finite number *)
Definition truncate (x : float) : Z :=
  match Prim2SF x with
  | S754_finite s m e =>
      if 0 <=? e then cond_Zopp s (Zpos m * 2 ^ e)
      else cond_Zopp s (Zpos m / 2 ^ (- e))
  | _ => 0
  end.

Section Format.

Variables prec emax : Z.

(** what [k] right shifts leave of the mantissa [m0] *)
Definition shifted (m0 k : Z) (mrs : shr_record) : Prop :=
  shr_m mrs = m0 / 2 ^ k
  /\ (m0 mod 2 ^ k = 0 -> shr_r mrs = false /\ shr_s mrs = false).

(** the float with mantissa [m] at the exponent [e] of the format, where
    [m] may have grown to [2^prec] *)
Definition rounded (s : bool) (m e : Z) : spec_float :=
  if m =? 0 then S754_zero s
  else if m =? 2 ^ prec
       then if e + 1 <=? emax - prec
            then S754_finite s (Z.to_pos (2 ^ (prec - 1))) (e + 1)
            else S754_infinity s
       else if e <=? emax - prec
            then S754_finite s (Z.to_pos m) e
            else S754_infinity s.

End Format.

End Double.

(** ** Retry orchestrator *)

Module Retry.
Import Js Http Executor.

Module Policy.
Record t : Type := {
  maxRetries : Z;
  initialDelayMs : float;
  maxDelayMs : float;
  backoffMultiplier : float;
  retryableStatusCodes : list Z;
  retryableErrors : list string
}.
End Policy.

(** the caller's [retryConfig]: a key it does not give is [None] *)
Module Overrides.
Record t : Type := {
  maxRetries : option Z;
  initialDelayMs : option float;
  maxDelayMs : option float;
  backoffMultiplier : option float;
  retryableStatusCodes : option (list Z);
  retryableErrors : option (list string)
}.
Definition none : t :=
  {| maxRetries := None; initialDelayMs := None; maxDelayMs := None;
     backoffMultiplier := None; retryableStatusCodes := None;
     retryableErrors := None |}.
End Overrides.

Definition DEFAULT_RETRY_CONFIG : Policy.t :=
  {| Policy.maxRetries := 3;
     Policy.initialDelayMs := 1000;
     Policy.maxDelayMs := 10000;
     Policy.backoffMultiplier := 2;
     Policy.retryableStatusCodes := [408; 429; 500; 502; 503; 504];
     Policy.retryableErrors :=
       ["ECONNRESET"; "ETIMEDOUT"; "ECONNABORTED"; "ENOTFOUND"; "EAI_AGAIN"] |}.

Definition pick {A : Type} (given : option A) (default : A) : A :=
  match given with Some a => a | None => default end.

(** [{ ...DEFAULT_RETRY_CONFIG, ...retryConfig }] *)
Definition merge_retry (retryConfig : Overrides.t) : Policy.t :=
  {| Policy.maxRetries :=
       pick (Overrides.maxRetries retryConfig) (Policy.maxRetries DEFAULT_RETRY_CONFIG);
     Policy.initialDelayMs :=
       pick (Overrides.initialDelayMs retryConfig) (Policy.initialDelayMs DEFAULT_RETRY_CONFIG);
     Policy.maxDelayMs :=
       pick (Overrides.maxDelayMs retryConfig) (Policy.maxDelayMs DEFAULT_RETRY_CONFIG);
     Policy.backoffMultiplier :=
       pick (Overrides.backoffMultiplier retryConfig)
            (Policy.backoffMultiplier DEFAULT_RETRY_CONFIG);
     Policy.retryableStatusCodes :=
       pick (Overrides.retryableStatusCodes retryConfig)
            (Policy.retryableStatusCodes DEFAULT_RETRY_CONFIG);
     Policy.retryableErrors :=
       pick (Overrides.retryableErrors retryConfig)
            (Policy.retryableErrors DEFAULT_RETRY_CONFIG) |}.

(** [Math.round(x)]: [x] itself when it is not finite or is an integer,
    else the nearest integer, halves towards plus infinity, a zero result
    taking the sign of [x] *)
Definition Math_round (x : float) : float :=
  match Prim2SF x with
  | S754_finite s m e =>
      if (0 <=? e)%Z then x
      else
        let r := ((cond_Zopp s (Zpos m) + 2 ^ (- e - 1)) / 2 ^ (- e))%Z in
        if (r =? 0)%Z then (if s then neg_zero else zero) else Double.of_Z r
  | _ => x
  end.

(** [Math.min(a, b)]: NaN when either is, and [-0] below [+0] *)
Definition Math_min (a b : float) : float :=
  if is_nan a || is_nan b then nan
  else if (a <? b)%float then a
  else if (b <? a)%float then b
  else if get_sign a then a else b.

(** [sleep(ms)]: the timer is logged and the clock moves past it *)
Definition sleep (ms : float) : M unit :=
  fun w => (tt, {| clock := clock w + Z.max 0 (Double.truncate ms);
                   requests := requests w;
                   sleeps := sleeps w ++ [ms];
                   draws := draws w |}).

Module Attempt.
Record t : Type := {
  attempt : Z;
  status : Status;
  httpStatusCode : option Z;
  executionTimeMs : Z;
  errorMessage : option string
}.
End Attempt.

(** What [executeWebhook] resolves to. [base] holds the keys spread from a
    single-attempt result ([None] when [null] was spread); each key that
    only some return sites write is an [option]. *)
Module Dispatch.
Record t : Type := {
  base : option Result.t;
  totalExecutionTimeMs : option Z;
  attempts : option (list Attempt.t);
  retriesUsed : option Z;
  maxRetriesReached : option bool
}.
End Dispatch.

Definition isRetryable (result : Result.t) (error : option Failure.t)
    (config : Policy.t) : bool :=
  if match error with
     | Some e =>
         match Failure.code e with
         | Some c => Str.mem c (Policy.retryableErrors config)
         | None => false
         end
     | None => false
     end
  then true
  else if match Result.httpStatusCode result with
          | Some c => negb (c =? 0)%Z
                      && existsb (Z.eqb c) (Policy.retryableStatusCodes config)
          | None => false
          end
  then true
  else if Status_eqb (Result.status result) timeout_
  then true
  else false.

Section WithLibraries.

Variable URL_parse : string -> option Guard.ParsedUrl.
Variable Handlebars_render : string -> value -> option string.
Variable JSON_parse : string -> option value.
Variable JSON_stringify : value -> string.
Variable String_of : value -> string.
Variable axios : nat -> Request.t -> outcome * Z.
(** the [n]-th value [Math.random()] returns *)
Variable Math_random : nat -> float.
(** [Math.pow(base, exponent)], which the language leaves to the
    implementation to approximate *)
Variable Math_pow : float -> float -> float.

Local Notation processTemplate := (Template.processTemplate Handlebars_render).
Local Notation validateWebhookUrl := (Guard.validateWebhookUrl URL_parse).
Local Notation executeSingleRequest :=
  (Executor.executeSingleRequest URL_parse Handlebars_render JSON_parse
     JSON_stringify String_of axios).

Definition random : M float :=
  fun w => (Math_random (draws w),
            {| clock := clock w; requests := requests w;
               sleeps := sleeps w; draws := S (draws w) |}).

(** [cappedDelay] of [calculateBackoffDelay] *)
Definition cappedDelay (attempt : Z) (config : Policy.t) : float :=
  let exponentialDelay :=
    (Policy.initialDelayMs config
     * Math_pow (Policy.backoffMultiplier config) (Double.of_Z attempt))%float in
  Math_min exponentialDelay (Policy.maxDelayMs config).

Definition calculateBackoffDelay (attempt : Z) (config : Policy.t) : M float :=
  (let cappedDelay := cappedDelay attempt config in
   u <- random ;;
   let jitter := (cappedDelay * 0.25 * (u * 2 - 1))%float in
   ret (Math_round (cappedDelay + jitter)%float))%io.

(** how the [for] loop is left *)
Inductive loop_exit : Type :=
| Returned (result : Dispatch.t)
| Fell_through (lastResult : option Result.t) (attempts : list Attempt.t).

(** The loop [for (attempt = 0; attempt <= retry.maxRetries; attempt++)],
    over the indices it still has to visit. *)
Fixpoint retry_loop (config : Config.t) (context : value) (timeout : Z)
    (retry : Policy.t) (totalStartTime : Z)
    (indices : list Z) (lastResult : option Result.t) (attempts : list Attempt.t)
    : M loop_exit :=
  match indices with
  | [] => ret (Fell_through lastResult attempts)
  | attempt :: later =>
      ((if (0 <? attempt)%Z
        then delay <- calculateBackoffDelay (attempt - 1) retry ;; sleep delay
        else ret tt) ;;;
       result <- executeSingleRequest config context timeout true ;;
       let attempts :=
         (attempts ++ [ {| Attempt.attempt := attempt + 1;
                          Attempt.status := Result.status result;
                          Attempt.httpStatusCode := Result.httpStatusCode result;
                          Attempt.executionTimeMs := Result.executionTimeMs result;
                          Attempt.errorMessage := Result.errorMessage result |} ])%list in
       let lastResult := Some result in
       if Result.success result
       then
         now <- Date_now ;;
         ret (Returned {| Dispatch.base := Some result;
                          Dispatch.totalExecutionTimeMs := Some (now - totalStartTime);
                          Dispatch.attempts := Some attempts;
                          Dispatch.retriesUsed := Some attempt;
                          Dispatch.maxRetriesReached := None |})
       else if (attempt <? Policy.maxRetries retry)%Z
               && isRetryable result (Result.error result) retry
       then retry_loop config context timeout retry totalStartTime
                       later lastResult attempts
       else ret (Fell_through lastResult attempts))%io
  end.

(** the values [attempt] takes: [0, 1, ..., maxRetries] *)
Definition attempt_indices (maxRetries : Z) : list Z :=
  map Z.of_nat (seq 0 (Z.to_nat (maxRetries + 1))).

Definition executeWebhook (config : Config.t) (context : value) (timeout : Z)
    (retryConfig : Overrides.t) : M Dispatch.t :=
  (totalStartTime <- Date_now ;;
   let processedUrl := processTemplate (Config.url config) context in
   let urlValidation := validateWebhookUrl processedUrl in
   if negb (Guard.valid urlValidation)
   then
     now1 <- Date_now ;;
     now2 <- Date_now ;;
     ret {| Dispatch.base :=
              Some {| Result.success := false;
                      Result.status := error_;
                      Result.httpStatusCode := None;
                      Result.httpResponse := None;
                      Result.data := JUndefined;
                      Result.executionTimeMs := now1 - totalStartTime;
                      Result.headers := JUndefined;
                      Result.error := None;
                      Result.errorMessage :=
                        Some ("URL validation failed: "
                              ++ match Guard.error urlValidation with
                                 | Some e => e
                                 | None => "undefined"
                                 end);
                      Result.errorCode := None |};
            Dispatch.totalExecutionTimeMs := Some (now2 - totalStartTime);
            Dispatch.attempts := Some [];
            Dispatch.retriesUsed := Some 0;
            Dispatch.maxRetriesReached := None |}
   else
     let retry := merge_retry retryConfig in
     if (Policy.maxRetries retry =? 0)%Z
     then
       result <- executeSingleRequest config context timeout true ;;
       ret {| Dispatch.base := Some result;
              Dispatch.totalExecutionTimeMs := None;
              Dispatch.attempts := None;
              Dispatch.retriesUsed := None;
              Dispatch.maxRetriesReached := None |}
     else
       exit <- retry_loop config context timeout retry totalStartTime
                          (attempt_indices (Policy.maxRetries retry)) None [] ;;
       match exit with
       | Returned result => ret result
       | Fell_through lastResult attempts =>
           now <- Date_now ;;
           ret {| Dispatch.base := lastResult;
                  Dispatch.totalExecutionTimeMs := Some (now - totalStartTime);
                  Dispatch.attempts := Some attempts;
                  Dispatch.retriesUsed := Some (Z.of_nat (List.length attempts) - 1);
                  Dispatch.maxRetriesReached :=
                    Some (Policy.maxRetries retry <? Z.of_nat (List.length attempts))%Z |}
       end)%io.

(** the wait that opens an iteration of the loop *)
Definition backoff (attempt : Z) (retry : Policy.t) : M unit :=
  (if (0 <? attempt)%Z
   then delay <- calculateBackoffDelay (attempt - 1) retry ;; sleep delay
   else ret tt)%io.

Definition record_of (attempt : Z) (result : Result.t) : Attempt.t :=
  {| Attempt.attempt := attempt + 1;
     Attempt.status := Result.status result;
     Attempt.httpStatusCode := Result.httpStatusCode result;
     Attempt.executionTimeMs := Result.executionTimeMs result;
     Attempt.errorMessage := Result.errorMessage result |}.

(** every request is answered with the given status code *)
Definition always_answers (code : Z) : Prop :=
  forall n request, exists response elapsed,
    axios n request = (Responded response, elapsed)
    /\ Response.status response = code.


End WithLibraries.

End Retry.


(** ** Response extractor *)

Module Extractor.
Import Js.

Module Mapping.
(** [jsonPath] is [None] when the mapping has no such key *)
Record t : Type := {
  outputFieldName : string;
  jsonPath : option string
}.
End Mapping.

(** What a path can arrive at: a value of the data, or an object of the
    runtime, a built-in function or prototype, known by its name. *)
Inductive reached : Type :=
| Data (v : value)
| Native (name : string).

(** The built-in objects of the runtime, as far as a property read or an
    assignment can meet them. A read is [None] when a getter throws. *)
Module Runtime.
Record t : Type := {
  (** [inherited receiver holder k]: the property [k] that the prototype
      given by the runtime to [holder] holds, for the read [receiver[k]];
      [holder] has no own property [k] *)
  inherited : value -> value -> string -> option reached;
  (** the property [k] of a built-in object *)
  native_get : string -> string -> option reached;
  (** [Array.isArray] of a built-in object *)
  native_isArray : string -> bool;
  (** what an assignment of [k] meets on a prototype chain that starts at
      a built-in object *)
  native_slot : string -> string -> slot;
  (** the property key of a numeric index: [String(parseInt(digits, 10))]
      for the digits of [n] *)
  index_key : nat -> string
}.
End Runtime.

(** the object [outputs]: its prototype, [None] while it is the one the
    object literal gave it, and its own properties *)
Module Outputs.
Record t : Type := {
  proto : option reached;
  fields : list (string * reached)
}.
Definition empty : t := {| proto := None; fields := [] |}.
End Outputs.

(** the longest prefix whose characters satisfy [p], and the rest *)
Fixpoint span (p : ascii -> bool) (s : string) : string * string :=
  match s with
  | EmptyString => (EmptyString, EmptyString)
  | String c t =>
      if p c then let (taken, rest) := span p t in (String c taken, rest)
      else (EmptyString, s)
  end.

Definition nonempty (s : string) : bool := negb (String.eqb s EmptyString).

(** [part.match(/^(\w+)\[(\d+)\]$/)]: the two captured groups. Neither
    the opening bracket is a word character nor the closing one a digit, so
    each group is the longest run of its class. *)
Definition arrayMatch (part : string) : option (string * string) :=
  let (name, rest) := span Str.is_word part in
  match rest with
  | String c rest =>
      let (digits, rest) := span Str.is_digit rest in
      if Ascii.eqb c "[" && nonempty name && nonempty digits && String.eqb rest "]"
      then Some (name, digits)
      else None
  | EmptyString => None
  end.

(** [parseInt(digits, 10)] on a run of decimal digits *)
Definition parseInt (digits : string) : nat := Str.digits_value 0 digits.

Definition is_undefined (r : reached) : bool :=
  match r with Data JUndefined => true | _ => false end.

(** [current === null || current === undefined] *)
Definition gone (r : reached) : bool :=
  match r with Data (JNull | JUndefined) => true | _ => false end.

Definition truthy (r : reached) : bool :=
  match r with Data v => Js.truthy v | Native _ => true end.

(** objects, functions and [null]: what the accessor [__proto__] takes
    for a prototype *)
Definition object_or_null (r : reached) : bool :=
  match r with Data v => is_object v | Native _ => true end.

Section WithRuntime.

Variable runtime : Runtime.t.

(** The property [k] as [holder] and the prototype chain behind it hold
    it, for the read [receiver[k]]: an own property first, then the
    replaced prototype if there is one, then what the runtime gave. *)
Fixpoint lookup (receiver holder : value) (k : string) : option reached :=
  match own holder k with
  | Some v => Some (Data v)
  | None =>
      match holder with
      | JObjP proto _ =>
          match proto with
          | JNull => Some (Data JUndefined)
          | _ => lookup receiver proto k
          end
      | _ => Runtime.inherited runtime receiver holder k
      end
  end.

(** [v[k]]; [None] is a TypeError, the one raised on [null] and
    [undefined] included *)
Definition property (v : value) (k : string) : option reached :=
  match v with
  | JUndefined | JNull => None
  | _ => lookup v v k
  end.

(** [current[k]] *)
Definition read (current : reached) (k : string) : option reached :=
  match current with
  | Data v => property v k
  | Native n => Runtime.native_get runtime n k
  end.

(** [Array.isArray(current)] *)
Definition is_array (current : reached) : bool :=
  match current with
  | Data v => isArray v
  | Native n => Runtime.native_isArray runtime n
  end.

(** [current[index]] on an array *)
Definition at_index (current : reached) (index : nat) : option reached :=
  match current with
  | Data (JArr items) =>
      match nth_error items index with
      | Some v => Some (Data v)
      | None => Runtime.inherited runtime (JArr items) (JArr items)
                  (Runtime.index_key runtime index)
      end
  | other => read other (Runtime.index_key runtime index)
  end.

(** The loop of [getValueByPath] over the parts still to visit. [None] is
    an exception escaping the function. *)
Fixpoint walk (parts : list string) (current : reached) : option reached :=
  match parts with
  | [] => Some current
  | part :: rest =>
      if gone current then Some (Data JUndefined)
      else
        match arrayMatch part with
        | Some (name, digits) =>
            match read current name with
            | None => None
            | Some next =>
                if is_array next
                then match at_index next (parseInt digits) with
                     | None => None
                     | Some item => walk rest item
                     end
                else Some (Data JUndefined)
            end
        | None =>
            match read current part with
            | None => None
            | Some next => walk rest next
            end
        end
  end.

Definition getValueByPath (obj : reached) (path : string) : option reached :=
  walk (Str.split "." path) obj.

(** The path has a missing value at some segment: after a prefix of its
    parts the walk holds [undefined], or holds [null] with parts left. *)
Definition missing_at_segment (data : reached) (path : string) : Prop :=
  exists pre post,
    Str.split "." path = (pre ++ post)%list
    /\ (walk pre data = Some (Data JUndefined)
        \/ (walk pre data = Some (Data JNull) /\ post <> [])).

(** what an assignment of [k] meets behind [outputs] *)
Definition chain_slot (proto : option reached) (k : string) : slot :=
  match proto with
  | None => if String.eqb k "__proto__" then Proto_setter else Free
  | Some (Data v) => value_slot v k
  | Some (Native n) => Runtime.native_slot runtime n k
  end.

(** [outputs[k] = v]; [None] is a TypeError *)
Definition store (outputs : Outputs.t) (k : string) (v : reached) : option Outputs.t :=
  if has k (Outputs.fields outputs)
  then Some {| Outputs.proto := Outputs.proto outputs;
               Outputs.fields := obj_set k v (Outputs.fields outputs) |}
  else
    match chain_slot (Outputs.proto outputs) k with
    | Free => Some {| Outputs.proto := Outputs.proto outputs;
                      Outputs.fields := obj_set k v (Outputs.fields outputs) |}
    | Proto_setter =>
        Some (if object_or_null v
              then {| Outputs.proto := Some v;
                      Outputs.fields := Outputs.fields outputs |}
              else outputs)
    | Closed => Some outputs
    | Thrower => None
    end.

(** the loop [for (const mapping of outputMappings)] *)
Fixpoint extract_loop (data : reached) (mappings : list Mapping.t)
    (outputs : Outputs.t) : option Outputs.t :=
  match mappings with
  | [] => Some outputs
  | mapping :: rest =>
      match Mapping.jsonPath mapping with
      | None => extract_loop data rest outputs
      | Some jsonPath =>
          if String.eqb jsonPath EmptyString then extract_loop data rest outputs
          else
            match getValueByPath data jsonPath with
            | None => None
            | Some v =>
                if negb (is_undefined v)
                then match store outputs (Mapping.outputFieldName mapping) v with
                     | None => None
                     | Some outputs => extract_loop data rest outputs
                     end
                else extract_loop data rest outputs
            end
      end
  end.

(** [response] is any object with a [data] property; [outputMappings] is
    [None] when the caller passes none. [None] as a result is an exception
    escaping the function. *)
Definition extractOutputFields (response : value)
    (outputMappings : option (list Mapping.t)) : option Outputs.t :=
  match outputMappings with
  | None => Some Outputs.empty
  | Some mappings =>
      match property response "data" with
      | None => None
      | Some data =>
          if negb (truthy data) then Some Outputs.empty
          else extract_loop data mappings Outputs.empty
      end
  end.

End WithRuntime.

End Extractor.

(** ** A placeholder engine

    Handlebars is a library the repository imports; what the dispatcher
    relies on is described in section 4.2 of the specification and modelled
    here. *)

Module Mustache.
Import Js.

(** characters a placeholder expression may hold *)
Definition path_char (c : ascii) : bool := Str.is_word c || Ascii.eqb c ".".

Definition valid_path (expr : string) : bool :=
  negb (String.eqb expr EmptyString) && Str.all_chars path_char expr.

(** Modelled from the spec: one step of a dotted path into the context;
    anything that is not there is [JUndefined]. *)
Definition step (current : value) (segment : string) : value :=
  or_undefined (own current segment).

(** Modelled from the spec: a placeholder "resolves dotted paths into the
    context". *)
Definition resolve (context : value) (expr : string) : value :=
  fold_left step (Str.split "." expr) context.

(** literal text: no opening brace in it *)
Definition plain (s : string) : bool :=
  Str.all_chars (fun c => negb (Ascii.eqb c "{")) s.

Section WithString.

Variable String_of : value -> string.

(** Modelled from the spec: the text a resolved value is inserted as,
    verbatim; a value that is not there is the empty string. *)
Definition text_of (v : value) : string :=
  match v with
  | JUndefined | JNull => EmptyString
  | JStr s => s
  | other => String_of other
  end.

(** Modelled from the spec: the scanner of the placeholder engine. [expr]
    is [None] in literal text and [Some e] inside a placeholder whose
    expression so far is [e]. [None] as a result is a malformed template:
    a placeholder left open, or one whose expression is not a dotted path. *)
Fixpoint scan (template : string) (expr : option string) (context : value)
    : option string :=
  match expr, template with
  | None, EmptyString => Some EmptyString
  | None, String c rest =>
      match rest with
      | String c' rest' =>
          if Ascii.eqb c "{" && Ascii.eqb c' "{"
          then scan rest' (Some EmptyString) context
          else option_map (String c) (scan rest None context)
      | EmptyString => option_map (String c) (scan rest None context)
      end
  | Some e, EmptyString => None
  | Some e, String c rest =>
      match rest with
      | String c' rest' =>
          if Ascii.eqb c "}" && Ascii.eqb c' "}"
          then
            if valid_path e
            then option_map (String.append (text_of (resolve context e)))
                            (scan rest' None context)
            else None
          else scan rest (Some (e ++ String c EmptyString)) context
      | EmptyString => None
      end
  end.

(** Modelled from the spec: the Handlebars engine behind
    [Handlebars.compile(template, { noEscape: true })(context)], a library
    the repository only imports. Section 4.2: a placeholder resolves a
    dotted path into the context, an unresolved placeholder renders as the
    empty string, values are inserted verbatim, and a malformed template is
    a render failure. *)
Definition render (template : string) (context : value) : option string :=
  scan template None context.

End WithString.

End Mustache.


(** ** A concrete environment

    Stand-ins for the libraries at a handful of inputs, to run the
    dispatcher on. *)

Module Sample.
Import Js Http Executor Retry.

Definition http_host (host : string) : Guard.ParsedUrl :=
  {| Guard.protocol := "http:"; Guard.hostname := host;
     Guard.username := EmptyString; Guard.password := EmptyString |}.

(** what [new URL(s)] yields on the URLs used below; it throws on the rest *)
Definition URL_parse (s : string) : option Guard.ParsedUrl :=
  if String.eqb s "https://api.example.com/hook"
  then Some {| Guard.protocol := "https:"; Guard.hostname := "api.example.com";
               Guard.username := EmptyString; Guard.password := EmptyString |}
  else if String.eqb s "http://100.108.0.1/" then Some (http_host "100.108.0.1")
  else if String.eqb s "http://[fd00::1]/" then Some (http_host "[fd00::1]")
  else if String.eqb s "http://10.0.0.8/" then Some (http_host "10.0.0.8")
  else None.

Definition String_of (v : value) : string :=
  match v with
  | JStr s => s
  | JBool true => "true"
  | JBool false => "false"
  | JNum n => NilEmpty.string_of_int (Z.to_int n)
  | JUndefined => "undefined"
  | JNull => "null"
  | JArr _ => "[array]"
  | JObj _ | JObjP _ _ => "[object Object]"
  end.

Definition Handlebars_render : string -> value -> option string :=
  Mustache.render String_of.

(** a [JSON.parse] that rejects every input *)
Definition JSON_parse (s : string) : option value := None.

Definition JSON_stringify (v : value) : string := String_of v.

(** a destination that answers every request with the given status *)
Definition always (status : Z) (n : nat) (request : Request.t) : outcome * Z :=
  (Responded {| Response.status := status;
                Response.data := JStr "busy";
                Response.headers := JObj [] |}, 7).

(** a [Math.random] stuck at the low end of its range *)
Definition Math_random (n : nat) : float := 0%float.

(** a [Math.pow] for exponents that are whole and not negative: repeated
    multiplication, exact where the power is a Number *)
Definition Math_pow (base exponent : float) : float :=
  match Double.whole exponent with
  | Some n => Nat.iter (Z.to_nat n) (PrimFloat.mul base) 1%float
  | None => nan
  end.

(** the members of [Object.prototype] *)
Definition Object_prototype : list string :=
  ["constructor"; "__defineGetter__"; "__defineSetter__"; "hasOwnProperty";
   "__lookupGetter__"; "__lookupSetter__"; "isPrototypeOf";
   "propertyIsEnumerable"; "toString"; "valueOf"; "toLocaleString"].

(** The built-in objects a plain object meets: it inherits the members of
    [Object.prototype], its [constructor] is the function [Object], whose
    [name] is "Object", and its [__proto__] is [Object.prototype]. The
    stand-in knows no other built-in property. *)
Definition runtime : Extractor.Runtime.t :=
  {| Extractor.Runtime.inherited := fun receiver holder k =>
       match holder with
       | JObj _ =>
           if String.eqb k "constructor" then Some (Extractor.Native "Object")
           else if String.eqb k "__proto__"
           then Some (Extractor.Native "Object.prototype")
           else if Str.mem k Object_prototype
           then Some (Extractor.Native ("Object.prototype." ++ k))
           else Some (Extractor.Data JUndefined)
       | _ => Some (Extractor.Data JUndefined)
       end;
     Extractor.Runtime.native_get := fun native k =>
       if String.eqb native "Object" && String.eqb k "name"
       then Some (Extractor.Data (JStr "Object"))
       else Some (Extractor.Data JUndefined);
     Extractor.Runtime.native_isArray := fun native => false;
     Extractor.Runtime.native_slot := fun native k => Free;
     Extractor.Runtime.index_key := Str.of_nat |}.

Definition hook : Config.t :=
  {| Config.url := "https://api.example.com/hook";
     Config.method := "get";
     Config.headers := JUndefined;
     Config.body := JObj [("a", JStr "{{x}}"); ("b", JNum 2)];
     Config.params := JObj [("a", JStr "old"); ("c", JStr "keep")] |}.

Definition context : value := JObj [("x", JStr "1")].

Definition max_retries (n : Z) : Overrides.t :=
  {| Overrides.maxRetries := Some n;
     Overrides.initialDelayMs := None;
     Overrides.maxDelayMs := None;
     Overrides.backoffMultiplier := None;
     Overrides.retryableStatusCodes := None;
     Overrides.retryableErrors := None |}.

Definition three_ms : Policy.t :=
  {| Policy.maxRetries := 3;
     Policy.initialDelayMs := 3;
     Policy.maxDelayMs := 10000;
     Policy.backoffMultiplier := 2;
     Policy.retryableStatusCodes := [503];
     Policy.retryableErrors := [] |}.

Definition executeWebhook (server : nat -> Request.t -> outcome * Z) :=
  Retry.executeWebhook URL_parse Handlebars_render JSON_parse JSON_stringify
    String_of server Math_random Math_pow.

Definition tagged : value :=
  JObj [("user", JObj [("tags", JArr [JStr "a"; JStr "b"])])].

Definition first_tag : Extractor.Mapping.t :=
  {| Extractor.Mapping.outputFieldName := "first_tag";
     Extractor.Mapping.jsonPath := Some "user.tags[0]" |}.

Definition nickname : Extractor.Mapping.t :=
  {| Extractor.Mapping.outputFieldName := "nick";
     Extractor.Mapping.jsonPath := Some "user.profile.nick" |}.

Definition maker : Extractor.Mapping.t :=
  {| Extractor.Mapping.outputFieldName := "maker";
     Extractor.Mapping.jsonPath := Some "constructor.name" |}.

End Sample.

(** * Further definitions *)

(** ** Dotted quads *)

Module Ipv4.
Import Regex.

(** the dotted-decimal literal of four octets *)
Definition dotted (a b c d : nat) : string :=
  Str.of_nat a ++ "." ++ Str.of_nat b ++ "." ++ Str.of_nat c ++ "." ++ Str.of_nat d.

(** the pattern matches within, or right at the end of, [prefix] *)
Definition hits (p : pattern) (prefix : string) : bool :=
  negb (to_end p)
  && (matched_within (ignore_case p) (body p) prefix
      || nullable (derivs (ignore_case p) prefix (body p))).

(** an octet in decimal: matched by [\d{1,3}] and left alone by
    [toLowerCase] *)
Definition octet_ok (n : nat) : bool :=
  match_all false Guard.octet (Str.of_nat n)
  && String.eqb (Str.toLowerCase (Str.of_nat n)) (Str.of_nat n).

(** nothing in the guard's lists can apply to a host that starts with
    [prefix]: every pattern is ruled out and no blocked hostname starts
    with it *)
Definition clear_of (prefix : string) : bool :=
  forallb (fun p => rules_out p prefix) Guard.BLOCKED_IP_PATTERNS
  && forallb (fun h => negb (String.prefix prefix h)) Guard.BLOCKED_HOSTNAMES.

(** some pattern already matches [prefix] *)
Definition caught (prefix : string) : bool :=
  existsb (fun p => hits p prefix) Guard.BLOCKED_IP_PATTERNS.

(** [prefix] is decided the way [expect] says *)
Definition decided (prefix : string) (expect : bool) : bool :=
  if expect then caught prefix else clear_of prefix.

Definition pre1 (a : nat) : string := Str.of_nat a ++ ".".
Definition pre2 (a b : nat) : string := Str.of_nat a ++ "." ++ Str.of_nat b ++ ".".
Definition pre3 (a b c : nat) : string :=
  Str.of_nat a ++ "." ++ Str.of_nat b ++ "." ++ Str.of_nat c ++ ".".

Definition between (lo hi n : nat) : bool := (lo <=? n)%nat && (n <=? hi)%nat.

(** second octets of 100.x.x.x that the carrier-grade NAT pattern lists:
    [6[4-9]|[7-9][0-9]|1[0-2][0-7]] *)
Definition cgnat_listed (b : nat) : bool :=
  between 64 99 b || between 100 107 b || between 110 117 b || between 120 127 b.

(** first octets that one pattern blocks whole *)
Definition whole_octets : list nat := [0; 10; 127; 224; 240; 255]%nat.

Definition mem_nat (n : nat) (l : list nat) : bool := existsb (Nat.eqb n) l.

(** The dotted quads that [BLOCKED_IP_PATTERNS] lists, read as numbers; the
    fourth octet never matters. *)
Definition listed (a b c : nat) : bool :=
  if mem_nat a whole_octets then true
  else if (a =? 100)%nat then cgnat_listed b
  else if (a =? 169)%nat then (b =? 254)%nat
  else if (a =? 172)%nat then between 16 31 b
  else if (a =? 192)%nat
       then (b =? 168)%nat || ((b =? 0)%nat && ((c =? 0)%nat || (c =? 2)%nat))
  else if (a =? 198)%nat then (b =? 51)%nat && (c =? 100)%nat
  else if (a =? 203)%nat then (b =? 0)%nat && (c =? 113)%nat
  else false.

(** first octets that some pattern looks further into *)
Definition split_octets : list nat := [100; 169; 172; 192; 198; 203]%nat.

(** no octet calls for a longer prefix *)
Definition nowhere (n : nat) : bool := false.

(** a URL parser that answers every string with [p] *)
Definition answering (p : Guard.ParsedUrl) (s : string) : option Guard.ParsedUrl :=
  Some p.

End Ipv4.

(** ** Outcomes of an attempt, as the retry loop reads them *)

Module Flow.
Import Js Http Executor Retry.

(** the attempt succeeded: a response with a status in [200, 300) *)
Definition successful (o : outcome) : bool :=
  match o with
  | Responded response =>
      (200 <=? Response.status response)%Z && (Response.status response <? 300)%Z
  | Threw _ => false
  end.

(** [isRetryable] says yes to the result of the attempt *)
Definition retryable (retry : Policy.t) (o : outcome) : bool :=
  match o with
  | Responded response =>
      negb (Response.status response =? 0)%Z
      && existsb (Z.eqb (Response.status response)) (Policy.retryableStatusCodes retry)
  | Threw err =>
      match Failure.code err with
      | Some c => Str.mem c (Policy.retryableErrors retry) || String.eqb c "ECONNABORTED"
      | None => false
      end
      || Str.includes "timeout" (Failure.message err)
  end.

Inductive verdict : Type := Succeeds | Retries | Stops.

Definition verdict_of (retry : Policy.t) (o : outcome) : verdict :=
  if successful o then Succeeds
  else if retryable retry o then Retries
  else Stops.

(** the delay [calculateBackoffDelay] returns for a capped delay and a
    jitter draw *)
Definition jittered (cap u : float) : float :=
  Math_round (cap + cap * 0.25 * (u * 2 - 1))%float.

Section WithRandom.

Variable Math_random : nat -> float.
Variable Math_pow : float -> float -> float.

(** the delay computed at exponent [attempt] with the draw number [draw] *)
Definition delay_for (retry : Policy.t) (attempt : Z) (draw : nat) : float :=
  jittered (cappedDelay Math_pow attempt retry) (Math_random draw).

(** the timers of [m] iterations of the loop from index [a] on, the draw
    counter standing at [d] *)
Fixpoint waits (retry : Policy.t) (a m d : nat) : list float :=
  match m with
  | O => []
  | S m' =>
      if (0 <? Z.of_nat a)%Z
      then delay_for retry (Z.of_nat a - 1) d :: waits retry (S a) m' (S d)
      else waits retry (S a) m' d
  end.

End WithRandom.

(** attempt records numbered from [first] on *)
Fixpoint numbered (first : Z) (l : list Attempt.t) : Prop :=
  match l with
  | [] => True
  | r :: rest => Attempt.attempt r = first /\ numbered (first + 1) rest
  end.

(** the last record of [l] is the record of [result] *)
Definition mirrors (l : list Attempt.t) (result : Result.t) : Prop :=
  exists before r,
    l = (before ++ [r])%list
    /\ Attempt.status r = Result.status result
    /\ Attempt.httpStatusCode r = Result.httpStatusCode result
    /\ Attempt.executionTimeMs r = Result.executionTimeMs result
    /\ Attempt.errorMessage r = Result.errorMessage result.

(** a destination that answers 503 to its first [failures] requests and
    200 from then on *)
Definition recovering (failures : nat) (n : nat) (request : Request.t) : outcome * Z :=
  (Responded {| Response.status := if (n <? failures)%nat then 503 else 200;
                Response.data := JStr "ok";
                Response.headers := JObj [] |}, 5).

End Flow.

(** ** Values by kind *)

Module Kind.
Import Js.

(** neither an array nor an object *)
Definition flat (v : value) : bool :=
  match v with
  | JArr _ | JObj _ | JObjP _ _ => false
  | _ => true
  end.

(** an object, with the prototype an object literal gives or another *)
Definition object (v : value) : bool :=
  match v with
  | JObj _ | JObjP _ _ => true
  | _ => false
  end.

(** an object whose prototype was replaced *)
Definition reparented (v : value) : bool :=
  match v with
  | JObjP _ _ => true
  | _ => false
  end.

(** a property whose key is not [__proto__] *)
Definition ordinary (kv : string * value) : bool :=
  negb (String.eqb (fst kv) "__proto__").

Section WithHandlebars.

Variable Handlebars_render : string -> value -> option string.

(** what [processObjectTemplates] stores under a key of an object *)
Definition rendered_field (context : value) (v : value) : value :=
  match v with
  | JStr s => JStr (Template.processTemplate Handlebars_render s context)
  | JNull | JArr _ | JObj _ | JObjP _ _ =>
      Template.processObjectTemplates Handlebars_render v context
  | other => other
  end.

(** the caller's headers, rendered; none when [config.headers] is falsy *)
Definition caller_headers (config : Executor.Config.t) (context : value) : value :=
  if truthy (Executor.Config.headers config)
  then Template.processObjectTemplates Handlebars_render
         (Executor.Config.headers config) context
  else JObj [].

End WithHandlebars.

(** the text a response body is logged as, before it is cut *)
Definition response_text (JSON_stringify String_of : value -> string)
    (responseData : value) : string :=
  if is_object responseData then JSON_stringify responseData
  else String_of responseData.

(** the response body as returned: a string is decoded when it parses *)
Definition decoded (JSON_parse : string -> option value) (raw : value) : value :=
  match raw with
  | JStr s => match JSON_parse s with Some parsed => parsed | None => JStr s end
  | other => other
  end.

(** the default headers of a request *)
Definition default_headers : fields_t :=
  [("Content-Type", JStr "application/json"); ("User-Agent", JStr "CodeFlow/1.0")].

End Kind.

(** ** The webhook action route (routes/actions.js)

    The retry configuration the route hands to [executeWebhook]. The input
    fields are strings, or absent. *)

Module Route.
Import Js Retry.

(** the white space [parseInt] skips, within ASCII *)
Definition is_space (c : ascii) : bool :=
  existsb (Nat.eqb (Str.code c)) [32; 9; 10; 11; 12; 13]%nat.

Fixpoint trim_start (s : string) : string :=
  match s with
  | EmptyString => s
  | String c t => if is_space c then trim_start t else s
  end.

Fixpoint digits_Z (acc : Z) (s : string) : Z :=
  match s with
  | EmptyString => acc
  | String c t => digits_Z (10 * acc + Z.of_nat (Str.code c - 48)) t
  end.

(** [parseInt(s, 10)] of a string: white space, an optional sign, then the
    longest run of decimal digits; [None] is NaN *)
Definition parseInt (s : string) : option Z :=
  let s := trim_start s in
  let '(negative, s) :=
    match s with
    | String c t =>
        if Ascii.eqb c "-" then (true, t)
        else if Ascii.eqb c "+" then (false, t)
        else (false, s)
    | EmptyString => (false, s)
    end in
  let (digits, _) := Extractor.span Str.is_digit s in
  if String.eqb digits EmptyString then None
  else Some (if negative then - digits_Z 0 digits else digits_Z 0 digits).

(** [parseInt(x, 10) || fallback] for a field that is a string or absent *)
Definition int_or (x : option string) (fallback : Z) : Z :=
  match x with
  | None => fallback
  | Some s =>
      match parseInt s with
      | None => fallback
      | Some n => if (n =? 0)%Z then fallback else n
      end
  end.

(** [a || b] on fields that are strings or absent *)
Definition first_truthy (a b : option string) : option string :=
  match a with
  | Some s => if String.eqb s EmptyString then b else a
  | None => b
  end.

Module Inputs.
(** the fields of [inputFields] that the retry configuration reads;
    [retryEnabled] is [JUndefined] when absent *)
Record t : Type := {
  retryEnabled : value;
  maxRetries : option string;
  initialDelayMs : option string;
  retryDelayMs : option string;
  maxDelayMs : option string
}.
End Inputs.

(** a destructuring default: [field = fallback] *)
Definition defaulted (field : option string) (fallback : string) : option string :=
  match field with
  | None => Some fallback
  | given => given
  end.

(** [retryEnabled === true || retryEnabled === 'true'], after the default
    ['true'] *)
Definition isRetryEnabled (inputs : Inputs.t) : bool :=
  match Inputs.retryEnabled inputs with
  | JUndefined => true
  | JBool flag => flag
  | JStr s => String.eqb s "true"
  | _ => false
  end.

(** the [retryConfig] of the webhook action *)
Definition webhookRetryConfig (inputs : Inputs.t) : Overrides.t :=
  if isRetryEnabled inputs
  then {| Overrides.maxRetries :=
            Some (int_or (defaulted (Inputs.maxRetries inputs) "3") 3);
          Overrides.initialDelayMs :=
            Some (Double.of_Z (int_or (first_truthy (Inputs.retryDelayMs inputs)
                                                    (Inputs.initialDelayMs inputs)) 1000));
          Overrides.maxDelayMs :=
            Some (Double.of_Z (int_or (defaulted (Inputs.maxDelayMs inputs) "10000") 10000));
          Overrides.backoffMultiplier := Some 2%float;
          Overrides.retryableStatusCodes := None;
          Overrides.retryableErrors := None |}
  else {| Overrides.maxRetries := Some 0;
          Overrides.initialDelayMs := None;
          Overrides.maxDelayMs := None;
          Overrides.backoffMultiplier := None;
          Overrides.retryableStatusCodes := None;
          Overrides.retryableErrors := None |}.

(** input fields as HubSpot sends them: all absent but [maxRetries] *)
Definition only_maxRetries (s : string) : Inputs.t :=
  {| Inputs.retryEnabled := JUndefined;
     Inputs.maxRetries := Some s;
     Inputs.initialDelayMs := None;
     Inputs.retryDelayMs := None;
     Inputs.maxDelayMs := None |}.

Definition retry_off : Inputs.t :=
  {| Inputs.retryEnabled := JStr "false";
     Inputs.maxRetries := Some "5";
     Inputs.initialDelayMs := None;
     Inputs.retryDelayMs := None;
     Inputs.maxDelayMs := None |}.

End Route.

Module Names.
(** the output names of a list of mappings *)
Definition names (mappings : list Extractor.Mapping.t) : list string :=
  map Extractor.Mapping.outputFieldName mappings.
End Names.


(** * Properties *)

(** ** Regular expressions *)

Module RegexFacts.
Import Regex.

Example split_examples :
  Str.split "." "user.tags[0]" = ["user"; "tags[0]"]
  /\ Str.split "." "a..b." = ["a"; EmptyString; "b"; EmptyString]
  /\ Str.split "." EmptyString = [EmptyString].
Proof. repeat split. Qed.

Example ipv4_pattern_examples :
  map (test Guard.ipv4_pattern)
      ["10.0.0.8"; "255.255.255.255"; "999.1.1.1"; "1.2.3"; "1.2.3.4.5";
       "1000.1.1.1"; "a.b.c.d"; "1.2.3.4 "]
  = [true; true; true; false; false; false; false; false].
Proof. vm_compute. reflexivity. Qed.

Lemma void_not_nullable r : void r = true -> nullable r = false.
Proof.
  induction r; cbn; intro H; try discriminate; try reflexivity.
  - apply orb_prop in H as [H | H]; [rewrite (IHr1 H) | rewrite (IHr2 H)];
      [reflexivity | apply andb_false_r].
  - apply andb_prop in H as [H1 H2]. now rewrite (IHr1 H1), (IHr2 H2).
Qed.

Lemma void_deriv icase x r : void r = true -> void (deriv icase x r) = true.
Proof.
  induction r; cbn; intro H; try discriminate; try reflexivity.
  - apply orb_prop in H as [H | H].
    + rewrite (void_not_nullable _ H). cbn. now rewrite (IHr1 H).
    + destruct (nullable r1); cbn; rewrite ?(IHr2 H), H; cbn;
        now rewrite ?orb_true_r.
  - apply andb_prop in H as [H1 H2]. now rewrite (IHr1 H1), (IHr2 H2).
Qed.

Lemma match_prefix_void icase s : forall r,
  void r = true -> match_prefix icase r s = false.
Proof.
  induction s as [|x t IH]; intros r H; cbn [match_prefix];
    rewrite (void_not_nullable _ H); cbn [orb].
  - reflexivity.
  - apply IH. now apply void_deriv.
Qed.

Lemma match_all_void icase s : forall r,
  void r = true -> match_all icase r s = false.
Proof.
  induction s as [|x t IH]; intros r H; cbn [match_all].
  - now apply void_not_nullable.
  - apply IH. now apply void_deriv.
Qed.

Lemma match_all_app icase prefix : forall r rest,
  match_all icase r (prefix ++ rest) = match_all icase (derivs icase prefix r) rest.
Proof.
  induction prefix as [|x t IH]; intros r rest; cbn; [reflexivity | apply IH].
Qed.

Lemma match_prefix_app icase prefix : forall r rest,
  match_prefix icase r (prefix ++ rest)
  = matched_within icase r prefix || match_prefix icase (derivs icase prefix r) rest.
Proof.
  induction prefix as [|x t IH]; intros r rest.
  - reflexivity.
  - change (String x t ++ rest) with (String x (t ++ rest)).
    cbn [match_prefix matched_within derivs]. rewrite IH. apply orb_assoc.
Qed.

(** a pattern that rules a prefix out fails on every string that has it *)
Lemma rules_out_test p prefix rest :
  rules_out p prefix = true -> test p (prefix ++ rest) = false.
Proof.
  unfold rules_out, test. destruct (to_end p); intro H.
  - rewrite match_all_app. now apply match_all_void.
  - apply andb_prop in H as [Hw Hv]. apply negb_true_iff in Hw.
    rewrite match_prefix_app, Hw. cbn [orb]. now apply match_prefix_void.
Qed.

End RegexFacts.


(** ** URL guard *)

Module GuardFacts.
Import Guard Regex.

Lemma nonempty_eqb (s : string) : s <> EmptyString -> String.eqb s EmptyString = false.
Proof. intro H. now apply String.eqb_neq. Qed.

(** Once the URL parses to an http(s) URL without credentials, the verdict
    is decided by the lower-cased hostname alone. *)
Lemma verdict_by_hostname URL_parse url p :
  url <> EmptyString ->
  URL_parse url = Some p ->
  protocol p = "http:" \/ protocol p = "https:" ->
  username p = EmptyString ->
  password p = EmptyString ->
  valid (validateWebhookUrl URL_parse url)
  = let hostname := Str.toLowerCase (hostname p) in
    negb (Str.mem hostname BLOCKED_HOSTNAMES
          || Regex.test ipv4_pattern hostname && in_blocked_range hostname
          || (Str.startsWith "[" hostname || Str.includes ":" hostname)
             && in_blocked_range hostname).
Proof.
  intros Hne Hp Hproto Hu Hpw. unfold validateWebhookUrl.
  rewrite (nonempty_eqb _ Hne), Hp, Hu, Hpw.
  assert (Hm : Str.mem (protocol p) ["http:"; "https:"] = true)
    by (destruct Hproto as [-> | ->]; reflexivity).
  rewrite Hm. cbn [negb].
  cbv zeta.
  destruct (Str.mem _ BLOCKED_HOSTNAMES); [reflexivity|].
  destruct (Regex.test ipv4_pattern _ && in_blocked_range _); [reflexivity|].
  destruct ((Str.startsWith "[" _ || Str.includes ":" _) && in_blocked_range _);
    reflexivity.
Qed.

Lemma in_blocked_range_ruled_out prefix rest :
  forallb (fun p => rules_out p prefix) BLOCKED_IP_PATTERNS = true ->
  in_blocked_range (prefix ++ rest) = false.
Proof.
  unfold in_blocked_range. induction BLOCKED_IP_PATTERNS as [|p ps IH]; cbn.
  - reflexivity.
  - intro H. apply andb_prop in H as [Hp Hps].
    now rewrite (RegexFacts.rules_out_test _ _ _ Hp), (IH Hps).
Qed.

Lemma toLowerCase_app a b :
  Str.toLowerCase (a ++ b) = Str.toLowerCase a ++ Str.toLowerCase b.
Proof. unfold Str.toLowerCase. induction a; cbn; congruence. Qed.

Lemma not_listed_unlisted prefix rest :
  In prefix unlisted_ipv4_prefixes ->
  Str.mem (prefix ++ rest) BLOCKED_HOSTNAMES = false.
Proof.
  intro Hin. cbn in Hin.
  repeat (destruct Hin as [<- | Hin]; [reflexivity|]). contradiction.
Qed.

Lemma unlisted_prefix_lower prefix :
  In prefix unlisted_ipv4_prefixes -> Str.toLowerCase prefix = prefix.
Proof.
  intro Hin. cbn in Hin.
  repeat (destruct Hin as [<- | Hin]; [reflexivity|]). contradiction.
Qed.

Lemma unlisted_prefix_ruled_out prefix :
  In prefix unlisted_ipv4_prefixes ->
  forallb (fun p => rules_out p prefix) BLOCKED_IP_PATTERNS = true.
Proof.
  intro Hin. cbn in Hin.
  repeat (destruct Hin as [<- | Hin]; [vm_compute; reflexivity|]). contradiction.
Qed.

Lemma accepted_of_valid URL_parse url :
  valid (validateWebhookUrl URL_parse url) = true ->
  validateWebhookUrl URL_parse url = accepted.
Proof.
  unfold validateWebhookUrl.
  repeat match goal with
         | |- context [if ?c then _ else _] => destruct c
         | |- context [match ?c with Some _ => _ | None => _ end] => destruct c
         end; cbn; congruence.
Qed.

(** C1, at the inputs where it fails: an http(s) URL whose host starts with
    one of the leading octets of [unlisted_ipv4_prefixes], so every dotted
    quad in 100.108.0.0/15, 100.118.0.0/15 (carrier-grade NAT),
    225.0.0.0 - 239.255.255.255 (multicast) and 241.0.0.0 - 254.255.255.255
    (reserved), is accepted by [validateWebhookUrl]. *)
Theorem validateWebhookUrl_accepts_unlisted_ipv4 URL_parse url p prefix rest :
  url <> EmptyString ->
  URL_parse url = Some p ->
  protocol p = "http:" \/ protocol p = "https:" ->
  username p = EmptyString ->
  password p = EmptyString ->
  In prefix unlisted_ipv4_prefixes ->
  hostname p = prefix ++ rest ->
  validateWebhookUrl URL_parse url = accepted.
Proof.
  intros Hne Hp Hproto Hu Hpw Hin Hhost.
  apply accepted_of_valid.
  rewrite (verdict_by_hostname _ _ _ Hne Hp Hproto Hu Hpw).
  cbv zeta. rewrite Hhost, toLowerCase_app, (unlisted_prefix_lower _ Hin).
  rewrite (not_listed_unlisted _ _ Hin).
  rewrite (in_blocked_range_ruled_out _ _ (unlisted_prefix_ruled_out _ Hin)).
  now rewrite !andb_false_r.
Qed.

(** C3, at the inputs where it fails: an http(s) URL whose host is a
    bracketed literal, as [URL.hostname] gives every IPv6 address, is
    accepted by [validateWebhookUrl] unless it is [[::1]]; so is every
    unique-local (fc00::/7) and link-local (fe80::/10) literal. *)
Theorem validateWebhookUrl_accepts_bracketed_ipv6 URL_parse url p rest :
  url <> EmptyString ->
  URL_parse url = Some p ->
  protocol p = "http:" \/ protocol p = "https:" ->
  username p = EmptyString ->
  password p = EmptyString ->
  hostname p = "[" ++ rest ->
  Str.toLowerCase rest <> "::1]" ->
  validateWebhookUrl URL_parse url = accepted.
Proof.
  intros Hne Hp Hproto Hu Hpw Hhost Hnot.
  apply accepted_of_valid.
  rewrite (verdict_by_hostname _ _ _ Hne Hp Hproto Hu Hpw).
  cbv zeta. rewrite Hhost, toLowerCase_app.
  change (Str.toLowerCase "[") with "[".
  rewrite (in_blocked_range_ruled_out "[" _ eq_refl).
  assert (Hmem : Str.mem ("[" ++ Str.toLowerCase rest) BLOCKED_HOSTNAMES = false).
  { cbn. apply String.eqb_neq in Hnot. rewrite Hnot. reflexivity. }
  rewrite Hmem. now rewrite !andb_false_r.
Qed.

Lemma validateWebhookUrl_accepts_unlisted_ipv4_witness :
  validateWebhookUrl Sample.URL_parse "http://100.108.0.1/" = accepted.
Proof.
  apply (validateWebhookUrl_accepts_unlisted_ipv4 Sample.URL_parse
           "http://100.108.0.1/" (Sample.http_host "100.108.0.1") "100.108." "0.1").
  - discriminate.
  - reflexivity.
  - left; reflexivity.
  - reflexivity.
  - reflexivity.
  - simpl; tauto.
  - reflexivity.
Defined.

Lemma validateWebhookUrl_accepts_bracketed_ipv6_witness :
  validateWebhookUrl Sample.URL_parse "http://[fd00::1]/" = accepted.
Proof.
  apply (validateWebhookUrl_accepts_bracketed_ipv6 Sample.URL_parse
           "http://[fd00::1]/" (Sample.http_host "[fd00::1]") "fd00::1]").
  - discriminate.
  - reflexivity.
  - left; reflexivity.
  - reflexivity.
  - reflexivity.
  - reflexivity.
  - discriminate.
Defined.

(** what the guard does stop, on a few hosts *)
Example validateWebhookUrl_rejects_private :
  valid (validateWebhookUrl Sample.URL_parse "http://10.0.0.8/") = false
  /\ map in_blocked_range
       ["127.8.8.8"; "172.16.0.1"; "172.31.255.1"; "172.32.0.1"; "192.168.1.1";
        "169.254.1.1"; "100.64.0.1"; "100.127.0.1"; "100.128.0.1"; "224.0.0.1";
        "240.0.0.1"; "255.255.255.255"; "8.8.8.8"; "::1"; "fc00::1"; "FE80::1"]
     = [true; true; true; false; true; true; true; true; false; true; true; true;
        false; true; true; true].
Proof. split; vm_compute; reflexivity. Qed.

End GuardFacts.


(** ** Single-attempt executor *)

Module ExecutorFacts.
Import Js Http Executor.

Section WithLibraries.

Variable URL_parse : string -> option Guard.ParsedUrl.
Variable Handlebars_render : string -> value -> option string.
Variable JSON_parse : string -> option value.
Variable JSON_stringify : value -> string.
Variable String_of : value -> string.
Variable axios : nat -> Request.t -> outcome * Z.

Local Notation executeSingleRequest :=
  (Executor.executeSingleRequest URL_parse Handlebars_render JSON_parse
     JSON_stringify String_of axios).
Local Notation build_request :=
  (Executor.build_request Handlebars_render JSON_parse).
Local Notation goes_out := (Executor.goes_out URL_parse Handlebars_render).

Ltac run_single :=
  unfold Executor.executeSingleRequest, bind, ret, Date_now, await_axios; cbn [fst snd].

Lemma goes_out_guard config context skipValidation :
  goes_out config context skipValidation ->
  negb skipValidation
  && negb (Guard.valid (Guard.validateWebhookUrl URL_parse
             (Template.processTemplate Handlebars_render (Config.url config) context)))
  = false.
Proof.
  intros [-> | ->]; [reflexivity | now rewrite andb_false_r].
Qed.

(** a request that goes out is logged, once, as built *)
Lemma executeSingleRequest_requests config context timeout skipValidation w :
  goes_out config context skipValidation ->
  requests (snd (executeSingleRequest config context timeout skipValidation w))
  = (requests w ++ [build_request config context timeout])%list.
Proof.
  intro Hgo. run_single. rewrite (goes_out_guard _ _ _ Hgo).
  destruct (axios _ _) as [[response | err] elapsed]; cbn.
  - reflexivity.
  - destruct (_ || _); reflexivity.
Qed.

(** what an HTTP response of any status is turned into *)
Lemma executeSingleRequest_responded config context timeout skipValidation w response elapsed :
  goes_out config context skipValidation ->
  axios (List.length (requests w)) (build_request config context timeout)
  = (Responded response, elapsed) ->
  let result := fst (executeSingleRequest config context timeout skipValidation w) in
  Result.success result
  = (200 <=? Response.status response)%Z && (Response.status response <? 300)%Z
  /\ Result.status result = (if Result.success result then success_ else error_)
  /\ Result.httpStatusCode result = Some (Response.status response)
  /\ Result.error result = None.
Proof.
  intros Hgo Hax. run_single. rewrite (goes_out_guard _ _ _ Hgo), Hax. cbn.
  repeat split.
Qed.

(** what a rejection of the axios promise is turned into *)
Lemma executeSingleRequest_threw config context timeout skipValidation w err elapsed :
  goes_out config context skipValidation ->
  axios (List.length (requests w)) (build_request config context timeout)
  = (Threw err, elapsed) ->
  let result := fst (executeSingleRequest config context timeout skipValidation w) in
  Result.success result = false
  /\ Result.status result
     = (if match Failure.code err with
            | Some c => String.eqb c "ECONNABORTED"
            | None => false
            end || Str.includes "timeout" (Failure.message err)
        then timeout_ else error_)
  /\ Result.httpStatusCode result = None
  /\ Result.error result = Some err.
Proof.
  intros Hgo Hax. run_single. rewrite (goes_out_guard _ _ _ Hgo), Hax. cbn.
  destruct (_ || _); repeat split.
Qed.

(** C5: whatever the status code of the HTTP response, the single-attempt
    executor returns a result: [success] is true and [status] is 'success'
    exactly when the code is in [200, 300), and [status] is 'error' for
    every other code; a rejection that is a client-side timeout or abort
    (code ECONNABORTED, or a message mentioning a timeout) gives status
    'timeout'. *)
Theorem executeSingleRequest_classification
    config context timeout skipValidation w :
  goes_out config context skipValidation ->
  let result := fst (executeSingleRequest config context timeout skipValidation w) in
  let settled :=
    fst (axios (List.length (requests w)) (build_request config context timeout)) in
  (forall response, settled = Responded response ->
     let code := Response.status response in
     (Result.success result = true <-> (200 <= code < 300)%Z)
     /\ (Result.status result = success_ <-> (200 <= code < 300)%Z)
     /\ (~ (200 <= code < 300)%Z -> Result.status result = error_)
     /\ Result.httpStatusCode result = Some code)
  /\ (forall err, settled = Threw err ->
        Failure.code err = Some "ECONNABORTED"
        \/ Str.includes "timeout" (Failure.message err) = true ->
        Result.status result = timeout_ /\ Result.success result = false).
Proof.
  intros Hgo result settled. subst result settled.
  destruct (axios _ _) as [o elapsed] eqn:Hax. cbn [fst]. split.
  - intros response ->.
    destruct (executeSingleRequest_responded _ _ _ _ _ _ _ Hgo Hax)
      as (Hs & Hst & Hc & _).
    cbv zeta in *. rewrite Hst, Hs, Hc.
    destruct (200 <=? Response.status response)%Z eqn:H1;
      destruct (Response.status response <? 300)%Z eqn:H2; cbn;
      rewrite ?Z.leb_le, ?Z.leb_gt, ?Z.ltb_lt, ?Z.ltb_ge in *;
      repeat split; intros; try reflexivity; try discriminate; try lia.
  - intros err -> Hto.
    destruct (executeSingleRequest_threw _ _ _ _ _ _ _ Hgo Hax)
      as (Hs & Hst & _).
    cbv zeta in *. rewrite Hst, Hs. split; [|reflexivity].
    destruct Hto as [-> | ->]; [reflexivity | now rewrite orb_true_r].
Qed.

End WithLibraries.

Lemma executeSingleRequest_classification_witness :
  let result :=
    fst (Executor.executeSingleRequest Sample.URL_parse Sample.Handlebars_render
           Sample.JSON_parse Sample.JSON_stringify Sample.String_of
           (Sample.always 503) Sample.hook Sample.context 30000 true (initial 0)) in
  Result.status result = error_ /\ Result.httpStatusCode result = Some 503%Z.
Proof.
  pose proof (executeSingleRequest_classification Sample.URL_parse
                Sample.Handlebars_render Sample.JSON_parse Sample.JSON_stringify
                Sample.String_of (Sample.always 503) Sample.hook Sample.context
                30000 true (initial 0) (or_introl eq_refl)) as [H _].
  destruct (H _ eq_refl) as (_ & _ & Herr & Hcode).
  split; [apply Herr; cbn; lia | exact Hcode].
Defined.

End ExecutorFacts.


(** ** Numbers: rounding to the format *)

Module RoundingFacts.
Import Double.

Local Open Scope Z_scope.


Section Format.

Variables prec emax : Z.
Hypothesis prec_pos : 0 < prec.
Hypothesis prec_emax : prec < emax.

Local Notation emin := (SpecFloat.emin prec emax).
Local Notation fexp := (SpecFloat.fexp prec emax).
Local Notation rounded := (Double.rounded prec emax).

Lemma digits2_log2 m : Zpos (digits2_pos m) = Z.log2 (Zpos m) + 1.
Proof.
  induction m as [m IH|m IH|]; cbn [digits2_pos].
  - rewrite Pos2Z.inj_succ, IH. destruct m; cbn; lia.
  - rewrite Pos2Z.inj_succ, IH. destruct m; cbn; lia.
  - reflexivity.
Qed.

Lemma digits_bounds m :
  2 ^ Z.log2 (Zpos m) <= Zpos m < 2 ^ (Z.log2 (Zpos m) + 1).
Proof.
  pose proof (Z.log2_spec (Zpos m) ltac:(lia)) as H.
  replace (Z.log2 (Zpos m) + 1) with (Z.succ (Z.log2 (Zpos m))) by lia. exact H.
Qed.

Lemma fexp_mono a b : a <= b -> fexp a <= fexp b.
Proof. unfold SpecFloat.fexp. lia. Qed.

Lemma fexp_emin a : emin <= fexp a.
Proof. unfold SpecFloat.fexp. lia. Qed.


Lemma shr_1_shifted m0 k mrs :
  0 <= m0 -> 0 <= k -> shifted m0 k mrs -> shifted m0 (k + 1) (shr_1 mrs).
Proof.
  intros Hm Hk [Hval Hexact].
  assert (Hpow : 0 < 2 ^ k) by (apply Z.pow_pos_nonneg; lia).
  assert (Hdiv : m0 / 2 ^ (k + 1) = m0 / 2 ^ k / 2).
  { rewrite Z.pow_add_r, Z.pow_1_r by lia. rewrite Z.div_div by lia. reflexivity. }
  assert (Hmod : m0 mod 2 ^ (k + 1) = 0 -> m0 mod 2 ^ k = 0 /\ (m0 / 2 ^ k) mod 2 = 0).
  { intro H. rewrite Z.pow_add_r, Z.pow_1_r in H by lia.
    apply Z.mod_divide in H; [|lia]. destruct H as [c Hc].
    split.
    - apply Z.mod_divide; [lia|]. exists (c * 2). lia.
    - replace m0 with (c * 2 * 2 ^ k) by lia.
      rewrite Z.div_mul by lia. apply Z.mod_mul. lia. }
  destruct mrs as [m r s]. cbn [shr_m shr_r shr_s] in *.
  assert (Hnn : 0 <= m) by (rewrite Hval; apply Z.div_pos; lia).
  unfold shifted. rewrite Hdiv, <- Hval.
  destruct m as [|[p|p|]|p]; try lia; cbn [shr_1 shr_m shr_r shr_s].
  - split; [reflexivity|]. intro H. apply Hmod in H as [H _].
    destruct (Hexact H) as [-> ->]. split; reflexivity.
  - split.
    + rewrite Pos2Z.inj_xI. apply Z.div_unique with (r := 1); lia.
    + intro H. apply Hmod in H as [_ H]. rewrite <- Hval in H.
      rewrite Pos2Z.inj_xI in H.
      replace (2 * Zpos p + 1) with (1 + Zpos p * 2) in H by lia.
      rewrite Z.mod_add in H by lia. discriminate.
  - split.
    + rewrite Pos2Z.inj_xO. apply Z.div_unique with (r := 0); lia.
    + intro H. apply Hmod in H as [H _].
      destruct (Hexact H) as [-> ->]. split; reflexivity.
  - split; [reflexivity|].
    intro H. apply Hmod in H as [_ H]. rewrite <- Hval in H. discriminate.
Qed.

Lemma iter_pos_shifted m0 p : forall k mrs,
  0 <= m0 -> 0 <= k -> shifted m0 k mrs ->
  shifted m0 (k + Zpos p) (iter_pos shr_1 p mrs).
Proof.
  induction p as [p IH|p IH|]; intros k mrs Hm Hk H; cbn [iter_pos].
  - replace (k + Zpos p~1) with (k + 1 + Zpos p + Zpos p) by lia.
    apply IH; [lia|lia|]. apply IH; [lia|lia|]. now apply shr_1_shifted.
  - replace (k + Zpos p~0) with (k + Zpos p + Zpos p) by lia.
    apply IH; [lia|lia|]. now apply IH.
  - now apply shr_1_shifted.
Qed.

Lemma shr_shifted m e n :
  0 <= m ->
  let '(mrs, e') := shr (shr_record_of_loc m loc_Exact) e n in
  e' = e + Z.max 0 n /\ shifted m (Z.max 0 n) mrs.
Proof.
  intro Hm.
  assert (H0 : shifted m 0 (shr_record_of_loc m loc_Exact)).
  { split; cbn; [now rewrite Z.div_1_r | auto]. }
  destruct n as [|p|p]; cbn [shr].
  - split; [lia | exact H0].
  - split; [lia|]. replace (Z.max 0 (Zpos p)) with (0 + Zpos p) by lia.
    apply iter_pos_shifted; [lia|lia|exact H0].
  - split; [lia | exact H0].
Qed.

Lemma round_nearest_even_bounds mrs :
  shr_m mrs <= round_nearest_even (shr_m mrs) (loc_of_shr_record mrs) <= shr_m mrs + 1
  /\ (shr_r mrs = false /\ shr_s mrs = false ->
      round_nearest_even (shr_m mrs) (loc_of_shr_record mrs) = shr_m mrs).
Proof.
  destruct mrs as [m [|] [|]]; cbn; try destruct (Z.even m); split; try lia;
    intros [H1 H2]; discriminate.
Qed.


Lemma binary_round_aux_spec s m e :
  let e' := fexp (Z.log2 (Zpos m) + 1 + e) in
  e <= e' ->
  exists m'',
    Zpos m / 2 ^ (e' - e) <= m'' <= Zpos m / 2 ^ (e' - e) + 1
    /\ (Zpos m mod 2 ^ (e' - e) = 0 -> m'' = Zpos m / 2 ^ (e' - e))
    /\ m'' <= 2 ^ prec
    /\ (e' = emin \/ 2 ^ (prec - 1) <= m'')
    /\ binary_round_aux prec emax s (Zpos m) e loc_Exact = rounded s m'' e'.
Proof.
  intros e' He.
  unfold binary_round_aux, shr_fexp.
  cbn [Zdigits2]. rewrite digits2_log2. fold e'.
  pose proof (shr_shifted (Zpos m) e (e' - e) ltac:(lia)) as H1.
  destruct (shr (shr_record_of_loc (Zpos m) loc_Exact) e (e' - e)) as [mrs1 e1].
  destruct H1 as [He1 [Hval Hexact]].
  replace (Z.max 0 (e' - e)) with (e' - e) in * by lia.
  replace e1 with e' in * by lia. clear He1 e1.
  set (n := e' - e) in *.
  set (m'' := round_nearest_even (shr_m mrs1) (loc_of_shr_record mrs1)).
  pose proof (round_nearest_even_bounds mrs1) as [Hb Hx]. fold m'' in Hb, Hx.
  rewrite Hval in Hb, Hx.
  assert (Hpn : 0 < 2 ^ n) by (apply Z.pow_pos_nonneg; lia).
  assert (Hq : 0 <= Zpos m / 2 ^ n) by (apply Z.div_pos; lia).
  (* the size of the quotient *)
  pose proof (digits_bounds m) as [Hlo Hhi].
  set (d := Z.log2 (Zpos m) + 1) in *.
  assert (Hd : 1 <= d) by (pose proof (Z.log2_nonneg (Zpos m)); lia).
  assert (Hquot : Zpos m / 2 ^ n < 2 ^ prec
                  /\ (e' = emin \/ 2 ^ (prec - 1) <= Zpos m / 2 ^ n)).
  { unfold SpecFloat.fexp in e'.
    assert (Hcase : d + e - prec <= e') by (unfold e'; lia).
    split.
    - apply Z.div_lt_upper_bound; [lia|].
      rewrite <- Z.pow_add_r by lia.
      eapply Z.lt_le_trans; [exact Hhi|].
      apply Z.pow_le_mono_r; lia.
    - destruct (Z.eq_dec e' (SpecFloat.emin prec emax)) as [|Hne]; [now left|right].
      assert (He' : e' = d + e - prec) by (unfold e' in *; lia).
      apply Z.div_le_lower_bound; [lia|].
      rewrite <- Z.pow_add_r by lia.
      replace (n + (prec - 1)) with (d - 1) by (unfold n; lia).
      replace (d - 1) with (Z.log2 (Zpos m)) by (unfold d; lia). exact Hlo. }
  destruct Hquot as [Hlt Hge].
  exists m''. split; [exact Hb|]. split.
  { intro H. apply Hx. now apply Hexact. }
  split; [lia|]. split; [destruct Hge; [now left | right; lia]|].
  (* the second shift *)
  unfold Double.rounded.
  destruct (Z.eqb_spec m'' 0) as [Hz|Hnz].
  { rewrite Hz. cbn [Zdigits2]. cbn.
    destruct (fexp e' - e') as [|p|p]; cbn [shr]; try reflexivity.
    assert (H0 : forall q mrs, shr_m mrs = 0 -> shr_m (iter_pos shr_1 q mrs) = 0).
    { induction q as [q IH|q IH|]; intros [m0 r0 s0] Hm0; cbn [iter_pos];
        cbn [shr_m] in Hm0; subst m0.
      - apply IH, IH. reflexivity.
      - apply IH, IH. reflexivity.
      - reflexivity. }
    rewrite H0 by reflexivity. reflexivity. }
  assert (Hpos : 0 < m'') by lia.
  destruct m'' as [|pm|pm] eqn:Hm''; try lia.
  cbn [Zdigits2]. rewrite digits2_log2.
  assert (Hpp : 2 ^ (prec - 1) * 2 = 2 ^ prec).
  { replace prec with (prec - 1 + 1) at 2 by lia.
    rewrite Z.pow_add_r by lia. lia. }
  destruct (Z.eqb_spec (Zpos pm) (2 ^ prec)) as [Hcarry|Hnc].
  - (* the mantissa overflows into the next binade *)
    rewrite Hcarry, Z.log2_pow2 by lia.
    assert (Hn2 : fexp (prec + 1 + e') - e' = 1).
    { unfold SpecFloat.fexp. pose proof (fexp_emin (d + e)). fold e' in H. lia. }
    rewrite Hn2. cbn [shr iter_pos shr_record_of_loc].
    assert (H2 : 2 ^ prec = Zpos (xO (Z.to_pos (2 ^ (prec - 1))))).
    { rewrite (Pos2Z.inj_xO (Z.to_pos _)), Z2Pos.id; [lia|]. apply Z.pow_pos_nonneg; lia. }
    rewrite H2. cbn [shr_1 shr_m]. reflexivity.
  - assert (Hlog : Z.log2 (Zpos pm) + 1 <= prec).
    { assert (Zpos pm < 2 ^ prec) by lia.
      apply Z.log2_lt_pow2 in H; lia. }
    assert (Hn2 : fexp (Z.log2 (Zpos pm) + 1 + e') - e' <= 0).
    { unfold SpecFloat.fexp. pose proof (fexp_emin (d + e)). fold e' in H. lia. }
    destruct (fexp (Z.log2 (Zpos pm) + 1 + e') - e') as [|p|p] eqn:Hs; try lia;
      cbn [shr shr_record_of_loc shr_m]; rewrite Pos2Z.id; reflexivity.
Qed.

(** ** Values *)

Lemma two_pow_pos e : (0 < 2 ^ e)%Q.
Proof. apply Qpower_0_lt. reflexivity. Qed.

Lemma two_pow_add a b : (2 ^ (a + b) == 2 ^ a * 2 ^ b)%Q.
Proof. apply Qpower_plus. discriminate. Qed.

Lemma two_pow_Z n : 0 <= n -> (2 ^ n == inject_Z (2 ^ n))%Q.
Proof. intro H. symmetry. apply (Zpower_Qpower 2 n H). Qed.

(** comparing [a * 2^E] with [m * 2^e] on the finer of the two grids *)
Lemma dyadic_le a E m e :
  e <= E ->
  (inject_Z a * 2 ^ E <= inject_Z m * 2 ^ e)%Q <-> a * 2 ^ (E - e) <= m.
Proof.
  intro H.
  assert (Hs : (inject_Z a * 2 ^ E == inject_Z (a * 2 ^ (E - e)) * 2 ^ e)%Q).
  { rewrite inject_Z_mult, <- two_pow_Z by lia.
    replace E with ((E - e) + e) at 1 by lia. rewrite two_pow_add. ring. }
  rewrite Hs. pose proof (two_pow_pos e) as Hp. split; intro Hle.
  - rewrite Zle_Qle. apply Qmult_le_r in Hle; assumption.
  - apply Qmult_le_r; [assumption|]. now rewrite <- Zle_Qle.
Qed.

Lemma dyadic_ge a E m e :
  e <= E ->
  (inject_Z m * 2 ^ e <= inject_Z a * 2 ^ E)%Q <-> m <= a * 2 ^ (E - e).
Proof.
  intro H.
  assert (Hs : (inject_Z a * 2 ^ E == inject_Z (a * 2 ^ (E - e)) * 2 ^ e)%Q).
  { rewrite inject_Z_mult, <- two_pow_Z by lia.
    replace E with ((E - e) + e) at 1 by lia. rewrite two_pow_add. ring. }
  rewrite Hs. pose proof (two_pow_pos e) as Hp. split; intro Hle.
  - rewrite Zle_Qle. apply Qmult_le_r in Hle; assumption.
  - apply Qmult_le_r; [assumption|]. now rewrite <- Zle_Qle.
Qed.


Lemma pow_prec_split : 2 ^ (prec - 1) * 2 = 2 ^ prec.
Proof.
  replace prec with (prec - 1 + 1) at 2 by lia.
  rewrite Z.pow_add_r by lia. lia.
Qed.

Lemma rounded_value s m'' e' :
  0 <= m'' -> e' < emax - prec ->
  SFfinite (rounded s m'' e') = true
  /\ (SF2Q (rounded s m'' e') == inject_Z (cond_Zopp s m'') * 2 ^ e')%Q.
Proof.
  intros Hm He. unfold Double.rounded.
  destruct (Z.eqb_spec m'' 0) as [->|Hnz].
  { split; [reflexivity|]. destruct s; cbn; ring. }
  destruct (Z.eqb_spec m'' (2 ^ prec)) as [Hc|Hnc].
  - destruct (Z.leb_spec (e' + 1) (emax - prec)); [|lia].
    split; [reflexivity|]. cbn [SF2Q].
    assert (Hp : 0 < 2 ^ (prec - 1)) by (apply Z.pow_pos_nonneg; lia).
    rewrite two_pow_add.
    assert (Hz : cond_Zopp s (Zpos (Z.to_pos (2 ^ (prec - 1)))) * 2 = cond_Zopp s m'').
    { rewrite Z2Pos.id by lia. rewrite Hc, <- pow_prec_split.
      destruct s; cbn [cond_Zopp]; lia. }
    rewrite <- Hz, inject_Z_mult. change (2 ^ 1)%Q with 2%Q.
    change (inject_Z 2) with 2%Q. ring.
  - destruct (Z.leb_spec e' (emax - prec)); [|lia].
    split; [reflexivity|]. cbn [SF2Q]. rewrite Z2Pos.id by lia. reflexivity.
Qed.

Lemma rounded_valid s m'' e' :
  0 <= m'' <= 2 ^ prec -> emin <= e' ->
  e' = emin \/ 2 ^ (prec - 1) <= m'' ->
  SpecFloat.valid_binary prec emax (rounded s m'' e') = true.
Proof.
  intros Hm He Hn. unfold Double.rounded.
  destruct (Z.eqb_spec m'' 0) as [->|Hnz]; [reflexivity|].
  assert (Hp : 0 < 2 ^ (prec - 1)) by (apply Z.pow_pos_nonneg; lia).
  destruct (Z.eqb_spec m'' (2 ^ prec)) as [Hc|Hnc].
  - destruct (Z.leb_spec (e' + 1) (emax - prec)) as [Hle|]; [|reflexivity].
    cbn [SpecFloat.valid_binary]. unfold bounded, canonical_mantissa.
    rewrite digits2_log2, Z2Pos.id, Z.log2_pow2 by lia.
    apply andb_true_intro. split; [|now apply Z.leb_le].
    apply Z.eqb_eq. unfold SpecFloat.fexp. lia.
  - destruct (Z.leb_spec e' (emax - prec)) as [Hle|]; [|reflexivity].
    cbn [SpecFloat.valid_binary]. unfold bounded, canonical_mantissa.
    rewrite digits2_log2, Z2Pos.id by lia.
    apply andb_true_intro. split; [|now apply Z.leb_le].
    apply Z.eqb_eq.
    assert (Hlt : m'' < 2 ^ prec) by lia.
    apply Z.log2_lt_pow2 in Hlt; [|lia].
    destruct Hn as [Hn|Hn].
    + unfold SpecFloat.fexp. lia.
    + apply Z.log2_le_pow2 in Hn; [|lia]. unfold SpecFloat.fexp. lia.
Qed.

(** a quotient, or its successor when the division is not exact, stays
    between the multiples that enclose the dividend *)
Lemma quotient_between m n m'' :
  0 <= n ->
  m / 2 ^ n <= m'' <= m / 2 ^ n + 1 ->
  (m mod 2 ^ n = 0 -> m'' = m / 2 ^ n) ->
  (forall c, c * 2 ^ n <= m -> c <= m'') /\ (forall c, m <= c * 2 ^ n -> m'' <= c).
Proof.
  intros Hn Hb Hx.
  assert (Hp : 0 < 2 ^ n) by (apply Z.pow_pos_nonneg; lia).
  pose proof (Z.div_mod m (2 ^ n) ltac:(lia)) as Hdm.
  pose proof (Z.mod_pos_bound m (2 ^ n) Hp) as Hr.
  split; intros c Hc.
  - assert (c <= m / 2 ^ n) by (apply Z.div_le_lower_bound; lia). lia.
  - destruct (Z.eq_dec (m mod 2 ^ n) 0) as [Hz|Hnz].
    + rewrite (Hx Hz). apply Z.div_le_upper_bound; lia.
    + assert (m / 2 ^ n < c) by nia. lia.
Qed.

(** Rounding keeps a value between two numbers of the grid it is rounded
    to. *)
Lemma binary_round_aux_between s m e (A B : Q) a b E :
  let e' := fexp (Z.log2 (Zpos m) + 1 + e) in
  e <= e' -> e' <= E -> E < emax - prec ->
  (A == inject_Z a * 2 ^ E)%Q -> (B == inject_Z b * 2 ^ E)%Q ->
  (A <= inject_Z (cond_Zopp s (Zpos m)) * 2 ^ e <= B)%Q ->
  let r := binary_round_aux prec emax s (Zpos m) e loc_Exact in
  SFfinite r = true /\ SpecFloat.valid_binary prec emax r = true /\ (A <= SF2Q r <= B)%Q.
Proof.
  intros e' He HE Hmax HA HB [HAx HxB] r.
  destruct (binary_round_aux_spec s m e He) as (m'' & Hb & Hx & Hle & Hn & Hr).
  fold e' in Hb, Hx, Hn, Hr. subst r. rewrite Hr.
  assert (Hpn : 0 < 2 ^ (e' - e)) by (apply Z.pow_pos_nonneg; lia).
  assert (Hq : 0 <= Zpos m / 2 ^ (e' - e)) by (apply Z.div_pos; lia).
  destruct (rounded_value s m'' e' ltac:(lia) ltac:(lia)) as [Hfin Hval].
  split; [exact Hfin|]. split.
  { apply rounded_valid; [lia | apply fexp_emin | exact Hn]. }
  rewrite Hval, HA, HB. rewrite HA in HAx. rewrite HB in HxB.
  destruct (quotient_between (Zpos m) (e' - e) m'' ltac:(lia) Hb Hx) as [Hlow Hup].
  assert (Hsplit : forall c, c * 2 ^ (E - e') * 2 ^ (e' - e) = c * 2 ^ (E - e)).
  { intro c. rewrite <- Z.mul_assoc, <- Z.pow_add_r by lia. f_equal. f_equal. lia. }
  apply dyadic_le in HAx; [|lia]. apply dyadic_ge in HxB; [|lia].
  split.
  - apply dyadic_le; [lia|]. destruct s; cbn [cond_Zopp] in *.
    + assert (m'' <= - a * 2 ^ (E - e')).
      { apply Hup. rewrite Hsplit. lia. }
      lia.
    + apply Hlow. rewrite Hsplit. lia.
  - apply dyadic_ge; [lia|]. destruct s; cbn [cond_Zopp] in *.
    + assert (- b * 2 ^ (E - e') <= m'').
      { apply Hlow. rewrite Hsplit. lia. }
      lia.
    + apply Hup. rewrite Hsplit. lia.
Qed.

(** ** Alignment and normalisation *)

Lemma iter_xO m d : Zpos (Pos.iter xO m d) = Zpos m * 2 ^ Zpos d.
Proof.
  induction d as [|d IH] using Pos.peano_ind.
  - cbn [Pos.iter]. rewrite Pos2Z.inj_xO. change (2 ^ 1) with 2. lia.
  - rewrite Pos.iter_succ, Pos2Z.inj_xO, IH, Pos2Z.inj_succ, Z.pow_succ_r by lia. lia.
Qed.

Lemma shl_align_spec m e e0 :
  let '(mz, ez) := shl_align m e e0 in
  ez = Z.min e e0 /\ Zpos mz = Zpos m * 2 ^ (e - ez).
Proof.
  unfold shl_align. destruct (e0 - e) as [|d|d] eqn:Hd.
  - split; [lia|]. rewrite Z.sub_diag. lia.
  - split; [lia|]. rewrite Z.sub_diag. lia.
  - split; [lia|]. rewrite iter_xO. f_equal. f_equal. lia.
Qed.

Lemma cond_Zopp_mul s m k : cond_Zopp s (m * k) = cond_Zopp s m * k.
Proof. destruct s; cbn [cond_Zopp]; lia. Qed.

Lemma binary_round_between s m e (A B : Q) a b E :
  fexp (Z.log2 (Zpos m) + 1 + e) <= E -> E < emax - prec ->
  (A == inject_Z a * 2 ^ E)%Q -> (B == inject_Z b * 2 ^ E)%Q ->
  (A <= inject_Z (cond_Zopp s (Zpos m)) * 2 ^ e <= B)%Q ->
  let r := binary_round prec emax s m e in
  SFfinite r = true /\ SpecFloat.valid_binary prec emax r = true /\ (A <= SF2Q r <= B)%Q.
Proof.
  intros HE Hmax HA HB Hx. unfold binary_round. rewrite digits2_log2.
  pose proof (shl_align_spec m e (fexp (Z.log2 (Zpos m) + 1 + e))) as Hal.
  destruct (shl_align m e (fexp (Z.log2 (Zpos m) + 1 + e))) as [mz ez].
  destruct Hal as [Hez Hmz].
  assert (Hdig : Z.log2 (Zpos mz) + 1 + ez = Z.log2 (Zpos m) + 1 + e).
  { rewrite Hmz, Z.log2_mul_pow2 by lia. lia. }
  apply binary_round_aux_between with (a := a) (b := b) (E := E);
    rewrite ?Hdig; try assumption; try lia.
  assert (Hsame : (inject_Z (cond_Zopp s (Zpos mz)) * 2 ^ ez
                   == inject_Z (cond_Zopp s (Zpos m)) * 2 ^ e)%Q).
  { rewrite Hmz, cond_Zopp_mul, inject_Z_mult, <- two_pow_Z by lia.
    rewrite <- Qmult_assoc, <- two_pow_add.
    replace (e - ez + ez) with e by lia. reflexivity. }
  rewrite Hsame. exact Hx.
Qed.

Lemma binary_normalize_between x e (A B : Q) a b E :
  (x <> 0 -> fexp (Z.log2 (Z.abs x) + 1 + e) <= E) -> E < emax - prec ->
  (A == inject_Z a * 2 ^ E)%Q -> (B == inject_Z b * 2 ^ E)%Q ->
  (A <= inject_Z x * 2 ^ e <= B)%Q ->
  let r := binary_normalize prec emax x e false in
  SFfinite r = true /\ SpecFloat.valid_binary prec emax r = true /\ (A <= SF2Q r <= B)%Q.
Proof.
  intros HE Hmax HA HB Hx. destruct x as [|m|m]; cbn [binary_normalize].
  - split; [reflexivity|]. split; [reflexivity|]. cbn [SF2Q].
    rewrite Qmult_0_l in Hx. exact Hx.
  - apply binary_round_between with (a := a) (b := b) (E := E); try assumption.
    apply HE. discriminate.
  - apply binary_round_between with (a := a) (b := b) (E := E); try assumption.
    apply (HE ltac:(discriminate)).
Qed.

(** a value below [2^P] has at most [P] digits *)
Lemma magnitude_digits x e P :
  x <> 0 -> (Qabs (inject_Z x * 2 ^ e) < 2 ^ P)%Q -> Z.log2 (Z.abs x) + 1 + e <= P.
Proof.
  intros Hx Hlt.
  rewrite Qabs_Qmult, (Qabs_pos (2 ^ e)) in Hlt
    by (apply Qlt_le_weak, two_pow_pos).
  change (Qabs (inject_Z x)) with (inject_Z (Z.abs x)) in Hlt.
  pose proof (Z.log2_spec (Z.abs x) ltac:(lia)) as [Hlo _].
  pose proof (Z.log2_nonneg (Z.abs x)) as Hnn.
  assert (Hle : (2 ^ (Z.log2 (Z.abs x) + e) <= inject_Z (Z.abs x) * 2 ^ e)%Q).
  { rewrite two_pow_add, two_pow_Z by lia.
    apply Qmult_le_r; [apply two_pow_pos|]. now rewrite <- Zle_Qle. }
  assert (Hpp : (2 ^ (Z.log2 (Z.abs x) + e) < 2 ^ P)%Q)
    by (eapply Qle_lt_trans; eassumption).
  apply Qpower_lt_compat_l_inv in Hpp; [lia | reflexivity].
Qed.

(** ** The operations on finite numbers *)

Lemma valid_finite s m e :
  SpecFloat.valid_binary prec emax (S754_finite s m e) = true ->
  e = fexp (Z.log2 (Zpos m) + 1 + e) /\ e <= emax - prec.
Proof.
  cbn [SpecFloat.valid_binary]. unfold bounded, canonical_mantissa.
  rewrite digits2_log2. intro H. apply andb_prop in H as [H1 H2].
  apply Z.eqb_eq in H1. apply Z.leb_le in H2. split; [lia|exact H2].
Qed.

Lemma emin_neg : emin <= 0.
Proof. unfold SpecFloat.emin. lia. Qed.

Lemma SF2Q_zero s : SF2Q (S754_zero s) = 0%Q.
Proof. reflexivity. Qed.

Lemma SFmul_between x y (A B : Q) a b E P :
  SpecFloat.valid_binary prec emax x = true -> SpecFloat.valid_binary prec emax y = true ->
  SFfinite x = true -> SFfinite y = true ->
  (Qabs (SF2Q x * SF2Q y) < 2 ^ P)%Q -> fexp P <= E -> E < emax - prec ->
  (A == inject_Z a * 2 ^ E)%Q -> (B == inject_Z b * 2 ^ E)%Q ->
  (A <= SF2Q x * SF2Q y <= B)%Q ->
  let r := SFmul prec emax x y in
  SFfinite r = true /\ SpecFloat.valid_binary prec emax r = true /\ (A <= SF2Q r <= B)%Q.
Proof.
  intros Hvx Hvy Hfx Hfy Hmag HP Hmax HA HB Hx.
  destruct x as [sx|sx| |sx mx ex]; try discriminate;
    destruct y as [sy|sy| |sy my ey]; try discriminate; cbn [SFmul];
    try (split; [reflexivity|]; split; [reflexivity|];
         cbn [SF2Q] in *; rewrite ?Qmult_0_l, ?Qmult_0_r in Hx; exact Hx).
  apply valid_finite in Hvx as [Hcx _]. apply valid_finite in Hvy as [Hcy _].
  assert (Hval : (inject_Z (cond_Zopp (xorb sx sy) (Zpos (mx * my))) * 2 ^ (ex + ey)
                  == SF2Q (S754_finite sx mx ex) * SF2Q (S754_finite sy my ey))%Q).
  { cbn [SF2Q]. rewrite two_pow_add.
    assert (Hz : cond_Zopp (xorb sx sy) (Zpos (mx * my))
                 = cond_Zopp sx (Zpos mx) * cond_Zopp sy (Zpos my))
      by (destruct sx, sy; cbn; lia).
    rewrite Hz, inject_Z_mult. ring. }
  pose proof (Z.log2_mul_below (Zpos mx) (Zpos my) ltac:(lia) ltac:(lia)) as Hlog.
  pose proof (Z.log2_nonneg (Zpos mx)). pose proof (Z.log2_nonneg (Zpos my)).
  pose proof emin_neg as Hemin.
  apply binary_round_aux_between with (a := a) (b := b) (E := E); try assumption.
  - rewrite Pos2Z.inj_mul. unfold SpecFloat.fexp in *. lia.
  - eapply Z.le_trans; [|exact HP]. apply fexp_mono.
    rewrite <- Hval in Hmag.
    apply magnitude_digits in Hmag; [|destruct (xorb sx sy); discriminate].
    destruct (xorb sx sy); cbn [cond_Zopp] in Hmag;
      rewrite ?Z.abs_opp in Hmag; cbn [Z.abs] in Hmag; exact Hmag.
  - rewrite Hval. exact Hx.
Qed.

(** the exact sum of two finite numbers, at the smaller exponent *)
Lemma aligned_value s m e ez :
  ez <= e ->
  (inject_Z (cond_Zopp s (Zpos (fst (shl_align m e ez)))) * 2 ^ ez
   == SF2Q (S754_finite s m e))%Q.
Proof.
  intro H. pose proof (shl_align_spec m e ez) as Hal.
  destruct (shl_align m e ez) as [mz ez']. destruct Hal as [Hez Hmz].
  cbn [fst SF2Q]. replace ez' with ez in Hmz by lia.
  rewrite Hmz, cond_Zopp_mul, inject_Z_mult, <- two_pow_Z by lia.
  rewrite <- Qmult_assoc, <- two_pow_add.
  replace (e - ez + ez) with e by lia. reflexivity.
Qed.

Lemma SFadd_between x y (A B : Q) a b E P :
  SpecFloat.valid_binary prec emax x = true -> SpecFloat.valid_binary prec emax y = true ->
  SFfinite x = true -> SFfinite y = true ->
  (Qabs (SF2Q x + SF2Q y) < 2 ^ P)%Q -> fexp P <= E -> E < emax - prec ->
  (A == inject_Z a * 2 ^ E)%Q -> (B == inject_Z b * 2 ^ E)%Q ->
  (A <= SF2Q x + SF2Q y <= B)%Q ->
  let r := SFadd prec emax x y in
  SFfinite r = true /\ SpecFloat.valid_binary prec emax r = true /\ (A <= SF2Q r <= B)%Q.
Proof.
  intros Hvx Hvy Hfx Hfy Hmag HP Hmax HA HB Hx.
  destruct x as [sx|sx| |sx mx ex]; try discriminate;
    destruct y as [sy|sy| |sy my ey]; try discriminate; cbn [SFadd].
  - destruct sx, sy; cbn [SF2Q SFfinite SpecFloat.valid_binary] in *;
      rewrite ?Qplus_0_l in Hx; repeat split; try apply Hx.
  - split; [reflexivity|]. split; [exact Hvy|].
    cbn [SF2Q] in Hx |- *. rewrite Qplus_0_l in Hx. exact Hx.
  - split; [reflexivity|]. split; [exact Hvx|].
    cbn [SF2Q] in Hx |- *. rewrite Qplus_0_r in Hx. exact Hx.
  - set (ez := Z.min ex ey).
    set (z := cond_Zopp sx (Zpos (fst (shl_align mx ex ez)))
              + cond_Zopp sy (Zpos (fst (shl_align my ey ez)))).
    assert (Hval : (inject_Z z * 2 ^ ez
                    == SF2Q (S754_finite sx mx ex) + SF2Q (S754_finite sy my ey))%Q).
    { unfold z. rewrite inject_Z_plus, Qmult_plus_distr_l.
      rewrite !aligned_value by (unfold ez; lia). reflexivity. }
    apply binary_normalize_between with (a := a) (b := b) (E := E); try assumption.
    + intro Hz. eapply Z.le_trans; [|exact HP]. apply fexp_mono.
      rewrite <- Hval in Hmag. now apply magnitude_digits.
    + rewrite Hval. exact Hx.
Qed.

Lemma SFsub_between x y (A B : Q) a b E P :
  SpecFloat.valid_binary prec emax x = true -> SpecFloat.valid_binary prec emax y = true ->
  SFfinite x = true -> SFfinite y = true ->
  (Qabs (SF2Q x - SF2Q y) < 2 ^ P)%Q -> fexp P <= E -> E < emax - prec ->
  (A == inject_Z a * 2 ^ E)%Q -> (B == inject_Z b * 2 ^ E)%Q ->
  (A <= SF2Q x - SF2Q y <= B)%Q ->
  let r := SFsub prec emax x y in
  SFfinite r = true /\ SpecFloat.valid_binary prec emax r = true /\ (A <= SF2Q r <= B)%Q.
Proof.
  intros Hvx Hvy Hfx Hfy Hmag HP Hmax HA HB Hx.
  destruct x as [sx|sx| |sx mx ex]; try discriminate;
    destruct y as [sy|sy| |sy my ey]; try discriminate; cbn [SFsub].
  - destruct sx, sy; cbn [SF2Q SFfinite SpecFloat.valid_binary] in *;
      repeat split; try apply Hx.
  - split; [reflexivity|]. split; [exact Hvy|].
    cbn [SF2Q] in Hx |- *.
    assert (Hn : (inject_Z (cond_Zopp (negb sy) (Zpos my)) * 2 ^ ey
                  == 0 - inject_Z (cond_Zopp sy (Zpos my)) * 2 ^ ey)%Q).
    { assert (Hz : cond_Zopp (negb sy) (Zpos my) = - cond_Zopp sy (Zpos my))
        by (destruct sy; reflexivity).
      rewrite Hz, inject_Z_opp. ring. }
    rewrite Hn. exact Hx.
  - split; [reflexivity|]. split; [exact Hvx|].
    cbn [SF2Q] in Hx |- *.
    assert (Hn : (inject_Z (cond_Zopp sx (Zpos mx)) * 2 ^ ex
                  == inject_Z (cond_Zopp sx (Zpos mx)) * 2 ^ ex - 0)%Q) by ring.
    rewrite Hn. exact Hx.
  - set (ez := Z.min ex ey).
    set (z := cond_Zopp sx (Zpos (fst (shl_align mx ex ez)))
              - cond_Zopp sy (Zpos (fst (shl_align my ey ez)))).
    assert (Hval : (inject_Z z * 2 ^ ez
                    == SF2Q (S754_finite sx mx ex) - SF2Q (S754_finite sy my ey))%Q).
    { unfold z, Z.sub. rewrite inject_Z_plus, inject_Z_opp.
      setoid_replace ((inject_Z (cond_Zopp sx (Z.pos (fst (shl_align mx ex ez))))
                       + - inject_Z (cond_Zopp sy (Z.pos (fst (shl_align my ey ez))))) * 2 ^ ez)%Q
        with (inject_Z (cond_Zopp sx (Z.pos (fst (shl_align mx ex ez)))) * 2 ^ ez
              - inject_Z (cond_Zopp sy (Z.pos (fst (shl_align my ey ez)))) * 2 ^ ez)%Q by ring.
      rewrite !aligned_value by (unfold ez; lia). reflexivity. }
    apply binary_normalize_between with (a := a) (b := b) (E := E); try assumption.
    + intro Hz. eapply Z.le_trans; [|exact HP]. apply fexp_mono.
      rewrite <- Hval in Hmag. now apply magnitude_digits.
    + rewrite Hval. exact Hx.
Qed.

End Format.

End RoundingFacts.

(** ** Numbers: the operations of the backoff *)

Module DoubleFacts.
Import Double RoundingFacts Retry.

Local Open Scope Z_scope.

Lemma prec_pos : 0 < prec. Proof. reflexivity. Qed.
Lemma prec_emax : prec < emax. Proof. reflexivity. Qed.

Lemma fexp_value P : fexp prec emax P = Z.max (P - 53) (-1074).
Proof. reflexivity. Qed.

Lemma binary_normalize_valid x e :
  SpecFloat.valid_binary prec emax (binary_normalize prec emax x e false) = true.
Proof.
  assert (H : forall s m, SpecFloat.valid_binary prec emax (binary_round prec emax s m e) = true).
  { intros s m. unfold binary_round. rewrite (digits2_log2 m).
    pose proof (shl_align_spec m e (fexp prec emax (Z.log2 (Zpos m) + 1 + e))) as Hal.
    destruct (shl_align m e _) as [mz ez]. destruct Hal as [Hez Hmz].
    assert (Hdig : Z.log2 (Zpos mz) + 1 + ez = Z.log2 (Zpos m) + 1 + e).
    { rewrite Hmz, Z.log2_mul_pow2 by lia. lia. }
    destruct (binary_round_aux_spec prec emax prec_pos s mz ez)
      as (m'' & Hb & Hx & Hle & Hn & Hr).
    { rewrite Hdig. lia. }
    rewrite Hr. apply (rounded_valid prec emax prec_pos); [|apply fexp_emin|exact Hn].
    assert (0 <= Zpos mz / 2 ^ (fexp prec emax (Z.log2 (Zpos mz) + 1 + ez) - ez)).
    { apply Z.div_pos; [lia|]. apply Z.pow_pos_nonneg; [lia|]. rewrite Hdig. lia. }
    lia. }
  destruct x; cbn [binary_normalize]; [reflexivity | apply H | apply H].
Qed.

Lemma Prim2SF_of_Z z : Prim2SF (of_Z z) = binary_normalize prec emax z 0 false.
Proof. unfold of_Z. apply Prim2SF_SF2Prim, binary_normalize_valid. Qed.

(** ** Reading a Number as an integer *)

Lemma whole_value x n : whole x = Some n -> finite x = true /\ (value x == inject_Z n)%Q.
Proof.
  unfold whole, finite, value. destruct (Prim2SF x) as [s|s| |s m e]; try discriminate.
  - intros [= <-]. split; reflexivity.
  - cbn [SFfinite SF2Q]. destruct (Z.leb_spec 0 e) as [He|He].
    + intros [= <-]. split; [reflexivity|].
      rewrite inject_Z_mult, <- two_pow_Z by lia. reflexivity.
    + destruct (Z.eqb_spec (cond_Zopp s (Zpos m) mod 2 ^ (- e)) 0) as [Hm|]; [|discriminate].
      intros [= <-]. split; [reflexivity|].
      assert (Hp : 0 < 2 ^ (- e)) by (apply Z.pow_pos_nonneg; lia).
      pose proof (Z.div_mod (cond_Zopp s (Zpos m)) (2 ^ (- e)) ltac:(lia)) as Hdm.
      rewrite Hm, Z.add_0_r in Hdm. rewrite Hdm at 1.
      rewrite inject_Z_mult, <- two_pow_Z by lia.
      rewrite (Qmult_comm (2 ^ (- e))), <- Qmult_assoc, <- two_pow_add.
      replace (- e + e) with 0 by lia. change (2 ^ 0)%Q with 1%Q. ring.
Qed.

Lemma SF_whole f n :
  SFfinite f = true -> (SF2Q f == inject_Z n)%Q ->
  match f with
  | S754_zero _ => Some 0
  | S754_finite s m e =>
      let v := cond_Zopp s (Zpos m) in
      if 0 <=? e then Some (v * 2 ^ e)
      else if v mod 2 ^ (- e) =? 0 then Some (v / 2 ^ (- e)) else None
  | _ => None
  end = Some n.
Proof.
  destruct f as [s|s| |s m e]; try discriminate; intros _ Hv; cbn [SF2Q] in Hv.
  - f_equal. now apply (proj1 (inject_Z_injective 0 n)) in Hv.
  - cbv zeta. set (v := cond_Zopp s (Zpos m)) in *.
    destruct (Z.leb_spec 0 e) as [He|He].
    + f_equal. rewrite two_pow_Z, <- inject_Z_mult in Hv by lia.
      now apply (proj1 (inject_Z_injective _ _)) in Hv.
    + assert (Hp : 0 < 2 ^ (- e)) by (apply Z.pow_pos_nonneg; lia).
      assert (Hz : v = n * 2 ^ (- e)).
      { assert (Hq : (inject_Z v == inject_Z (n * 2 ^ (- e)))%Q).
        { rewrite inject_Z_mult, <- two_pow_Z, <- Hv by lia.
          rewrite <- Qmult_assoc, <- two_pow_add.
          replace (e + - e) with 0 by lia. change (2 ^ 0)%Q with 1%Q. ring. }
        now apply (proj1 (inject_Z_injective _ _)) in Hq. }
      rewrite Hz, Z.mod_mul, Z.div_mul by lia. reflexivity.
Qed.

Lemma whole_of_value x n :
  finite x = true -> (value x == inject_Z n)%Q -> whole x = Some n.
Proof. unfold finite, value, whole. apply SF_whole. Qed.

Lemma of_Z_exact z :
  Z.abs z < 2 ^ 53 -> finite (of_Z z) = true /\ (value (of_Z z) == inject_Z z)%Q.
Proof.
  intro Hz. unfold finite, value. rewrite Prim2SF_of_Z.
  destruct (binary_normalize_between prec emax prec_pos z 0
              (inject_Z z) (inject_Z z) z z 0) as (Hf & _ & Hlo & Hhi).
  - intro Hnz. rewrite fexp_value.
    assert (Z.log2 (Z.abs z) < 53) by (apply Z.log2_lt_pow2; lia). lia.
  - reflexivity.
  - change (2 ^ 0)%Q with 1%Q. ring.
  - change (2 ^ 0)%Q with 1%Q. ring.
  - change (2 ^ 0)%Q with 1%Q. rewrite Qmult_1_r. split; apply Qle_refl.
  - split; [exact Hf|]. now apply Qle_antisym.
Qed.

Lemma whole_of_Z z : Z.abs z < 2 ^ 53 -> whole (of_Z z) = Some z.
Proof. intro H. destruct (of_Z_exact z H). now apply whole_of_value. Qed.

(** an integer other than 0 never rounds to 0 *)
Lemma binary_normalize_nonzero z s :
  z <> 0 -> binary_normalize prec emax z 0 false <> S754_zero s.
Proof.
  assert (H : forall s0 m, binary_round prec emax s0 m 0 <> S754_zero s).
  { intros s0 m. unfold binary_round. rewrite (digits2_log2 m).
    pose proof (shl_align_spec m 0 (fexp prec emax (Z.log2 (Zpos m) + 1 + 0))) as Hal.
    destruct (shl_align m 0 _) as [mz ez]. destruct Hal as [Hez Hmz].
    assert (Hdig : Z.log2 (Zpos mz) + 1 + ez = Z.log2 (Zpos m) + 1 + 0).
    { rewrite Hmz, Z.log2_mul_pow2 by lia. lia. }
    destruct (binary_round_aux_spec prec emax prec_pos s0 mz ez)
      as (m'' & Hb & Hx & Hle & Hn & Hr).
    { rewrite Hdig. lia. }
    rewrite Hr. rewrite Hdig in Hn.
    pose proof (Z.log2_nonneg (Zpos m)) as Hlog.
    assert (Hm : 2 ^ (prec - 1) <= m'').
    { destruct Hn as [Hn|Hn]; [|exact Hn]. rewrite fexp_value in Hn.
      unfold SpecFloat.emin in Hn. change (3 - emax - prec) with (-1074) in Hn. lia. }
    assert (Hp : 0 < 2 ^ (prec - 1)) by reflexivity.
    unfold rounded. destruct (Z.eqb_spec m'' 0) as [|_]; [lia|].
    repeat match goal with
           | |- context [if ?c then _ else _] => destruct c
           end; discriminate. }
  intro Hz. destruct z; cbn [binary_normalize]; [congruence | apply H | apply H].
Qed.

Lemma of_Z_nonzero z : z <> 0 -> (of_Z z =? 0)%float = false.
Proof.
  intro Hz. rewrite eqb_spec, Prim2SF_of_Z.
  pose proof (fun s => binary_normalize_nonzero z s Hz) as H.
  destruct (binary_normalize prec emax z 0 false) as [s|s| |s m e].
  - now destruct (H s).
  - destruct s; reflexivity.
  - reflexivity.
  - destruct s; reflexivity.
Qed.

(** ** Operations that stay between two numbers of the grid *)

Section Between.

Variables (x y : float) (A B : Q) (a b E P : Z).
Hypothesis finite_x : finite x = true.
Hypothesis finite_y : finite y = true.
Hypothesis grid : Z.max (P - 53) (-1074) <= E.
Hypothesis in_range : E < 971.
Hypothesis on_grid_A : (A == inject_Z a * 2 ^ E)%Q.
Hypothesis on_grid_B : (B == inject_Z b * 2 ^ E)%Q.

Lemma mul_between :
  (Qabs (value x * value y) < 2 ^ P)%Q ->
  (A <= value x * value y <= B)%Q ->
  finite (x * y) = true /\ (A <= value (x * y) <= B)%Q.
Proof.
  intros Hmag Hx. unfold finite, value in *. rewrite mul_spec.
  destruct (SFmul_between prec emax prec_pos prec_emax (Prim2SF x) (Prim2SF y)
              A B a b E P (Prim2SF_valid x) (Prim2SF_valid y) finite_x finite_y
              Hmag grid in_range on_grid_A on_grid_B Hx) as (Hf & _ & Hb).
  split; assumption.
Qed.

Lemma add_between :
  (Qabs (value x + value y) < 2 ^ P)%Q ->
  (A <= value x + value y <= B)%Q ->
  finite (x + y) = true /\ (A <= value (x + y) <= B)%Q.
Proof.
  intros Hmag Hx. unfold finite, value in *. rewrite add_spec.
  destruct (SFadd_between prec emax prec_pos (Prim2SF x) (Prim2SF y)
              A B a b E P (Prim2SF_valid x) (Prim2SF_valid y) finite_x finite_y
              Hmag grid in_range on_grid_A on_grid_B Hx) as (Hf & _ & Hb).
  split; assumption.
Qed.

Lemma sub_between :
  (Qabs (value x - value y) < 2 ^ P)%Q ->
  (A <= value x - value y <= B)%Q ->
  finite (x - y) = true /\ (A <= value (x - y) <= B)%Q.
Proof.
  intros Hmag Hx. unfold finite, value in *. rewrite sub_spec.
  destruct (SFsub_between prec emax prec_pos (Prim2SF x) (Prim2SF y)
              A B a b E P (Prim2SF_valid x) (Prim2SF_valid y) finite_x finite_y
              Hmag grid in_range on_grid_A on_grid_B Hx) as (Hf & _ & Hb).
  split; assumption.
Qed.

End Between.

(** ** A draw of [Math.random] *)

Lemma unit_interval u :
  (0 <=? u)%float = true -> (u <? 1)%float = true ->
  finite u = true /\ (0 <= value u <= 1)%Q.
Proof.
  rewrite leb_spec, ltb_spec. unfold finite, value.
  pose proof (Prim2SF_valid u) as Hv.
  change (Prim2SF 0) with (S754_zero false).
  change (Prim2SF 1) with (S754_finite false 4503599627370496 (-52)).
  destruct (Prim2SF u) as [s|s| |s m e]; cbn [SFfinite SF2Q].
  - intros _ _. split; [reflexivity|]. split; discriminate.
  - destruct s; discriminate.
  - discriminate.
  - intros H0 H1. destruct s; [discriminate|]. split; [reflexivity|].
    cbn [cond_Zopp]. split.
    + apply Qmult_le_0_compat; [discriminate | apply Qlt_le_weak, two_pow_pos].
    + apply (valid_finite prec emax) in Hv as [Hc _].
      assert (Hm : Zpos m < 2 ^ 53).
      { apply Z.log2_lt_pow2; [lia|]. rewrite fexp_value in Hc. lia. }
      unfold SFltb, SFcompare in H1.
      assert (He : e < -52 \/ (e = -52 /\ Zpos m < 2 ^ 52)).
      { destruct (Z.compare_spec e (-52)) as [->|Hlt|Hgt]; [right|left; lia|discriminate].
        split; [reflexivity|].
        destruct (Pos.compare_cont Eq m 4503599627370496) eqn:Hcmp; try discriminate.
        rewrite Pos.compare_cont_spec in Hcmp.
        assert (Hlt : (m < 4503599627370496)%positive).
        { unfold Pos.lt. revert Hcmp.
          destruct (Pos.compare m 4503599627370496); cbn; congruence. }
        assert (H52 : 2 ^ 52 = 4503599627370496) by reflexivity.
        rewrite H52. exact Hlt. }
      setoid_replace 1%Q with (inject_Z 1 * 2 ^ 0)%Q by reflexivity.
      apply dyadic_ge; [lia|]. rewrite Z.mul_1_l, Z.sub_0_l.
      destruct He as [He|[-> He]].
      * assert (2 ^ 53 <= 2 ^ (- e)) by (apply Z.pow_le_mono_r; lia). lia.
      * change (- -52) with 52. lia.
Qed.

(** ** Rounding to an integer *)

Lemma Qfloor_half k : Qfloor (inject_Z k + (1 # 2)) = k.
Proof.
  unfold Qfloor, Qplus, inject_Z. cbn [Qnum Qden].
  symmetry. apply Z.div_unique with (r := 1); lia.
Qed.

Lemma half_up v e :
  e < 0 ->
  Qfloor (inject_Z v * 2 ^ e + (1 # 2)) = (v + 2 ^ (- e - 1)) / 2 ^ (- e).
Proof.
  intro He. rewrite Zdiv_Qdiv. apply Qfloor_comp.
  assert (Hh : 0 < 2 ^ (- e - 1)) by (apply Z.pow_pos_nonneg; lia).
  assert (Hk : 2 ^ (- e) = 2 * 2 ^ (- e - 1)).
  { replace (- e) with (Z.succ (- e - 1)) at 1 by lia. apply Z.pow_succ_r. lia. }
  assert (He' : (2 ^ e == / inject_Z (2 ^ (- e)))%Q).
  { rewrite <- two_pow_Z by lia. rewrite <- Qpower_opp.
    replace (- - e) with e by lia. reflexivity. }
  rewrite He', Hk, inject_Z_plus, inject_Z_mult.
  assert (Hnz : ~ (inject_Z (2 ^ (- e - 1)) == 0)%Q).
  { intro H. apply (proj1 (inject_Z_injective _ 0)) in H. lia. }
  change (inject_Z 2) with 2%Q. field. exact Hnz.
Qed.

Lemma Math_round_whole x :
  finite x = true -> (Qabs (value x) < 2 ^ 52)%Q ->
  whole (Math_round x) = Some (Qfloor (value x + (1 # 2))).
Proof.
  unfold Math_round, finite, value. destruct (Prim2SF x) as [s|s| |s m e] eqn:Hx;
    try discriminate; intros _ Hmag.
  - unfold whole. rewrite Hx. reflexivity.
  - cbn [SF2Q] in *. set (v := cond_Zopp s (Zpos m)) in *.
    destruct (Z.leb_spec 0 e) as [He|He].
    + unfold whole. rewrite Hx. fold v.
      destruct (Z.leb_spec 0 e); [|lia]. f_equal.
      rewrite two_pow_Z, <- inject_Z_mult by lia. symmetry. apply Qfloor_half.
    + rewrite half_up in * by assumption.
      set (r := (v + 2 ^ (- e - 1)) / 2 ^ (- e)).
      assert (Hr : r = Qfloor (inject_Z v * 2 ^ e + (1 # 2)))
        by (symmetry; now apply half_up).
      destruct (Z.eqb_spec r 0) as [->|Hnz].
      { destruct s; reflexivity. }
      apply whole_of_Z.
      pose proof (Qfloor_le (inject_Z v * 2 ^ e + (1 # 2))) as Hlo.
      pose proof (Qlt_floor (inject_Z v * 2 ^ e + (1 # 2))) as Hhi.
      rewrite <- Hr in Hlo, Hhi.
      apply Qabs_Qlt_condition in Hmag as [Hm1 Hm2].
      clear Hr. set (X := (inject_Z v * 2 ^ e)%Q) in *.
      assert (H52 : (2 ^ 52 == inject_Z (2 ^ 52))%Q) by (apply two_pow_Z; lia).
      rewrite H52 in Hm1. rewrite H52 in Hm2.
      assert (H1 : (inject_Z r < inject_Z (2 ^ 52 + 1))%Q).
      { rewrite inject_Z_plus. change (inject_Z 1) with 1%Q. lra. }
      assert (H2 : (inject_Z (- (2 ^ 52 + 1)) < inject_Z (r + 1))%Q).
      { rewrite inject_Z_opp, !inject_Z_plus. rewrite inject_Z_plus in Hhi.
        change (inject_Z 1) with 1%Q in *. lra. }
      rewrite <- Zlt_Qlt in H1, H2. lia.
Qed.

(** ** The jitter *)

Lemma quarter : finite 0.25 = true /\ (value 0.25 == 1 # 4)%Q.
Proof. split; reflexivity. Qed.

Lemma two : finite 2 = true /\ (value 2 == 2)%Q.
Proof. split; reflexivity. Qed.

Lemma one : finite 1 = true /\ (value 1 == 1)%Q.
Proof. split; reflexivity. Qed.

Lemma Qabs_below x c : (- c < x)%Q -> (x < c)%Q -> (Qabs x < c)%Q.
Proof. intros. apply Qabs_Qlt_condition. split; assumption. Qed.

(** The jitter stays in its band when the capped delay is a whole number
    of at most [2^49] ms: the delay is a whole number, a quarter of the
    capped delay and half a millisecond away from it at most, and a quarter
    of it at most when the capped delay is a multiple of 4. *)
Lemma jitter_band cap u n :
  whole cap = Some n -> Z.abs n <= 2 ^ 49 ->
  (0 <=? u)%float = true -> (u <? 1)%float = true ->
  exists d, whole (Math_round (cap + cap * 0.25 * (u * 2 - 1))%float) = Some d
    /\ 4 * Z.abs (d - n) <= Z.abs n + 2
    /\ (n mod 4 = 0 -> 4 * Z.abs (d - n) <= Z.abs n).
Proof.
  intros Hcap Hn Hu0 Hu1.
  apply whole_value in Hcap as [Hfc Hvc].
  destruct (unit_interval u Hu0 Hu1) as [Hfu [Hu_lo Hu_hi]].
  destruct quarter as [Hfq Hvq]. destruct two as [Hf2 Hv2]. destruct one as [Hf1 Hv1].
  set (N := inject_Z n) in *. set (M := inject_Z (Z.abs n)).
  assert (HM : (0 <= M /\ - M <= N /\ N <= M /\ M <= 562949953421312)%Q).
  { unfold M, N. rewrite <- inject_Z_opp.
    change 0%Q with (inject_Z 0). change 562949953421312%Q with (inject_Z (2 ^ 49)).
    rewrite <- !Zle_Qle. lia. }
  destruct HM as (HM0 & HMlo & HMhi & HMc).
  assert (Hp : forall k, (inject_Z k * 2 ^ (-2) == inject_Z k * (1 # 4))%Q)
    by (intro; reflexivity).
  (* cap * 0.25 *)
  destruct (mul_between cap 0.25 (N * (1 # 4)) (N * (1 # 4)) n n (-2) 48
              Hfc Hfq ltac:(lia) ltac:(lia) (Hp n) (Hp n)) as [Hfa Hva].
  { rewrite Hvc, Hvq. change (2 ^ 48)%Q with 281474976710656%Q.
    apply Qabs_below; lra. }
  { rewrite Hvc, Hvq. split; apply Qle_refl. }
  set (q := (cap * 0.25)%float) in *.
  (* u * 2 *)
  destruct (mul_between u 2 0 2 0 2 0 2 Hfu Hf2 ltac:(lia) ltac:(lia)
              ltac:(reflexivity) ltac:(reflexivity)) as [Hft Hvt].
  { rewrite Hv2. change (2 ^ 2)%Q with 4%Q. apply Qabs_below; lra. }
  { rewrite Hv2. lra. }
  set (t := (u * 2)%float) in *.
  (* u * 2 - 1 *)
  destruct (sub_between t 1 (-1) 1 (-1) 1 0 1 Hft Hf1 ltac:(lia) ltac:(lia)
              ltac:(reflexivity) ltac:(reflexivity)) as [Hff Hvf].
  { rewrite Hv1. change (2 ^ 1)%Q with 2%Q. apply Qabs_below; lra. }
  { rewrite Hv1. lra. }
  set (f := (t - 1)%float) in *.
  (* the jitter *)
  assert (Hq : (value q == N * (1 # 4))%Q) by (apply Qle_antisym; apply Hva).
  assert (Hprod : (- (M * (1 # 4)) <= value q * value f <= M * (1 # 4))%Q).
  { rewrite Hq. destruct Hvf as [Hf_lo Hf_hi].
    set (F := value f) in *.
    assert (H1 : (0 <= (M - N) * (1 - F))%Q) by (apply Qmult_le_0_compat; lra).
    assert (H2 : (0 <= (M + N) * (1 + F))%Q) by (apply Qmult_le_0_compat; lra).
    assert (H3 : (0 <= (M - N) * (1 + F))%Q) by (apply Qmult_le_0_compat; lra).
    assert (H4 : (0 <= (M + N) * (1 - F))%Q) by (apply Qmult_le_0_compat; lra).
    split; nra. }
  destruct (mul_between q f (- (M * (1 # 4))) (M * (1 # 4)) (- Z.abs n) (Z.abs n) (-2) 48
              Hfa Hff ltac:(lia) ltac:(lia)) as [Hfj Hvj].
  { rewrite (Hp (- Z.abs n)), inject_Z_opp. fold M. ring. }
  { rewrite (Hp (Z.abs n)). reflexivity. }
  { change (2 ^ 48)%Q with 281474976710656%Q. apply Qabs_below; lra. }
  { exact Hprod. }
  set (j := (q * f)%float) in *.
  (* cap + jitter *)
  destruct (add_between cap j (N - M * (1 # 4)) (N + M * (1 # 4))
              (4 * n - Z.abs n) (4 * n + Z.abs n) (-2) 50
              Hfc Hfj ltac:(lia) ltac:(lia)) as [Hfs Hvs].
  { rewrite (Hp (4 * n - Z.abs n)). unfold Z.sub.
    rewrite inject_Z_plus, inject_Z_opp, inject_Z_mult. fold M N.
    change (inject_Z 4) with 4%Q. ring. }
  { rewrite (Hp (4 * n + Z.abs n)).
    rewrite inject_Z_plus, inject_Z_mult. fold M N.
    change (inject_Z 4) with 4%Q. ring. }
  { rewrite Hvc. change (2 ^ 50)%Q with 1125899906842624%Q. apply Qabs_below; lra. }
  { rewrite Hvc. lra. }
  set (s := (cap + j)%float) in *.
  (* Math.round *)
  exists (Qfloor (value s + (1 # 2))).
  split.
  { fold q t f j s. apply Math_round_whole; [exact Hfs|].
    change (2 ^ 52)%Q with 4503599627370496%Q. apply Qabs_below; lra. }
  set (d := Qfloor (value s + (1 # 2))).
  pose proof (Qfloor_le (value s + (1 # 2))) as Hlo.
  pose proof (Qlt_floor (value s + (1 # 2))) as Hhi.
  fold d in Hlo, Hhi. rewrite inject_Z_plus in Hhi.
  change (inject_Z 1) with 1%Q in Hhi.
  split.
  - assert (H1 : (inject_Z (4 * d) <= inject_Z (4 * n + Z.abs n + 2))%Q).
    { rewrite !inject_Z_plus, !inject_Z_mult. fold M N.
      change (inject_Z 4) with 4%Q. change (inject_Z 2) with 2%Q. lra. }
    assert (H2 : (inject_Z (4 * n - Z.abs n + 2) < inject_Z (4 * (d + 1)))%Q).
    { unfold Z.sub. rewrite !inject_Z_mult, !inject_Z_plus, inject_Z_opp, inject_Z_mult.
      fold M N. change (inject_Z 4) with 4%Q. change (inject_Z 2) with 2%Q.
      change (inject_Z 1) with 1%Q. lra. }
    rewrite <- Zle_Qle in H1. rewrite <- Zlt_Qlt in H2. lia.
  - intro Hmod.
    apply Z.mod_divide in Hmod; [|lia]. destruct Hmod as [k Hk].
    assert (Hl : n - Z.abs k <= d).
    { rewrite <- (Qfloor_half (n - Z.abs k)). apply Qfloor_resp_le.
      unfold Z.sub. rewrite inject_Z_plus, inject_Z_opp. fold N.
      assert (HMk : (M == 4 * inject_Z (Z.abs k))%Q).
      { unfold M. rewrite Hk, Z.abs_mul, inject_Z_mult. change (Z.abs 4) with 4.
        change (inject_Z 4) with 4%Q. ring. }
      lra. }
    assert (Hh : d <= n + Z.abs k).
    { rewrite <- (Qfloor_half (n + Z.abs k)). apply Qfloor_resp_le.
      rewrite inject_Z_plus. fold N.
      assert (HMk : (M == 4 * inject_Z (Z.abs k))%Q).
      { unfold M. rewrite Hk, Z.abs_mul, inject_Z_mult. change (Z.abs 4) with 4.
        change (inject_Z 4) with 4%Q. ring. }
      lra. }
    lia.
Qed.

(** ** Order *)

Lemma SFcompare_refl f :
  match f with S754_nan => True | _ => SFcompare f f = Some Eq end.
Proof.
  destruct f as [s|s| |s m e]; cbn; try reflexivity; try exact I.
  - destruct s; reflexivity.
  - rewrite Z.compare_refl, Pos.compare_cont_refl. destruct s; reflexivity.
Qed.

Lemma SFcompare_antisym x y :
  SFcompare y x = option_map CompOpp (SFcompare x y).
Proof.
  destruct x as [sx|sx| |sx mx ex], y as [sy|sy| |sy my ey]; cbn;
    try reflexivity; try (destruct sx; reflexivity); try (destruct sy; reflexivity);
    try (destruct sx, sy; reflexivity).
  pose proof (Pos.compare_cont_antisym mx my Eq) as H. cbn [CompOpp] in H.
  rewrite <- H, (Z.compare_antisym ex ey).
  destruct sx, sy; try reflexivity;
    destruct (ex ?= ey); cbn; try reflexivity;
    destruct (Pos.compare_cont Eq mx my); reflexivity.
Qed.

Lemma is_nan_spec x :
  is_nan x = match Prim2SF x with S754_nan => true | _ => false end.
Proof.
  unfold is_nan. rewrite eqb_spec. unfold SFeqb.
  pose proof (SFcompare_refl (Prim2SF x)) as H.
  destruct (Prim2SF x); try rewrite H; reflexivity.
Qed.

Lemma SFcompare_some x y :
  x <> S754_nan -> y <> S754_nan -> exists c, SFcompare x y = Some c.
Proof.
  intros Hx Hy. destruct x, y; try congruence; cbn; eexists; reflexivity.
Qed.

Lemma not_nan x : is_nan x = false -> Prim2SF x <> S754_nan.
Proof. rewrite is_nan_spec. destruct (Prim2SF x); congruence. Qed.

Lemma leb_refl x : is_nan x = false -> (x <=? x)%float = true.
Proof.
  intro H. apply not_nan in H. rewrite leb_spec. unfold SFleb.
  pose proof (SFcompare_refl (Prim2SF x)) as Hr.
  destruct (Prim2SF x); try congruence; now rewrite Hr.
Qed.

Lemma ltb_leb x y : (x <? y)%float = true -> (x <=? y)%float = true.
Proof.
  rewrite ltb_spec, leb_spec. unfold SFltb, SFleb.
  destruct (SFcompare _ _) as [[| |]|]; congruence.
Qed.

(** two numbers neither of which is below the other are equal as numbers *)
Lemma leb_of_not_ltb x y :
  is_nan x = false -> is_nan y = false ->
  (x <? y)%float = false -> (y <? x)%float = false ->
  (x <=? y)%float = true /\ (y <=? x)%float = true.
Proof.
  intros Hx Hy. apply not_nan in Hx, Hy.
  rewrite !ltb_spec, !leb_spec. unfold SFltb, SFleb.
  rewrite (SFcompare_antisym (Prim2SF x) (Prim2SF y)).
  destruct (SFcompare_some _ _ Hx Hy) as [c ->]. cbn.
  destruct c; cbn; intros; split; congruence.
Qed.

Lemma Math_min_le a b :
  is_nan a = false -> is_nan b = false ->
  (Math_min a b = a \/ Math_min a b = b)
  /\ (Math_min a b <=? a)%float = true
  /\ (Math_min a b <=? b)%float = true.
Proof.
  intros Ha Hb. unfold Math_min. rewrite Ha, Hb. cbn [orb].
  destruct (a <? b)%float eqn:Hab.
  { split; [now left|]. split; [now apply leb_refl | now apply ltb_leb]. }
  destruct (b <? a)%float eqn:Hba.
  { split; [now right|]. split; [now apply ltb_leb | now apply leb_refl]. }
  destruct (leb_of_not_ltb a b Ha Hb Hab Hba) as [H1 H2].
  destruct (get_sign a).
  - split; [now left|]. split; [now apply leb_refl | exact H1].
  - split; [now right|]. split; [exact H2 | now apply leb_refl].
Qed.

End DoubleFacts.


(** ** Retry orchestrator *)

Module RetryFacts.
Import Js Http Executor Retry.

Section WithLibraries.

Variable URL_parse : string -> option Guard.ParsedUrl.
Variable Handlebars_render : string -> value -> option string.
Variable JSON_parse : string -> option value.
Variable JSON_stringify : value -> string.
Variable String_of : value -> string.
Variable axios : nat -> Request.t -> outcome * Z.
Variable Math_random : nat -> float.
Variable Math_pow : float -> float -> float.

Local Notation executeSingleRequest :=
  (Executor.executeSingleRequest URL_parse Handlebars_render JSON_parse
     JSON_stringify String_of axios).
Local Notation build_request :=
  (Executor.build_request Handlebars_render JSON_parse).
Local Notation retry_loop :=
  (Retry.retry_loop URL_parse Handlebars_render JSON_parse JSON_stringify
     String_of axios Math_random Math_pow).
Local Notation executeWebhook :=
  (Retry.executeWebhook URL_parse Handlebars_render JSON_parse JSON_stringify
     String_of axios Math_random Math_pow).
Local Notation calculateBackoffDelay := (Retry.calculateBackoffDelay Math_random Math_pow).
Local Notation cappedDelay := (Retry.cappedDelay Math_pow).
Local Notation backoff := (Retry.backoff Math_random Math_pow).
Local Notation always_answers := (Retry.always_answers axios).
Local Notation url_valid config context :=
  (Guard.valid (Guard.validateWebhookUrl URL_parse
     (Template.processTemplate Handlebars_render (Config.url config) context))).

Lemma backoff_requests attempt retry w :
  requests (snd (backoff attempt retry w)) = requests w.
Proof.
  unfold backoff, Retry.calculateBackoffDelay, random, sleep, bind, ret.
  destruct (0 <? attempt)%Z; reflexivity.
Qed.

(** a skipped-validation attempt issues exactly one request *)
Lemma attempt_issues_one config context timeout w :
  List.length (requests (snd (executeSingleRequest config context timeout true w)))
  = S (List.length (requests w)).
Proof.
  rewrite ExecutorFacts.executeSingleRequest_requests by (left; reflexivity).
  rewrite length_app. cbn. lia.
Qed.

(** one iteration of the loop, spelled out *)
Lemma retry_loop_step config context timeout retry t0 attempt later last attempts w :
  retry_loop config context timeout retry t0 (attempt :: later) last attempts w
  = let w1 := snd (backoff attempt retry w) in
    let (result, w2) := executeSingleRequest config context timeout true w1 in
    let attempts' := (attempts ++ [record_of attempt result])%list in
    if Result.success result
    then (Returned {| Dispatch.base := Some result;
                      Dispatch.totalExecutionTimeMs := Some (clock w2 - t0);
                      Dispatch.attempts := Some attempts';
                      Dispatch.retriesUsed := Some attempt;
                      Dispatch.maxRetriesReached := None |}, w2)
    else if (attempt <? Policy.maxRetries retry)%Z
            && isRetryable result (Result.error result) retry
    then retry_loop config context timeout retry t0 later (Some result) attempts' w2
    else (Fell_through (Some result) attempts', w2).
Proof.
  cbn [Retry.retry_loop]. unfold bind at 1. fold (Retry.backoff Math_random Math_pow attempt retry).
  destruct (backoff attempt retry w) as [[] w1]. cbn [snd].
  unfold bind at 1.
  destruct (executeSingleRequest config context timeout true w1) as [result w2].
  fold (record_of attempt result).
  destruct (Result.success result); [reflexivity|].
  destruct (_ && _); reflexivity.
Qed.

(** Counting invariant of the loop: started at index [a] with [a] records,
    every record added is a request issued, and a result returned from
    inside the loop reports one retry less than it has records. *)
Lemma retry_loop_counts config context timeout retry t0 n :
  forall a last attempts w exit w',
    List.length attempts = a ->
    retry_loop config context timeout retry t0
      (map Z.of_nat (seq a n)) last attempts w = (exit, w') ->
    match exit with
    | Returned r =>
        exists l, Dispatch.attempts r = Some l
                  /\ Dispatch.retriesUsed r = Some (Z.of_nat (List.length l) - 1)
                  /\ (a < List.length l)%nat
                  /\ (List.length (requests w') + a
                      = List.length (requests w) + List.length l)%nat
    | Fell_through _ l =>
        (n <> 0%nat -> a < List.length l)%nat
        /\ (a <= List.length l)%nat
        /\ (List.length (requests w') + a
            = List.length (requests w) + List.length l)%nat
    end.
Proof.
  induction n as [|n IH]; intros a last attempts w exit w' Hlen Hrun.
  - cbn in Hrun. inversion Hrun; subst. repeat split; lia.
  - cbn [seq map] in Hrun. rewrite retry_loop_step in Hrun. cbv zeta in Hrun.
    pose proof (attempt_issues_one config context timeout
                  (snd (backoff (Z.of_nat a) retry w))) as Hone.
    rewrite backoff_requests in Hone.
    destruct (executeSingleRequest config context timeout true _) as [result w2].
    cbn [snd] in Hone.
    destruct (Result.success result).
    + inversion Hrun; subst. eexists. split; [reflexivity|]. cbn.
      rewrite length_app. cbn. repeat split; try lia. f_equal. lia.
    + destruct (_ && _).
      * apply IH in Hrun; [|rewrite length_app; cbn; lia].
        destruct exit as [r | last' l].
        -- destruct Hrun as (l & H1 & H2 & H3 & H4). exists l.
           repeat split; try assumption; lia.
        -- destruct Hrun as (H1 & H2 & H3).
           repeat split; intros; lia.
      * inversion Hrun; subst. rewrite length_app. cbn.
        repeat split; intros; lia.
Qed.


Lemma executeWebhook_rejected config context timeout retryConfig w :
  url_valid config context = false ->
  let out := executeWebhook config context timeout retryConfig w in
  Dispatch.attempts (fst out) = Some []
  /\ Dispatch.retriesUsed (fst out) = Some 0
  /\ snd out = w.
Proof.
  intro Hv. unfold Retry.executeWebhook, bind, Date_now, ret. cbn.
  rewrite Hv. cbn. repeat split.
Qed.

Lemma executeWebhook_single config context timeout retryConfig w :
  url_valid config context = true ->
  Policy.maxRetries (merge_retry retryConfig) = 0 ->
  executeWebhook config context timeout retryConfig w
  = let (result, w') := executeSingleRequest config context timeout true w in
    ({| Dispatch.base := Some result;
        Dispatch.totalExecutionTimeMs := None;
        Dispatch.attempts := None;
        Dispatch.retriesUsed := None;
        Dispatch.maxRetriesReached := None |}, w').
Proof.
  intros Hv H0. unfold Retry.executeWebhook, bind at 1, Date_now.
  cbv beta iota zeta. rewrite Hv, H0. cbn [negb Z.eqb]. unfold bind, ret.
  destruct (executeSingleRequest _ _ _ _ _); reflexivity.
Qed.

Lemma executeWebhook_retrying config context timeout retryConfig w :
  url_valid config context = true ->
  Policy.maxRetries (merge_retry retryConfig) <> 0 ->
  executeWebhook config context timeout retryConfig w
  = let retry := merge_retry retryConfig in
    let (exit, w') :=
      retry_loop config context timeout retry (clock w)
        (attempt_indices (Policy.maxRetries retry)) None [] w in
    match exit with
    | Returned result => (result, w')
    | Fell_through lastResult attempts =>
        ({| Dispatch.base := lastResult;
            Dispatch.totalExecutionTimeMs := Some (clock w' - clock w);
            Dispatch.attempts := Some attempts;
            Dispatch.retriesUsed := Some (Z.of_nat (List.length attempts) - 1);
            Dispatch.maxRetriesReached :=
              Some (Policy.maxRetries retry <? Z.of_nat (List.length attempts))%Z |},
         w')
    end.
Proof.
  intros Hv H0. unfold Retry.executeWebhook, bind at 1, Date_now.
  cbv beta iota zeta. rewrite Hv. cbn [negb]. apply Z.eqb_neq in H0. rewrite H0.
  unfold bind at 1.
  destruct (retry_loop _ _ _ _ _ _ _ _ _) as [[r | last l] w']; reflexivity.
Qed.

Lemma attempt_indices_seq (maxRetries : Z) :
  attempt_indices maxRetries = map Z.of_nat (seq 0 (Z.to_nat (maxRetries + 1))).
Proof. reflexivity. Qed.

(** C2, as the code has it: a rejected URL gives an empty attempt list,
    zero retries used and no request; with a valid URL and [maxRetries = 0]
    one request is issued and the single-attempt result is returned as it
    is, without [attempts] or [retriesUsed]; with a valid URL and
    [maxRetries >= 1] the result has as many attempt records as requests
    were issued, at least one, and [attempts.length = retriesUsed + 1].
    For [maxRetries >= 0] the attempt list is present and empty exactly when
    URL validation failed. *)
Theorem executeWebhook_attempts_invariant config context timeout retryConfig w :
  let retry := merge_retry retryConfig in
  let out := executeWebhook config context timeout retryConfig w in
  let result := fst out in
  let issued := (List.length (requests (snd out)) - List.length (requests w))%nat in
  (url_valid config context = false ->
     Dispatch.attempts result = Some []
     /\ Dispatch.retriesUsed result = Some 0 /\ issued = 0%nat)
  /\ (url_valid config context = true -> Policy.maxRetries retry = 0 ->
        issued = 1%nat
        /\ Dispatch.attempts result = None /\ Dispatch.retriesUsed result = None)
  /\ (url_valid config context = true -> 1 <= Policy.maxRetries retry ->
        exists l n,
          Dispatch.attempts result = Some l
          /\ Dispatch.retriesUsed result = Some n
          /\ Z.of_nat (List.length l) = n + 1
          /\ List.length l = issued
          /\ (1 <= issued)%nat)
  /\ (0 <= Policy.maxRetries retry ->
        (Dispatch.attempts result = Some [] <-> url_valid config context = false)).
Proof.
  intros retry out result issued.
  assert (Hrej : url_valid config context = false ->
                 Dispatch.attempts result = Some []
                 /\ Dispatch.retriesUsed result = Some 0 /\ issued = 0%nat).
  { intro Hv.
    destruct (executeWebhook_rejected config context timeout retryConfig w Hv)
      as (Ha & Hr & Hw).
    subst result issued out. rewrite Hw. repeat split; try assumption. lia. }
  assert (Hone : url_valid config context = true -> Policy.maxRetries retry = 0 ->
                 issued = 1%nat
                 /\ Dispatch.attempts result = None
                 /\ Dispatch.retriesUsed result = None).
  { intros Hv H0. subst result issued out.
    rewrite (executeWebhook_single _ _ _ _ _ Hv H0).
    pose proof (attempt_issues_one config context timeout w) as Hreq.
    destruct (executeSingleRequest config context timeout true w) as [r w'].
    cbn in *. repeat split. lia. }
  assert (Hloop : url_valid config context = true -> 1 <= Policy.maxRetries retry ->
                  exists l n,
                    Dispatch.attempts result = Some l
                    /\ Dispatch.retriesUsed result = Some n
                    /\ Z.of_nat (List.length l) = n + 1
                    /\ List.length l = issued
                    /\ (1 <= issued)%nat).
  { intros Hv Hmax. subst result issued out.
    rewrite (executeWebhook_retrying _ _ _ _ _ Hv) by (fold retry; lia).
    cbv zeta. fold retry. rewrite attempt_indices_seq.
    destruct (retry_loop _ _ _ _ _ _ _ _ _) as [exit w'] eqn:Hrun.
    apply retry_loop_counts with (a := 0%nat) in Hrun; [|reflexivity].
    destruct exit as [r | last l]; cbn [fst snd].
    - destruct Hrun as (l & Ha & Hr & Hpos & Hreq).
      exists l, (Z.of_nat (List.length l) - 1).
      repeat split; try assumption; lia.
    - destruct Hrun as (Hpos & _ & Hreq).
      assert (Hn : Z.to_nat (Policy.maxRetries retry + 1) <> 0%nat) by lia.
      specialize (Hpos Hn).
      exists l, (Z.of_nat (List.length l) - 1). cbn.
      repeat split; lia. }
  split; [exact Hrej|]. split; [exact Hone|]. split; [exact Hloop|].
  intro Hmax. split.
  - intro Hempty.
    destruct (url_valid config context) eqn:Hv; [|reflexivity].
    destruct (Z.eq_dec (Policy.maxRetries retry) 0) as [H0 | H0].
    + destruct (Hone eq_refl H0) as (_ & Hnone & _). congruence.
    + destruct (Hloop eq_refl ltac:(lia)) as (l & n & Ha & _ & _ & Hl & Hi).
      rewrite Ha in Hempty. inversion Hempty; subst l. cbn in Hl. lia.
  - intro Hv. apply (Hrej Hv).
Qed.


Lemma attempt_answered code config context timeout w :
  always_answers code ->
  let result := fst (executeSingleRequest config context timeout true w) in
  Result.success result = (200 <=? code)%Z && (code <? 300)%Z
  /\ Result.status result = (if Result.success result then success_ else error_)
  /\ Result.httpStatusCode result = Some code
  /\ Result.error result = None.
Proof.
  intro Hall.
  destruct (Hall (List.length (requests w)) (build_request config context timeout))
    as (response & elapsed & Hax & <-).
  apply (ExecutorFacts.executeSingleRequest_responded _ _ _ _ _ _ _ _ _ _ _ _ elapsed);
    [left; reflexivity | exact Hax].
Qed.

Lemma isRetryable_status result retry code :
  Result.error result = None ->
  Result.httpStatusCode result = Some code ->
  code <> 0 ->
  In code (Policy.retryableStatusCodes retry) ->
  isRetryable result (Result.error result) retry = true.
Proof.
  intros He Hc Hnz Hin. unfold isRetryable. rewrite He, Hc.
  apply Z.eqb_neq in Hnz. rewrite Hnz. cbn [negb andb].
  assert (Hex : existsb (Z.eqb code) (Policy.retryableStatusCodes retry) = true).
  { apply existsb_exists. exists code. split; [exact Hin | apply Z.eqb_refl]. }
  now rewrite Hex.
Qed.

(** Against a destination that keeps answering with a retryable failure
    status the loop runs through every index it is given. *)
Lemma retry_loop_exhausts config context timeout retry t0 code n :
  always_answers code ->
  (200 <=? code)%Z && (code <? 300)%Z = false ->
  code <> 0 ->
  In code (Policy.retryableStatusCodes retry) ->
  forall a last attempts w,
    Z.of_nat (a + n) = Policy.maxRetries retry ->
    exists last' l w',
      retry_loop config context timeout retry t0
        (map Z.of_nat (seq a (S n))) last attempts w
      = (Fell_through (Some last') l, w')
      /\ List.length l = (List.length attempts + S n)%nat
      /\ Result.status last' = error_
      /\ Result.success last' = false
      /\ List.length (requests w') = (List.length (requests w) + S n)%nat.
Proof.
  intros Hall Hfail Hnz Hin.
  induction n as [|n IH]; intros a last attempts w Hmax.
  - cbn [seq map]. rewrite retry_loop_step. cbv zeta.
    pose proof (attempt_answered code config context timeout
                  (snd (backoff (Z.of_nat a) retry w)) Hall) as (Hs & Hst & Hc & He).
    pose proof (attempt_issues_one config context timeout
                  (snd (backoff (Z.of_nat a) retry w))) as Hone.
    rewrite backoff_requests in Hone.
    destruct (executeSingleRequest config context timeout true _) as [result w2].
    cbn [fst snd] in *. rewrite Hfail in Hs. rewrite Hs in *.
    assert (Hlt : (Z.of_nat a <? Policy.maxRetries retry)%Z = false)
      by (apply Z.ltb_ge; lia).
    rewrite Hlt. cbn [andb retry_loop].
    eexists _, _, _. split; [reflexivity|].
    rewrite length_app. cbn. repeat split; try assumption; lia.
  - cbn [seq map]. rewrite retry_loop_step. cbv zeta.
    pose proof (attempt_answered code config context timeout
                  (snd (backoff (Z.of_nat a) retry w)) Hall) as (Hs & Hst & Hc & He).
    pose proof (attempt_issues_one config context timeout
                  (snd (backoff (Z.of_nat a) retry w))) as Hone.
    rewrite backoff_requests in Hone.
    destruct (executeSingleRequest config context timeout true _) as [result w2].
    cbn [fst snd] in *. rewrite Hfail in Hs. rewrite Hs.
    assert (Hlt : (Z.of_nat a <? Policy.maxRetries retry)%Z = true)
      by (apply Z.ltb_lt; lia).
    rewrite Hlt, (isRetryable_status _ _ _ He Hc Hnz Hin). cbn [andb].
    destruct (IH (S a) (Some result)
                 (attempts ++ [record_of (Z.of_nat a) result])%list w2)
      as (last' & l & w' & Hrun & Hl & Hlast & Hsucc & Hreq); [lia|].
    cbn [seq map] in Hrun.
    exists last', l, w'. split; [exact Hrun|].
    rewrite length_app in Hl. cbn in Hl. repeat split; try assumption; lia.
Qed.

(** C4: against a destination that answers every request with HTTP 503,
    with 503 among the retryable status codes and [maxRetries = 3], a
    dispatch to a valid URL issues exactly 4 requests and returns 4 attempt
    records, [retriesUsed = 3] and status 'error'; [retriesUsed] is the
    number of requests issued beyond the first. *)
Theorem executeWebhook_retries_503 config context timeout retryConfig w :
  url_valid config context = true ->
  Policy.maxRetries (merge_retry retryConfig) = 3 ->
  In 503 (Policy.retryableStatusCodes (merge_retry retryConfig)) ->
  always_answers 503 ->
  let out := executeWebhook config context timeout retryConfig w in
  let issued := (List.length (requests (snd out)) - List.length (requests w))%nat in
  issued = 4%nat
  /\ (exists l, Dispatch.attempts (fst out) = Some l /\ List.length l = 4%nat)
  /\ Dispatch.retriesUsed (fst out) = Some 3
  /\ Dispatch.retriesUsed (fst out) = Some (Z.of_nat issued - 1)
  /\ (exists last, Dispatch.base (fst out) = Some last
                   /\ Result.status last = error_
                   /\ Result.success last = false).
Proof.
  intros Hv Hmax Hin Hall out issued. subst issued out.
  rewrite (executeWebhook_retrying _ _ _ _ _ Hv) by lia.
  cbv zeta. rewrite attempt_indices_seq, Hmax.
  change (Z.to_nat (3 + 1)) with 4%nat.
  destruct (retry_loop_exhausts config context timeout (merge_retry retryConfig)
              (clock w) 503 3 Hall eq_refl ltac:(lia) Hin 0%nat None [] w)
    as (last' & l & w' & Hrun & Hl & Hlast & Hsucc & Hreq);
    [rewrite Hmax; reflexivity|].
  rewrite Hrun. cbn [fst snd Dispatch.attempts Dispatch.retriesUsed Dispatch.base].
  cbn in Hl.
  split; [lia|]. split; [exists l; split; [reflexivity | exact Hl]|].
  split; [rewrite Hl; reflexivity|]. split; [f_equal; lia|].
  exists last'. repeat split; assumption.
Qed.


Lemma calculateBackoffDelay_value attempt config w :
  fst (calculateBackoffDelay attempt config w)
  = let cap := cappedDelay attempt config in
    Math_round (cap + cap * 0.25 * (Math_random (draws w) * 2 - 1))%float.
Proof. reflexivity. Qed.

(** C6, as the code computes it: for every retry index [k >= 1] and every
    jitter draw in [0, 1), when the capped delay
    [Math.min(initialDelayMs * Math.pow(backoffMultiplier, k - 1), maxDelayMs)]
    is a whole number of milliseconds [n] of magnitude at most [2^49], the
    delay is a whole number [d] that differs from [n] by at most a quarter
    of [|n|] plus half a millisecond, and by at most a quarter of [|n|]
    when [n] is a multiple of 4. *)
Theorem calculateBackoffDelay_band k config w n :
  1 <= k ->
  let cap :=
    Math_min (Policy.initialDelayMs config
              * Math_pow (Policy.backoffMultiplier config) (Double.of_Z (k - 1)))%float
             (Policy.maxDelayMs config) in
  let u := Math_random (draws w) in
  Double.whole cap = Some n -> Z.abs n <= 2 ^ 49 ->
  (0 <=? u)%float = true -> (u <? 1)%float = true ->
  exists d,
    Double.whole (fst (calculateBackoffDelay (k - 1) config w)) = Some d
    /\ 4 * Z.abs (d - n) <= Z.abs n + 2
    /\ (n mod 4 = 0 -> 4 * Z.abs (d - n) <= Z.abs n).
Proof.
  intros _ cap u Hcap Hn Hu0 Hu1.
  rewrite calculateBackoffDelay_value. cbv zeta.
  change (cappedDelay (k - 1) config) with cap.
  exact (DoubleFacts.jitter_band cap u n Hcap Hn Hu0 Hu1).
Qed.

End WithLibraries.

Lemma executeWebhook_attempts_invariant_witness :
  let out := Sample.executeWebhook (Sample.always 503) Sample.hook Sample.context
               30000 (Sample.max_retries 3) (initial 0) in
  exists l n,
    Dispatch.attempts (fst out) = Some l
    /\ Dispatch.retriesUsed (fst out) = Some n
    /\ Z.of_nat (List.length l) = n + 1
    /\ List.length l = (List.length (requests (snd out)) - 0)%nat
    /\ (1 <= List.length (requests (snd out)) - 0)%nat.
Proof.
  pose proof (executeWebhook_attempts_invariant Sample.URL_parse
                Sample.Handlebars_render Sample.JSON_parse Sample.JSON_stringify
                Sample.String_of (Sample.always 503) Sample.Math_random Sample.Math_pow
                Sample.hook Sample.context 30000 (Sample.max_retries 3) (initial 0))
    as (_ & _ & H & _).
  apply H.
  - vm_compute; reflexivity.
  - vm_compute; discriminate.
Defined.

(** C2 fails as stated: with [maxRetries = 0] and a valid URL one request
    is issued, yet the result has no [attempts] and no [retriesUsed]. *)
Lemma executeWebhook_single_attempt_has_no_history :
  let out := Sample.executeWebhook (Sample.always 200) Sample.hook Sample.context
               30000 (Sample.max_retries 0) (initial 0) in
  List.length (requests (snd out)) = 1%nat
  /\ Dispatch.attempts (fst out) = None
  /\ ~ (exists l n,
          Dispatch.attempts (fst out) = Some l
          /\ Dispatch.retriesUsed (fst out) = Some n
          /\ Z.of_nat (List.length l) = n + 1).
Proof.
  cbv zeta. split; [vm_compute; reflexivity|]. split; [vm_compute; reflexivity|].
  intros (l & n & H & _). vm_compute in H. discriminate.
Qed.

(** C6 fails as stated: with [initialDelayMs = 3] and the jitter draw at 0
    the first retry waits [Math.round(2.25) = 2] ms, below 75% of the
    3 ms cap. *)
Lemma calculateBackoffDelay_rounds_below_band :
  let delay := fst (Retry.calculateBackoffDelay Sample.Math_random Sample.Math_pow
                      (1 - 1) Sample.three_ms (initial 0)) in
  let cap :=
    Math_min (Policy.initialDelayMs Sample.three_ms
              * Sample.Math_pow (Policy.backoffMultiplier Sample.three_ms)
                                (Double.of_Z (1 - 1)))%float
             (Policy.maxDelayMs Sample.three_ms) in
  ((0 <=? Sample.Math_random 0)%float = true
   /\ (Sample.Math_random 0 <? 1)%float = true)
  /\ Double.whole cap = Some 3
  /\ Double.whole delay = Some 2
  /\ (Double.value delay < Double.value cap - (25 # 100) * Double.value cap)%Q.
Proof.
  cbv zeta. split; [split; vm_compute; reflexivity|].
  split; [vm_compute; reflexivity|].
  split; [vm_compute; reflexivity|].
  vm_compute. reflexivity.
Qed.

Lemma calculateBackoffDelay_band_witness :
  exists d,
    Double.whole (fst (Retry.calculateBackoffDelay Sample.Math_random Sample.Math_pow
                         (1 - 1) DEFAULT_RETRY_CONFIG (initial 0))) = Some d
    /\ 4 * Z.abs (d - 1000) <= Z.abs 1000.
Proof.
  destruct (calculateBackoffDelay_band Sample.Math_random Sample.Math_pow 1
              DEFAULT_RETRY_CONFIG (initial 0) 1000) as (d & Hd & _ & H4).
  - lia.
  - vm_compute. reflexivity.
  - vm_compute. discriminate.
  - vm_compute. reflexivity.
  - vm_compute. reflexivity.
  - exists d. split; [exact Hd | apply H4; reflexivity].
Defined.

Lemma executeWebhook_retries_503_witness :
  let out := Sample.executeWebhook (Sample.always 503) Sample.hook Sample.context
               30000 (Sample.max_retries 3) (initial 0) in
  List.length (requests (snd out)) = 4%nat
  /\ Dispatch.retriesUsed (fst out) = Some 3.
Proof.
  destruct (executeWebhook_retries_503 Sample.URL_parse Sample.Handlebars_render
              Sample.JSON_parse Sample.JSON_stringify Sample.String_of
              (Sample.always 503) Sample.Math_random Sample.Math_pow
              Sample.hook Sample.context 30000 (Sample.max_retries 3) (initial 0))
    as (Hissued & _ & Hused & _).
  - vm_compute; reflexivity.
  - reflexivity.
  - cbn; tauto.
  - intros n request. eexists _, _. split; reflexivity.
  - split; [|exact Hused]. cbn [initial requests List.length] in Hissued.
    rewrite Nat.sub_0_r in Hissued. exact Hissued.
Defined.

End RetryFacts.


(** ** Template renderer *)

Module TemplateFacts.
Import Js Template.

Section WithString.

Variable String_of : value -> string.

Local Notation scan := (Mustache.scan String_of).
Local Notation render := (Mustache.render String_of).
Local Notation text_of := (Mustache.text_of String_of).

Lemma append_nil_r (s : string) : s ++ EmptyString = s.
Proof. induction s; cbn; congruence. Qed.

Lemma append_assoc (a b c : string) : (a ++ b) ++ c = a ++ (b ++ c).
Proof. induction a; cbn; congruence. Qed.

Lemma option_map_append (c : ascii) (pre : string) (o : option string) :
  option_map (String c) (option_map (String.append pre) o)
  = option_map (String.append (String c pre)) o.
Proof. destruct o; reflexivity. Qed.

(** literal text is copied through *)
Lemma scan_plain context pre : forall rest,
  Mustache.plain pre = true ->
  scan (pre ++ rest) None context
  = option_map (String.append pre) (scan rest None context).
Proof.
  induction pre as [|c pre IH]; intros rest Hplain.
  - cbn. destruct (scan rest None context); reflexivity.
  - cbn in Hplain. apply andb_prop in Hplain as [Hc Hpre].
    apply negb_true_iff in Hc.
    change (String c pre ++ rest) with (String c (pre ++ rest)).
    cbn [Mustache.scan]. rewrite Hc. cbn [andb].
    rewrite (IH rest Hpre).
    destruct (pre ++ rest); apply option_map_append.
Qed.

Lemma path_char_not_closing c : Mustache.path_char c = true -> Ascii.eqb c "}" = false.
Proof.
  intro H. destruct (Ascii.eqb c "}") eqn:E; [|reflexivity].
  apply Ascii.eqb_eq in E. subst c. discriminate.
Qed.

(** inside a placeholder the expression is read up to the closing braces *)
Lemma scan_expression context path : forall e rest,
  Str.all_chars Mustache.path_char path = true ->
  scan (path ++ "}}" ++ rest) (Some e) context
  = if Mustache.valid_path (e ++ path)
    then option_map (String.append (text_of (Mustache.resolve context (e ++ path))))
                    (scan rest None context)
    else None.
Proof.
  induction path as [|c path IH]; intros e rest Hpath.
  - cbn. now rewrite append_nil_r.
  - cbn in Hpath. apply andb_prop in Hpath as [Hc Hrest].
    apply path_char_not_closing in Hc.
    change (String c path ++ "}}" ++ rest) with (String c (path ++ "}}" ++ rest)).
    cbn [Mustache.scan]. rewrite Hc. cbn [andb].
    replace (e ++ String c path) with ((e ++ String c EmptyString) ++ path)
      by (rewrite append_assoc; reflexivity).
    rewrite <- (IH (e ++ String c EmptyString) rest Hrest).
    destruct path; reflexivity.
Qed.

Lemma all_chars_valid path :
  Mustache.valid_path path = true -> Str.all_chars Mustache.path_char path = true.
Proof. unfold Mustache.valid_path. intro H. now apply andb_prop in H. Qed.

(** a template with one more placeholder in front *)
Lemma render_placeholder context pre path post :
  Mustache.plain pre = true ->
  Mustache.valid_path path = true ->
  render (pre ++ "{{" ++ path ++ "}}" ++ post) context
  = option_map (fun rendered =>
                  pre ++ text_of (Mustache.resolve context path) ++ rendered)
               (render post context).
Proof.
  intros Hpre Hpath. unfold Mustache.render.
  rewrite (scan_plain _ _ _ Hpre).
  change ("{{" ++ path ++ "}}" ++ post) with (String "{" (String "{" (path ++ "}}" ++ post))).
  cbn [Mustache.scan Ascii.eqb Bool.eqb andb].
  rewrite (scan_expression _ _ _ _ (all_chars_valid _ Hpath)).
  cbn [String.append]. rewrite Hpath.
  destruct (scan post None context); reflexivity.
Qed.

Lemma placeholder_nonempty pre path post :
  String.eqb (pre ++ "{{" ++ path ++ "}}" ++ post) EmptyString = false.
Proof. destruct pre; reflexivity. Qed.

End WithString.



End TemplateFacts.


(** ** Objects and the spread *)

Module JsFacts.
Import Js.

Lemma obj_get_set_same {A : Type} k (v : A) o : obj_get k (obj_set k v o) = Some v.
Proof.
  induction o as [|[k' v'] o IH]; cbn.
  - now rewrite String.eqb_refl.
  - destruct (String.eqb k k') eqn:E; cbn; rewrite E; [reflexivity | exact IH].
Qed.

Lemma obj_get_set_other {A : Type} k k' (v : A) o :
  k <> k' -> obj_get k' (obj_set k v o) = obj_get k' o.
Proof.
  intro Hne. induction o as [|[k0 v0] o IH]; cbn.
  - assert (E : String.eqb k' k = false) by (apply String.eqb_neq; congruence).
    now rewrite E.
  - destruct (String.eqb k k0) eqn:E; cbn.
    + apply String.eqb_eq in E. subst k0.
      assert (E' : String.eqb k' k = false) by (apply String.eqb_neq; congruence).
      now rewrite E'.
    + now rewrite IH.
Qed.

Lemma keys_set {A : Type} k (v : A) o k' :
  In k' (keys (obj_set k v o)) <-> k' = k \/ In k' (keys o).
Proof.
  unfold keys. induction o as [|[k0 v0] o IH]; cbn.
  - intuition.
  - destruct (String.eqb k k0) eqn:E; cbn.
    + apply String.eqb_eq in E. subst k0. intuition.
    + rewrite IH. intuition.
Qed.

(** the keys of a merge are those of either side *)
Lemma keys_fold entries : forall acc k,
  In k (keys (fold_left put entries acc)) <-> In k (keys acc) \/ In k (keys entries).
Proof.
  induction entries as [|[k0 v0] entries IH]; intros acc k; cbn [fold_left].
  - cbn. intuition.
  - rewrite IH. unfold put. cbn [fst snd]. rewrite keys_set. cbn. intuition.
Qed.

(** a key the right-hand side does not have keeps its value *)
Lemma get_fold_absent entries : forall acc k,
  ~ In k (keys entries) -> obj_get k (fold_left put entries acc) = obj_get k acc.
Proof.
  induction entries as [|[k0 v0] entries IH]; intros acc k Hnot; cbn [fold_left].
  - reflexivity.
  - rewrite IH by (cbn in Hnot; intuition).
    unfold put. cbn [fst snd]. apply obj_get_set_other. cbn in Hnot. intuition.
Qed.

(** a key the right-hand side has, once, takes its value from there *)
Lemma get_fold_present entries : forall acc k v,
  NoDup (keys entries) -> In (k, v) entries ->
  obj_get k (fold_left put entries acc) = Some v.
Proof.
  induction entries as [|[k0 v0] entries IH]; intros acc k v Hnd Hin; cbn [fold_left].
  - contradiction.
  - cbn in Hnd. inversion Hnd as [|? ? Hfresh Hnd']; subst.
    destruct Hin as [Heq | Hin].
    + inversion Heq; subst. rewrite get_fold_absent by exact Hfresh.
      unfold put. cbn [fst snd]. apply obj_get_set_same.
    + now apply IH.
Qed.

Lemma spread_fold acc v : spread acc v = fold_left put (own_entries v) acc.
Proof. reflexivity. Qed.

End JsFacts.

(** ** Request builder *)

Module BuilderFacts.
Import Js Http Executor.

Section WithLibraries.

Variable Handlebars_render : string -> value -> option string.
Variable JSON_parse : string -> option value.

Local Notation build_request := (Executor.build_request Handlebars_render JSON_parse).
Local Notation processedBody := (Executor.processedBody Handlebars_render JSON_parse).
Local Notation declared_params := (Executor.declared_params Handlebars_render).

(** the parameters of a GET request whose body is structured *)
Lemma build_request_get config context timeout :
  request_method config = "GET" ->
  truthy (Config.body config) = true ->
  is_object (processedBody config context) = true ->
  Request.data (build_request config context timeout) = JNull
  /\ Request.params (build_request config context timeout)
     = JObj (spread (spread [] (declared_params config context))
                    (processedBody config context)).
Proof.
  intros Hm Hb Ho. unfold Executor.build_request.
  rewrite Hm, Hb, Ho. cbn. split; reflexivity.
Qed.

(** C8: a GET request whose resolved body is structured is built with
    [data] left at [null]; its query parameters are an object that has
    every key of the body, next to every declared parameter. *)
Theorem build_request_get_body_to_params config context timeout :
  request_method config = "GET" ->
  truthy (Config.body config) = true ->
  is_object (processedBody config context) = true ->
  let request := build_request config context timeout in
  Request.data request = JNull
  /\ exists params,
       Request.params request = JObj params
       /\ (forall k, In k (keys (own_entries (processedBody config context))) ->
                     In k (keys params))
       /\ (forall k, In k (keys (own_entries (declared_params config context))) ->
                     In k (keys params)).
Proof.
  intros Hm Hb Ho request. subst request.
  destruct (build_request_get config context timeout Hm Hb Ho) as [Hd Hp].
  split; [exact Hd|]. eexists. split; [exact Hp|].
  rewrite !JsFacts.spread_fold. split; intros k Hk.
  - apply JsFacts.keys_fold. right. exact Hk.
  - apply JsFacts.keys_fold. left. apply JsFacts.keys_fold. right. exact Hk.
Qed.

(** C10: in a GET request with a structured body, a key that is both a
    declared parameter and a key of the body carries the body's value in
    the merged query parameters. *)
Theorem build_request_get_body_wins config context timeout k declared v :
  request_method config = "GET" ->
  truthy (Config.body config) = true ->
  is_object (processedBody config context) = true ->
  NoDup (keys (own_entries (processedBody config context))) ->
  obj_get k (own_entries (declared_params config context)) = Some declared ->
  In (k, v) (own_entries (processedBody config context)) ->
  exists params,
    Request.params (build_request config context timeout) = JObj params
    /\ obj_get k params = Some v.
Proof.
  intros Hm Hb Ho Hnd _ Hin.
  destruct (build_request_get config context timeout Hm Hb Ho) as [_ Hp].
  eexists. split; [exact Hp|].
  rewrite JsFacts.spread_fold. now apply JsFacts.get_fold_present.
Qed.

End WithLibraries.

Lemma build_request_get_body_to_params_witness :
  let request :=
    Executor.build_request Sample.Handlebars_render Sample.JSON_parse
      Sample.hook Sample.context 30000 in
  Request.data request = JNull
  /\ exists params,
       Request.params request = JObj params
       /\ In "b" (keys params) /\ In "c" (keys params).
Proof.
  destruct (build_request_get_body_to_params Sample.Handlebars_render
              Sample.JSON_parse Sample.hook Sample.context 30000)
    as (Hd & params & Hp & Hbody & Hdecl); try reflexivity.
  split; [exact Hd|]. exists params. split; [exact Hp|]. split.
  - apply Hbody. vm_compute. tauto.
  - apply Hdecl. vm_compute. tauto.
Defined.

Lemma build_request_get_body_wins_witness :
  exists params,
    Request.params (Executor.build_request Sample.Handlebars_render Sample.JSON_parse
                      Sample.hook Sample.context 30000) = JObj params
    /\ obj_get "a" params = Some (JStr "1").
Proof.
  apply (build_request_get_body_wins Sample.Handlebars_render Sample.JSON_parse
           Sample.hook Sample.context 30000 "a" (JStr "old") (JStr "1")).
  - reflexivity.
  - reflexivity.
  - reflexivity.
  - vm_compute. repeat constructor; cbn; intuition discriminate.
  - reflexivity.
  - vm_compute. tauto.
Defined.

End BuilderFacts.


(** ** Response extractor *)

Module ExtractorFacts.
Import Js Extractor.

Example arrayMatch_examples :
  map arrayMatch ["tags[0]"; "a_1[12]"; "tags"; "[0]"; "tags[]"; "tags[0]x"; "a-b[1]"]
  = [Some ("tags", "0"); Some ("a_1", "12"); None; None; None; None; None].
Proof. reflexivity. Qed.

Example getValueByPath_examples :
  map (getValueByPath Sample.runtime (Data Sample.tagged))
      ["user.tags[0]"; "user.tags[1]"; "user.tags[2]"; "user.tags.1";
       "user.tags.length"; "user.name[0]"; "user.profile.nick"; "user";
       "constructor.name"; "user.constructor"]
  = [Some (Data (JStr "a")); Some (Data (JStr "b")); Some (Data JUndefined);
     Some (Data (JStr "b")); Some (Data (JNum 2)); Some (Data JUndefined);
     Some (Data JUndefined);
     Some (Data (JObj [("tags", JArr [JStr "a"; JStr "b"])]));
     Some (Data (JStr "Object")); Some (Native "Object")].
Proof. reflexivity. Qed.

Section WithRuntime.

Variable runtime : Runtime.t.

Local Notation walk := (Extractor.walk runtime).
Local Notation getValueByPath := (Extractor.getValueByPath runtime).
Local Notation missing_at_segment := (Extractor.missing_at_segment runtime).
Local Notation extract_loop := (Extractor.extract_loop runtime).
Local Notation extractOutputFields := (Extractor.extractOutputFields runtime).

(** once the value is gone, the rest of the path finds nothing *)
Lemma walk_gone parts current :
  gone current = true -> parts <> [] -> walk parts current = Some (Data JUndefined).
Proof.
  intros Hg Hp. destruct parts as [|part rest]; [congruence|].
  cbn [Extractor.walk]. now rewrite Hg.
Qed.

Lemma walk_undefined parts : walk parts (Data JUndefined) = Some (Data JUndefined).
Proof. destruct parts; reflexivity. Qed.

Lemma walk_null parts : parts <> [] -> walk parts (Data JNull) = Some (Data JUndefined).
Proof. now apply walk_gone. Qed.

Lemma walk_app pre : forall post current,
  walk (pre ++ post) current
  = match walk pre current with
    | Some reached => walk post reached
    | None => None
    end.
Proof.
  induction pre as [|part pre IH]; intros post current; cbn [app Extractor.walk].
  - reflexivity.
  - destruct (gone current); [symmetry; apply walk_undefined|].
    destruct (arrayMatch part) as [[name digits]|].
    + destruct (read runtime current name) as [next|]; [|reflexivity].
      destruct (is_array runtime next); [|symmetry; apply walk_undefined].
      destruct (at_index runtime next (parseInt digits)); [apply IH | reflexivity].
    + destruct (read runtime current part); [apply IH | reflexivity].
Qed.

Lemma missing_gives_undefined data path :
  missing_at_segment data path -> getValueByPath data path = Some (Data JUndefined).
Proof.
  intros (pre & post & Hsplit & Hmiss). unfold Extractor.getValueByPath.
  rewrite Hsplit, walk_app.
  destruct Hmiss as [-> | [-> Hpost]].
  - apply walk_undefined.
  - now apply walk_null.
Qed.

(** a mapping whose path finds nothing leaves the loop as if it were not there *)
Lemma extract_loop_skips data m path before : forall after outputs,
  Mapping.jsonPath m = Some path ->
  getValueByPath data path = Some (Data JUndefined) ->
  extract_loop data (before ++ m :: after)%list outputs
  = extract_loop data (before ++ after)%list outputs.
Proof.
  induction before as [|m0 before IH]; intros after outputs Hp Hmiss;
    cbn [app Extractor.extract_loop].
  - rewrite Hp, Hmiss. cbn. destruct (String.eqb path EmptyString); reflexivity.
  - destruct (Mapping.jsonPath m0) as [p0|]; [|now apply IH].
    destruct (String.eqb p0 EmptyString); [now apply IH|].
    destruct (getValueByPath data p0) as [v|]; [|reflexivity].
    destruct (negb (is_undefined v)); [|now apply IH].
    destruct (store runtime outputs (Mapping.outputFieldName m0) v); [|reflexivity].
    now apply IH.
Qed.

(** C9, as the code has it: the mapping of output field first_tag to path
    user.tags[0] extracts "a" from the body {user: {tags: ["a", "b"]}},
    whatever the runtime's built-in objects hold; and a mapping at one of
    whose segments the walk holds undefined, or null with segments left,
    is left out of the output: the mappings around it give what they give
    without it, and the mapping alone gives the empty output, without an
    exception. A segment is read as a property, own or inherited. *)
Theorem extractOutputFields_example_and_misses :
  extractOutputFields (JObj [("data", Sample.tagged)]) (Some [Sample.first_tag])
  = Some {| Outputs.proto := None;
            Outputs.fields := [("first_tag", Data (JStr "a"))] |}
  /\ forall response data before m after path,
       property runtime response "data" = Some data ->
       Extractor.truthy data = true ->
       Mapping.jsonPath m = Some path ->
       missing_at_segment data path ->
       extractOutputFields response (Some (before ++ m :: after)%list)
       = extractOutputFields response (Some (before ++ after)%list)
       /\ extractOutputFields response (Some [m]) = Some Outputs.empty.
Proof.
  split; [reflexivity|].
  intros response data before m after path Hdata Htruthy Hpath Hmiss.
  unfold Extractor.extractOutputFields. rewrite Hdata, Htruthy. cbn [negb].
  pose proof (missing_gives_undefined _ _ Hmiss) as Hund.
  split.
  - exact (extract_loop_skips data m path before after _ Hpath Hund).
  - exact (extract_loop_skips data m path [] [] _ Hpath Hund).
Qed.

End WithRuntime.

Lemma extractOutputFields_example_and_misses_witness :
  Extractor.extractOutputFields Sample.runtime (JObj [("data", Sample.tagged)])
    (Some [Sample.nickname; Sample.first_tag])
  = Extractor.extractOutputFields Sample.runtime (JObj [("data", Sample.tagged)])
      (Some [Sample.first_tag]).
Proof.
  destruct (extractOutputFields_example_and_misses Sample.runtime) as [_ H].
  apply (H (JObj [("data", Sample.tagged)]) (Data Sample.tagged) [] Sample.nickname
           [Sample.first_tag] "user.profile.nick").
  - reflexivity.
  - reflexivity.
  - reflexivity.
  - exists ["user"; "profile"], ["nick"]. split; [reflexivity|].
    left. reflexivity.
Defined.

(** C9 fails as stated: the body {s: "abc"} has no [constructor] field, so
    the path constructor.name has a missing value at its first segment;
    yet the read finds the function every object inherits there, and the
    mapping is kept with the function's name. *)
Lemma extractOutputFields_keeps_inherited :
  obj_get "constructor" [("s", JStr "abc")] = None
  /\ Extractor.extractOutputFields Sample.runtime
       (JObj [("data", JObj [("s", JStr "abc")])]) (Some [Sample.maker])
     = Some {| Outputs.proto := None;
               Outputs.fields := [("maker", Data (JStr "Object"))] |}.
Proof. split; reflexivity. Qed.

End ExtractorFacts.


(** * Further properties *)

(** ** URL guard: what is stopped *)

Module GuardBlocks.
Import Guard Regex Ipv4.

Lemma match_all_Alt icase s : forall p q,
  match_all icase (Alt p q) s = match_all icase p s || match_all icase q s.
Proof.
  induction s as [|x t IH]; intros p q; cbn; [reflexivity | apply IH].
Qed.

Lemma match_all_Seq_nullable icase a b s :
  nullable a = true -> match_all icase b s = true ->
  match_all icase (Seq a b) s = true.
Proof.
  intros Ha Hb. destruct s as [|x t]; cbn.
  - cbn in Hb. now rewrite Ha, Hb.
  - rewrite Ha, match_all_Alt. cbn in Hb. rewrite Hb. apply orb_true_r.
Qed.

(** concatenation: a match of [a] followed by a match of [b] *)
Lemma match_all_Seq icase b s2 s1 : forall a,
  match_all icase a s1 = true -> match_all icase b s2 = true ->
  match_all icase (Seq a b) (s1 ++ s2) = true.
Proof.
  induction s1 as [|x t IH]; intros a Ha Hb.
  - now apply match_all_Seq_nullable.
  - change (String x t ++ s2) with (String x (t ++ s2)). cbn [match_all deriv].
    cbn [match_all] in Ha.
    destruct (nullable a).
    + rewrite match_all_Alt, (IH _ Ha Hb). reflexivity.
    + now apply IH.
Qed.

Lemma octets_ok n : (n < 256)%nat -> octet_ok n = true.
Proof.
  intro Hn.
  assert (Hall : forallb octet_ok (seq 0 256) = true) by (vm_compute; reflexivity).
  rewrite forallb_forall in Hall. apply Hall. apply in_seq. lia.
Qed.

Lemma octet_matches n : (n < 256)%nat -> match_all false octet (Str.of_nat n) = true.
Proof.
  intro Hn. pose proof (octets_ok n Hn) as H. unfold octet_ok in H.
  now apply andb_prop in H.
Qed.

Lemma octet_lower n : (n < 256)%nat -> Str.toLowerCase (Str.of_nat n) = Str.of_nat n.
Proof.
  intro Hn. pose proof (octets_ok n Hn) as H. unfold octet_ok in H.
  apply andb_prop in H as [_ H]. now apply String.eqb_eq.
Qed.

(** the guard recognises every dotted quad as an IPv4 literal *)
Lemma ipv4_pattern_dotted a b c d :
  (a < 256)%nat -> (b < 256)%nat -> (c < 256)%nat -> (d < 256)%nat ->
  test ipv4_pattern (dotted a b c d) = true.
Proof.
  intros Ha Hb Hc Hd. unfold test, ipv4_pattern, dotted. cbn [to_end ignore_case body].
  apply match_all_Seq; [now apply octet_matches|].
  apply (match_all_Seq false _ _ "."); [reflexivity|].
  apply match_all_Seq; [now apply octet_matches|].
  apply (match_all_Seq false _ _ "."); [reflexivity|].
  apply match_all_Seq; [now apply octet_matches|].
  apply (match_all_Seq false _ _ "."); [reflexivity|].
  now apply octet_matches.
Qed.

Lemma toLowerCase_dotted a b c d :
  (a < 256)%nat -> (b < 256)%nat -> (c < 256)%nat -> (d < 256)%nat ->
  Str.toLowerCase (dotted a b c d) = dotted a b c d.
Proof.
  intros Ha Hb Hc Hd. unfold dotted.
  rewrite !GuardFacts.toLowerCase_app, !octet_lower by assumption. reflexivity.
Qed.

Lemma hits_test p prefix rest : hits p prefix = true -> test p (prefix ++ rest) = true.
Proof.
  unfold hits, test. intro H. apply andb_prop in H as [He H].
  apply negb_true_iff in He. rewrite He, RegexFacts.match_prefix_app.
  apply orb_prop in H as [H | H]; [now rewrite H|].
  rewrite orb_comm.
  destruct rest; cbn [match_prefix]; now rewrite H.
Qed.

Lemma in_blocked_range_hit prefix rest :
  existsb (fun p => hits p prefix) BLOCKED_IP_PATTERNS = true ->
  in_blocked_range (prefix ++ rest) = true.
Proof.
  intro H. apply existsb_exists in H as (p & Hin & Hp).
  unfold in_blocked_range. apply existsb_exists. exists p.
  split; [exact Hin | now apply hits_test].
Qed.

(** whatever else the URL holds, an IPv4 literal in a blocked range is
    refused *)
Lemma blocked_literal_rejected URL_parse url p :
  URL_parse url = Some p ->
  test ipv4_pattern (Str.toLowerCase (hostname p)) = true ->
  in_blocked_range (Str.toLowerCase (hostname p)) = true ->
  valid (validateWebhookUrl URL_parse url) = false.
Proof.
  intros Hp Hv4 Hrange. unfold validateWebhookUrl. rewrite Hp, Hv4, Hrange.
  destruct (String.eqb url EmptyString); [reflexivity|].
  destruct (negb (Str.mem (protocol p) _)); [reflexivity|]. cbv zeta.
  destruct (Str.mem _ BLOCKED_HOSTNAMES); reflexivity.
Qed.

(** a dotted quad under a blocked prefix of one, two or three octets *)
Lemma rejected_by_prefix URL_parse url p a b c d prefix rest :
  URL_parse url = Some p ->
  (a < 256)%nat -> (b < 256)%nat -> (c < 256)%nat -> (d < 256)%nat ->
  hostname p = dotted a b c d ->
  dotted a b c d = prefix ++ rest ->
  existsb (fun q => hits q prefix) BLOCKED_IP_PATTERNS = true ->
  valid (validateWebhookUrl URL_parse url) = false.
Proof.
  intros Hp Ha Hb Hc Hd Hhost Hsplit Hhit.
  apply (blocked_literal_rejected _ _ _ Hp);
    rewrite Hhost, toLowerCase_dotted by assumption.
  - now apply ipv4_pattern_dotted.
  - rewrite Hsplit. now apply in_blocked_range_hit.
Qed.

Lemma prefix_app p rest : String.prefix p (p ++ rest) = true.
Proof.
  induction p as [|x t IH]; cbn.
  - now destruct rest.
  - destruct (ascii_dec x x); [exact IH | contradiction].
Qed.

Lemma not_listed_name prefix rest :
  forallb (fun h => negb (String.prefix prefix h)) BLOCKED_HOSTNAMES = true ->
  Str.mem (prefix ++ rest) BLOCKED_HOSTNAMES = false.
Proof.
  intro H. unfold Str.mem.
  destruct (existsb _ BLOCKED_HOSTNAMES) eqn:E; [|reflexivity].
  apply existsb_exists in E as (h & Hin & Heq). apply String.eqb_eq in Heq.
  rewrite forallb_forall in H. specialize (H h Hin).
  rewrite <- Heq, prefix_app in H. discriminate.
Qed.

Lemma in_blocked_range_clear prefix rest :
  forallb (fun p => rules_out p prefix) BLOCKED_IP_PATTERNS = true ->
  in_blocked_range (prefix ++ rest) = false.
Proof.
  intro H. unfold in_blocked_range.
  destruct (existsb _ BLOCKED_IP_PATTERNS) eqn:E; [|reflexivity].
  apply existsb_exists in E as (q & Hin & Hq).
  rewrite forallb_forall in H.
  rewrite (RegexFacts.rules_out_test _ _ _ (H q Hin)) in Hq. discriminate.
Qed.

(** what a prefix decides for every dotted quad under it *)
Lemma decided_verdict URL_parse url p a b c d prefix rest expect :
  url <> EmptyString ->
  URL_parse url = Some p ->
  protocol p = "http:" \/ protocol p = "https:" ->
  username p = EmptyString ->
  password p = EmptyString ->
  (a < 256)%nat -> (b < 256)%nat -> (c < 256)%nat -> (d < 256)%nat ->
  hostname p = dotted a b c d ->
  dotted a b c d = prefix ++ rest ->
  decided prefix expect = true ->
  valid (validateWebhookUrl URL_parse url) = negb expect.
Proof.
  intros Hne Hp Hproto Hu Hpw Ha Hb Hc Hd Hhost Hsplit Hdec.
  destruct expect; cbn [decided negb] in *.
  - now apply (rejected_by_prefix _ _ _ a b c d prefix rest Hp).
  - rewrite (GuardFacts.verdict_by_hostname _ _ _ Hne Hp Hproto Hu Hpw).
    cbv zeta. rewrite Hhost, toLowerCase_dotted, Hsplit by assumption.
    unfold clear_of in Hdec. apply andb_prop in Hdec as [Hpat Hnames].
    rewrite (not_listed_name _ _ Hnames), (in_blocked_range_clear _ _ Hpat).
    now rewrite !andb_false_r.
Qed.

Lemma dotted_pre1 a b c d :
  dotted a b c d = pre1 a ++ (Str.of_nat b ++ "." ++ Str.of_nat c ++ "." ++ Str.of_nat d).
Proof. unfold dotted, pre1. now rewrite !TemplateFacts.append_assoc. Qed.

Lemma dotted_pre2 a b c d :
  dotted a b c d = pre2 a b ++ (Str.of_nat c ++ "." ++ Str.of_nat d).
Proof. unfold dotted, pre2. now rewrite !TemplateFacts.append_assoc. Qed.

Lemma dotted_pre3 a b c d : dotted a b c d = pre3 a b c ++ Str.of_nat d.
Proof. unfold dotted, pre3. now rewrite !TemplateFacts.append_assoc. Qed.

Lemma all_below (f : nat -> bool) n :
  forallb f (seq 0 256) = true -> (n < 256)%nat -> f n = true.
Proof.
  intros H Hn. rewrite forallb_forall in H. apply H. apply in_seq. lia.
Qed.

(** the finite checks: each prefix the patterns can tell apart is decided
    the way [listed] says *)
Lemma first_octets_decided a :
  (a < 256)%nat ->
  mem_nat a split_octets = false ->
  decided (pre1 a) (mem_nat a whole_octets) = true.
Proof.
  intros Ha Hsplit.
  pose proof (all_below
                (fun a => mem_nat a split_octets
                          || decided (pre1 a) (mem_nat a whole_octets))
                a ltac:(vm_compute; reflexivity) Ha) as H.
  cbv beta in H. now rewrite Hsplit in H.
Qed.

Lemma second_octets_decided a b (expect : nat -> bool) (deeper : nat -> bool) :
  forallb (fun b => deeper b || decided (pre2 a b) (expect b)) (seq 0 256) = true ->
  (b < 256)%nat -> deeper b = false ->
  decided (pre2 a b) (expect b) = true.
Proof.
  intros Hall Hb Hd. pose proof (all_below _ b Hall Hb) as H.
  cbv beta in H. now rewrite Hd in H.
Qed.

Lemma third_octets_decided a b c (expect : nat -> bool) :
  forallb (fun c => decided (pre3 a b c) (expect c)) (seq 0 256) = true ->
  (c < 256)%nat ->
  decided (pre3 a b c) (expect c) = true.
Proof. intros Hall Hc. exact (all_below _ c Hall Hc). Qed.

(** for every dotted quad some prefix of it is decided as [listed] says *)
Lemma listed_decided a b c d :
  (a < 256)%nat -> (b < 256)%nat -> (c < 256)%nat -> (d < 256)%nat ->
  exists prefix rest,
    dotted a b c d = prefix ++ rest /\ decided prefix (listed a b c) = true.
Proof.
  intros Ha Hb Hc Hd. unfold listed.
  destruct (mem_nat a split_octets) eqn:Hsplit.
  - cbn in Hsplit.
    destruct (a =? 100)%nat eqn:E100;
      [apply Nat.eqb_eq in E100; subst a; cbn [mem_nat existsb whole_octets Nat.eqb orb]
      |destruct (a =? 169)%nat eqn:E169;
      [apply Nat.eqb_eq in E169; subst a
      |destruct (a =? 172)%nat eqn:E172;
      [apply Nat.eqb_eq in E172; subst a
      |destruct (a =? 192)%nat eqn:E192;
      [apply Nat.eqb_eq in E192; subst a
      |destruct (a =? 198)%nat eqn:E198;
      [apply Nat.eqb_eq in E198; subst a
      |destruct (a =? 203)%nat eqn:E203;
      [apply Nat.eqb_eq in E203; subst a
      |discriminate]]]]]].
    + exists (pre2 100 b), (Str.of_nat c ++ "." ++ Str.of_nat d).
      split; [apply dotted_pre2|].
      apply (second_octets_decided 100 b cgnat_listed nowhere);
        [vm_compute; reflexivity | assumption | reflexivity].
    + exists (pre2 169 b), (Str.of_nat c ++ "." ++ Str.of_nat d).
      split; [apply dotted_pre2|].
      apply (second_octets_decided 169 b (fun b => b =? 254)%nat nowhere);
        [vm_compute; reflexivity | assumption | reflexivity].
    + exists (pre2 172 b), (Str.of_nat c ++ "." ++ Str.of_nat d).
      split; [apply dotted_pre2|].
      apply (second_octets_decided 172 b (between 16 31) nowhere);
        [vm_compute; reflexivity | assumption | reflexivity].
    + change (mem_nat 192 whole_octets) with false. cbv iota.
      change (192 =? 100)%nat with false. change (192 =? 169)%nat with false.
      change (192 =? 172)%nat with false. change (192 =? 192)%nat with true.
      cbv iota.
      destruct (b =? 0)%nat eqn:E0.
      * apply Nat.eqb_eq in E0. subst b. cbn [Nat.eqb orb andb].
        exists (pre3 192 0 c), (Str.of_nat d). split; [apply dotted_pre3|].
        apply (third_octets_decided 192 0 c (fun c => (c =? 0) || (c =? 2))%nat);
          [vm_compute; reflexivity | assumption].
      * rewrite andb_false_l, orb_false_r.
        exists (pre2 192 b), (Str.of_nat c ++ "." ++ Str.of_nat d).
        split; [apply dotted_pre2|].
        apply (second_octets_decided 192 b (fun b => b =? 168)%nat
                 (fun b => b =? 0)%nat);
          [vm_compute; reflexivity | assumption | exact E0].
    + change (mem_nat 198 whole_octets) with false. cbv iota.
      change (198 =? 100)%nat with false. change (198 =? 169)%nat with false.
      change (198 =? 172)%nat with false. change (198 =? 192)%nat with false.
      change (198 =? 198)%nat with true. cbv iota.
      destruct (b =? 51)%nat eqn:E51.
      * apply Nat.eqb_eq in E51. subst b. cbn [andb].
        exists (pre3 198 51 c), (Str.of_nat d). split; [apply dotted_pre3|].
        apply (third_octets_decided 198 51 c (fun c => c =? 100)%nat);
          [vm_compute; reflexivity | assumption].
      * cbn [andb].
        exists (pre2 198 b), (Str.of_nat c ++ "." ++ Str.of_nat d).
        split; [apply dotted_pre2|].
        apply (second_octets_decided 198 b nowhere (fun b => b =? 51)%nat);
          [vm_compute; reflexivity | assumption | exact E51].
    + change (mem_nat 203 whole_octets) with false. cbv iota.
      change (203 =? 100)%nat with false. change (203 =? 169)%nat with false.
      change (203 =? 172)%nat with false. change (203 =? 192)%nat with false.
      change (203 =? 198)%nat with false. change (203 =? 203)%nat with true.
      cbv iota.
      destruct (b =? 0)%nat eqn:E0.
      * apply Nat.eqb_eq in E0. subst b. cbn [andb].
        exists (pre3 203 0 c), (Str.of_nat d). split; [apply dotted_pre3|].
        apply (third_octets_decided 203 0 c (fun c => c =? 113)%nat);
          [vm_compute; reflexivity | assumption].
      * cbn [andb].
        exists (pre2 203 b), (Str.of_nat c ++ "." ++ Str.of_nat d).
        split; [apply dotted_pre2|].
        apply (second_octets_decided 203 b nowhere (fun b => b =? 0)%nat);
          [vm_compute; reflexivity | assumption | exact E0].
  - exists (pre1 a), (Str.of_nat b ++ "." ++ Str.of_nat c ++ "." ++ Str.of_nat d).
    split; [apply dotted_pre1|].
    pose proof (first_octets_decided a Ha Hsplit) as H.
    destruct (mem_nat a whole_octets); [exact H|].
    cbn in Hsplit. repeat (apply orb_false_elim in Hsplit as [? Hsplit]).
    repeat match goal with
           | E : (a =? _)%nat = false |- _ => rewrite E; clear E
           end.
    exact H.
Qed.
Lemma listed_rejected URL_parse url p a b c d :
  URL_parse url = Some p ->
  (a < 256)%nat -> (b < 256)%nat -> (c < 256)%nat -> (d < 256)%nat ->
  hostname p = dotted a b c d ->
  listed a b c = true ->
  valid (validateWebhookUrl URL_parse url) = false.
Proof.
  intros Hp Ha Hb Hc Hd Hhost Hl.
  destruct (listed_decided a b c d Ha Hb Hc Hd) as (prefix & rest & Hsplit & Hdec).
  rewrite Hl in Hdec.
  now apply (rejected_by_prefix _ _ _ a b c d prefix rest Hp).
Qed.

(** X1. The private ranges of RFC 1918: every dotted quad in 10.0.0.0/8,
    172.16.0.0/12 and 192.168.0.0/16 is refused, whatever the scheme, the
    port, the path or the credentials of the URL. *)
Theorem validateWebhookUrl_refuses_rfc1918 URL_parse url p a b c d :
  URL_parse url = Some p ->
  (a < 256)%nat -> (b < 256)%nat -> (c < 256)%nat -> (d < 256)%nat ->
  hostname p = dotted a b c d ->
  a = 10%nat \/ (a = 172%nat /\ (16 <= b <= 31)%nat) \/ (a = 192%nat /\ b = 168%nat) ->
  valid (validateWebhookUrl URL_parse url) = false.
Proof.
  intros Hp Ha Hb Hc Hd Hhost Hblock.
  apply (listed_rejected _ _ _ a b c d Hp); try assumption.
  destruct Hblock as [-> | [[-> [Hlo Hhi]] | [-> ->]]]; try reflexivity.
  cbn. unfold between.
  apply Nat.leb_le in Hlo, Hhi. now rewrite Hlo, Hhi.
Qed.

Lemma validateWebhookUrl_refuses_rfc1918_witness :
  valid (validateWebhookUrl Sample.URL_parse "http://10.0.0.8/") = false.
Proof.
  apply (validateWebhookUrl_refuses_rfc1918 Sample.URL_parse "http://10.0.0.8/"
           (Sample.http_host "10.0.0.8") 10 0 0 8).
  - reflexivity.
  - lia.
  - lia.
  - lia.
  - lia.
  - reflexivity.
  - left. reflexivity.
Defined.

(** X2. Loopback, link-local, "this network" and the documentation nets: every
    dotted quad in 127.0.0.0/8, 169.254.0.0/16, 0.0.0.0/8, 192.0.0.0/24,
    192.0.2.0/24, 198.51.100.0/24 and 203.0.113.0/24 is refused, whatever
    else the URL holds. *)
Theorem validateWebhookUrl_refuses_special_purpose URL_parse url p a b c d :
  URL_parse url = Some p ->
  (a < 256)%nat -> (b < 256)%nat -> (c < 256)%nat -> (d < 256)%nat ->
  hostname p = dotted a b c d ->
  a = 127%nat \/ a = 0%nat \/ (a = 169%nat /\ b = 254%nat)
  \/ (a = 192%nat /\ b = 0%nat /\ (c = 0%nat \/ c = 2%nat))
  \/ (a = 198%nat /\ b = 51%nat /\ c = 100%nat)
  \/ (a = 203%nat /\ b = 0%nat /\ c = 113%nat) ->
  valid (validateWebhookUrl URL_parse url) = false.
Proof.
  intros Hp Ha Hb Hc Hd Hhost Hblock.
  apply (listed_rejected _ _ _ a b c d Hp); try assumption.
  destruct Hblock
    as [-> | [-> | [[-> ->] | [(-> & -> & [-> | ->]) | [(-> & -> & ->) | (-> & -> & ->)]]]]];
    reflexivity.
Qed.

Lemma validateWebhookUrl_refuses_special_purpose_witness :
  valid (validateWebhookUrl (answering (Sample.http_host "169.254.10.20"))
           "http://169.254.10.20:8080/latest") = false.
Proof.
  apply (validateWebhookUrl_refuses_special_purpose _ _
           (Sample.http_host "169.254.10.20") 169 254 10 20).
  - reflexivity.
  - lia.
  - lia.
  - lia.
  - lia.
  - reflexivity.
  - right. right. left. split; reflexivity.
Defined.

(** X3. The IPv4 literals the guard stops, exactly: an http(s) URL without
    credentials whose host is a dotted quad is valid if and only if the
    quad is not [listed]; the listed quads are those of the carrier-grade
    NAT block with second octet 64-107, 110-117 or 120-127, of 224.x.x.x,
    240.x.x.x and 255.x.x.x, and of the private and special-purpose blocks. *)
Theorem validateWebhookUrl_ipv4_exact URL_parse url p a b c d :
  url <> EmptyString ->
  URL_parse url = Some p ->
  protocol p = "http:" \/ protocol p = "https:" ->
  username p = EmptyString ->
  password p = EmptyString ->
  (a < 256)%nat -> (b < 256)%nat -> (c < 256)%nat -> (d < 256)%nat ->
  hostname p = dotted a b c d ->
  valid (validateWebhookUrl URL_parse url) = negb (listed a b c).
Proof.
  intros Hne Hp Hproto Hu Hpw Ha Hb Hc Hd Hhost.
  destruct (listed_decided a b c d Ha Hb Hc Hd) as (prefix & rest & Hsplit & Hdec).
  now apply (decided_verdict URL_parse url p a b c d prefix rest).
Qed.

Lemma validateWebhookUrl_ipv4_exact_witness :
  valid (validateWebhookUrl (answering (Sample.http_host "172.32.0.1"))
           "http://172.32.0.1/") = true.
Proof.
  apply (validateWebhookUrl_ipv4_exact _ "http://172.32.0.1/"
           (Sample.http_host "172.32.0.1") 172 32 0 1).
  - discriminate.
  - reflexivity.
  - left. reflexivity.
  - reflexivity.
  - reflexivity.
  - lia.
  - lia.
  - lia.
  - lia.
  - reflexivity.
Defined.

(** X4. What an accepted URL is: it is not empty, it parses, its scheme is http
    or https, its lower-cased hostname is none of [BLOCKED_HOSTNAMES] and it
    carries neither a user name nor a password; and a refusal always comes
    with an error message. *)
Theorem validateWebhookUrl_accepts_only URL_parse url :
  (valid (validateWebhookUrl URL_parse url) = true ->
   url <> EmptyString
   /\ exists p,
        URL_parse url = Some p
        /\ (protocol p = "http:" \/ protocol p = "https:")
        /\ ~ In (Str.toLowerCase (hostname p)) BLOCKED_HOSTNAMES
        /\ username p = EmptyString
        /\ password p = EmptyString)
  /\ (valid (validateWebhookUrl URL_parse url) = false ->
      exists msg, error (validateWebhookUrl URL_parse url) = Some msg).
Proof.
  unfold validateWebhookUrl.
  destruct (String.eqb url EmptyString) eqn:Hne;
    [split; [discriminate | intros _; eexists; reflexivity]|].
  apply String.eqb_neq in Hne.
  destruct (URL_parse url) as [p|];
    [|split; [discriminate | intros _; eexists; reflexivity]].
  destruct (Str.mem (protocol p) ["http:"; "https:"]) eqn:Hproto; cbn [negb];
    [|split; [discriminate | intros _; eexists; reflexivity]].
  cbv zeta.
  destruct (Str.mem (Str.toLowerCase (hostname p)) BLOCKED_HOSTNAMES) eqn:Hname;
    [split; [discriminate | intros _; eexists; reflexivity]|].
  destruct (test ipv4_pattern _ && in_blocked_range _);
    [split; [discriminate | intros _; eexists; reflexivity]|].
  destruct ((Str.startsWith "[" _ || Str.includes ":" _) && in_blocked_range _);
    [split; [discriminate | intros _; eexists; reflexivity]|].
  destruct (String.eqb (username p) EmptyString) eqn:Hu; cbn [negb orb];
    [|split; [discriminate | intros _; eexists; reflexivity]].
  destruct (String.eqb (password p) EmptyString) eqn:Hpw; cbn [negb];
    [|split; [discriminate | intros _; eexists; reflexivity]].
  split; [|discriminate]. intros _. split; [exact Hne|]. exists p.
  apply String.eqb_eq in Hu, Hpw.
  repeat split; try assumption.
  - unfold Str.mem in Hproto. cbn in Hproto.
    destruct (String.eqb (protocol p) "http:") eqn:E1;
      [left; now apply String.eqb_eq|].
    destruct (String.eqb (protocol p) "https:") eqn:E2;
      [right; now apply String.eqb_eq | discriminate].
  - intro Hin. unfold Str.mem in Hname.
    assert (H : existsb (String.eqb (Str.toLowerCase (hostname p))) BLOCKED_HOSTNAMES
                = true).
    { apply existsb_exists. eexists. split; [exact Hin | apply String.eqb_refl]. }
    congruence.
Qed.

Lemma validateWebhookUrl_accepts_only_witness :
  exists p,
    Sample.URL_parse "https://api.example.com/hook" = Some p
    /\ ~ In (Str.toLowerCase (hostname p)) BLOCKED_HOSTNAMES.
Proof.
  destruct (validateWebhookUrl_accepts_only Sample.URL_parse
              "https://api.example.com/hook") as [H _].
  destruct (H eq_refl) as (_ & p & Hp & _ & Hname & _).
  exists p. split; assumption.
Defined.

End GuardBlocks.


(** ** Retry orchestrator: the course of a dispatch *)

Module FlowFacts.
Import Js Http Executor Retry Flow.

Section WithLibraries.

Variable URL_parse : string -> option Guard.ParsedUrl.
Variable Handlebars_render : string -> value -> option string.
Variable JSON_parse : string -> option value.
Variable JSON_stringify : value -> string.
Variable String_of : value -> string.
Variable axios : nat -> Request.t -> outcome * Z.
Variable Math_random : nat -> float.
Variable Math_pow : float -> float -> float.

Local Notation executeSingleRequest :=
  (Executor.executeSingleRequest URL_parse Handlebars_render JSON_parse
     JSON_stringify String_of axios).
Local Notation build_request :=
  (Executor.build_request Handlebars_render JSON_parse).
Local Notation retry_loop :=
  (Retry.retry_loop URL_parse Handlebars_render JSON_parse JSON_stringify
     String_of axios Math_random Math_pow).
Local Notation executeWebhook :=
  (Retry.executeWebhook URL_parse Handlebars_render JSON_parse JSON_stringify
     String_of axios Math_random Math_pow).
Local Notation calculateBackoffDelay := (Retry.calculateBackoffDelay Math_random Math_pow).
Local Notation cappedDelay := (Retry.cappedDelay Math_pow).
Local Notation backoff := (Retry.backoff Math_random Math_pow).
Local Notation delay_for := (Flow.delay_for Math_random Math_pow).
Local Notation waits := (Flow.waits Math_random Math_pow).
Local Notation url_valid config context :=
  (Guard.valid (Guard.validateWebhookUrl URL_parse
     (Template.processTemplate Handlebars_render (Config.url config) context))).

(** what the wait before an iteration does to the world *)
Lemma backoff_world attempt retry w :
  let w1 := snd (backoff attempt retry w) in
  requests w1 = requests w
  /\ (if (0 <? attempt)%Z
      then sleeps w1 = (sleeps w ++ [delay_for retry (attempt - 1) (draws w)])%list
           /\ draws w1 = S (draws w)
      else sleeps w1 = sleeps w /\ draws w1 = draws w).
Proof.
  unfold Retry.backoff, Retry.calculateBackoffDelay, random, sleep, bind, ret.
  destruct (0 <? attempt)%Z; cbn; repeat split; reflexivity.
Qed.

(** what an attempt with validation skipped does to the world *)
Lemma attempt_world config context timeout w :
  let w2 := snd (executeSingleRequest config context timeout true w) in
  requests w2 = (requests w ++ [build_request config context timeout])%list
  /\ sleeps w2 = sleeps w /\ draws w2 = draws w.
Proof.
  split; [apply ExecutorFacts.executeSingleRequest_requests; left; reflexivity|].
  unfold Executor.executeSingleRequest, bind, ret, Date_now, await_axios. cbn.
  destruct (axios _ _) as [[response | err] elapsed]; cbn.
  - split; reflexivity.
  - destruct (_ || _); split; reflexivity.
Qed.

Lemma repeat_snoc {A : Type} (x : A) n : (repeat x n ++ [x])%list = x :: repeat x n.
Proof. induction n; cbn; congruence. Qed.

(** Trace of the loop: every iteration sends the same request, and waits
    before it exactly when its index is positive. *)
Lemma retry_loop_trace config context timeout retry t0 n :
  forall a last attempts w exit w',
    List.length attempts = a ->
    retry_loop config context timeout retry t0
      (map Z.of_nat (seq a n)) last attempts w = (exit, w') ->
    let l := match exit with
             | Returned r => match Dispatch.attempts r with Some l => l | None => [] end
             | Fell_through _ l => l
             end in
    let m := (List.length l - a)%nat in
    requests w' = (requests w ++ repeat (build_request config context timeout) m)%list
    /\ sleeps w' = (sleeps w ++ waits retry a m (draws w))%list
    /\ draws w' = (draws w + List.length (waits retry a m (draws w)))%nat.
Proof.
  induction n as [|n IH]; intros a last attempts w exit w' Hlen Hrun; cbv zeta.
  - cbn in Hrun. inversion Hrun; subst. rewrite Nat.sub_diag. cbn.
    rewrite !app_nil_r. repeat split. lia.
  - cbn [seq map] in Hrun. rewrite RetryFacts.retry_loop_step in Hrun.
    cbv zeta in Hrun.
    destruct (backoff_world (Z.of_nat a) retry w) as (Hb1 & Hb2).
    cbv zeta in Hb1, Hb2.
    set (w1 := snd (backoff (Z.of_nat a) retry w)) in *.
    destruct (attempt_world config context timeout w1) as (Ha1 & Ha2 & Ha3).
    cbv zeta in Ha1, Ha2, Ha3.
    destruct (executeSingleRequest config context timeout true w1) as [result w2].
    cbn [snd] in Ha1, Ha2, Ha3.
    assert (Hone : forall l : list Attempt.t,
               List.length l = S a ->
               requests w2 = (requests w ++ repeat (build_request config context timeout)
                                (List.length l - a))%list
               /\ sleeps w2 = (sleeps w ++ waits retry a (List.length l - a) (draws w))%list
               /\ draws w2 = (draws w + List.length
                                          (waits retry a (List.length l - a) (draws w)))%nat).
    { intros l Hl. rewrite Hl. replace (S a - a)%nat with 1%nat by lia.
      cbn [repeat Flow.waits]. rewrite Ha1, Ha2, Ha3, Hb1.
      destruct (0 <? Z.of_nat a)%Z; destruct Hb2 as [Hs Hd]; rewrite Hs, Hd;
        cbn [List.length]; rewrite ?app_nil_r; repeat split; lia. }
    destruct (Result.success result).
    + inversion Hrun; subst. cbn [Dispatch.attempts].
      apply Hone. rewrite length_app. cbn. lia.
    + destruct (_ && _).
      * pose proof Hrun as Hcnt.
        apply RetryFacts.retry_loop_counts with (a := S a) in Hcnt;
          [|rewrite length_app; cbn; lia].
        apply IH in Hrun; [|rewrite length_app; cbn; lia].
        cbv zeta in Hrun. destruct Hrun as (Hr & Hs & Hd).
        set (l := match exit with
                  | Returned r => match Dispatch.attempts r with
                                  | Some l => l | None => [] end
                  | Fell_through _ l => l
                  end) in *.
        assert (Hge : (S a <= List.length l)%nat).
        { subst l. destruct exit as [r | last' l'].
          - destruct Hcnt as (l0 & Hl0 & _ & Hlt & _). rewrite Hl0. lia.
          - destruct Hcnt as (_ & Hle & _). exact Hle. }
        replace (List.length l - a)%nat with (S (List.length l - S a)) by lia.
        cbn [repeat Flow.waits].
        rewrite Hr, Hs, Hd, Ha1, Ha2, Ha3, Hb1.
        destruct (0 <? Z.of_nat a)%Z;
          destruct Hb2 as [Hs' Hd']; rewrite Hs', Hd';
          rewrite <- ?app_assoc; cbn [app List.length];
          repeat split; try reflexivity; lia.
      * inversion Hrun; subst. apply Hone. rewrite length_app. cbn. lia.
Qed.

(** the records added never outnumber the indices given *)
Lemma retry_loop_bound config context timeout retry t0 n :
  forall a last attempts w exit w',
    List.length attempts = a ->
    retry_loop config context timeout retry t0
      (map Z.of_nat (seq a n)) last attempts w = (exit, w') ->
    match exit with
    | Returned r =>
        exists l, Dispatch.attempts r = Some l /\ (List.length l <= a + n)%nat
    | Fell_through _ l => (List.length l <= a + n)%nat
    end.
Proof.
  induction n as [|n IH]; intros a last attempts w exit w' Hlen Hrun.
  - cbn in Hrun. inversion Hrun; subst. lia.
  - cbn [seq map] in Hrun. rewrite RetryFacts.retry_loop_step in Hrun.
    cbv zeta in Hrun.
    destruct (executeSingleRequest config context timeout true _) as [result w2].
    destruct (Result.success result).
    + inversion Hrun; subst. eexists. split; [reflexivity|].
      rewrite length_app. cbn. lia.
    + destruct (_ && _).
      * apply IH in Hrun; [|rewrite length_app; cbn; lia].
        destruct exit as [r | last' l].
        -- destruct Hrun as (l & Hl & Hle). exists l. split; [exact Hl | lia].
        -- lia.
      * inversion Hrun; subst. rewrite length_app. cbn. lia.
Qed.

Lemma waits_after retry m : forall a d,
  waits retry (S a) m d
  = map (fun j => delay_for retry (Z.of_nat (a + j)) (d + j)) (seq 0 m).
Proof.
  induction m as [|m IH]; intros a d; [reflexivity|].
  cbn [Flow.waits seq map].
  replace (0 <? Z.of_nat (S a))%Z with true by (symmetry; apply Z.ltb_lt; lia).
  rewrite IH, <- seq_shift, map_map.
  f_equal.
  - f_equal; [f_equal; lia | f_equal; lia].
  - apply map_ext. intro j. f_equal; [f_equal; lia | lia].
Qed.

(** from index 0 on: no wait before the first attempt, then one per retry *)
Lemma waits_from_start retry m d :
  waits retry 0 m d
  = map (fun j => delay_for retry (Z.of_nat j) (d + j)) (seq 0 (m - 1)).
Proof.
  destruct m as [|m]; [reflexivity|].
  cbn [Flow.waits Z.of_nat Z.ltb Z.compare]. rewrite waits_after.
  replace (S m - 1)%nat with m by lia. reflexivity.
Qed.

(** X6. The requests and timers of a dispatch. With a valid URL and
    [maxRetries >= 1], whatever the destination does: between 1 and
    [maxRetries + 1] requests go out, all of them the request built from
    the config; the dispatch sleeps once before every request but the
    first, for the delay computed at exponent 0, 1, 2, ... with one jitter
    draw each. With [maxRetries = 0] one request goes out and nothing is
    slept or drawn. *)
Theorem executeWebhook_trace config context timeout retryConfig w :
  url_valid config context = true ->
  let retry := merge_retry retryConfig in
  let request := build_request config context timeout in
  let out := executeWebhook config context timeout retryConfig w in
  (1 <= Policy.maxRetries retry ->
   exists l, Dispatch.attempts (fst out) = Some l
     /\ (1 <= List.length l)%nat
     /\ Z.of_nat (List.length l) <= Policy.maxRetries retry + 1
     /\ requests (snd out) = (requests w ++ repeat request (List.length l))%list
     /\ sleeps (snd out)
        = (sleeps w ++ map (fun j => delay_for retry (Z.of_nat j) (draws w + j))
                           (seq 0 (List.length l - 1)))%list
     /\ draws (snd out) = (draws w + (List.length l - 1))%nat)
  /\ (Policy.maxRetries retry = 0 ->
      requests (snd out) = (requests w ++ [request])%list
      /\ sleeps (snd out) = sleeps w /\ draws (snd out) = draws w).
Proof.
  intros Hv retry request out. split.
  - intro Hmax. subst out.
    rewrite (RetryFacts.executeWebhook_retrying _ _ _ _ _ _ _ _ _ _ _ _ _ Hv)
      by (fold retry; lia).
    cbv zeta. fold retry. rewrite RetryFacts.attempt_indices_seq.
    destruct (retry_loop _ _ _ _ _ _ _ _ _) as [exit w'] eqn:Hrun.
    pose proof (retry_loop_trace _ _ _ _ _ _ _ _ _ _ _ _ (eq_refl : List.length [] = 0%nat) Hrun)
      as Htrace.
    pose proof (retry_loop_bound _ _ _ _ _ _ _ _ _ _ _ _ (eq_refl : List.length [] = 0%nat) Hrun)
      as Hbound.
    pose proof Hrun as Hcount.
    apply RetryFacts.retry_loop_counts with (a := 0%nat) in Hcount; [|reflexivity].
    cbv zeta in Htrace. rewrite waits_from_start, length_map, length_seq in Htrace.
    destruct exit as [r | last l]; cbn [fst snd].
    + destruct Hbound as (l & Hl & Hle). rewrite Hl in Htrace.
      destruct Hcount as (l' & Hl' & _ & Hpos & _).
      assert (l' = l) by congruence. subst l'.
      rewrite Nat.sub_0_r in Htrace. destruct Htrace as (Hr & Hs & Hd).
      exists l. repeat split; try assumption; lia.
    + destruct Hcount as (Hpos & _).
      rewrite Nat.sub_0_r in Htrace. destruct Htrace as (Hr & Hs & Hd).
      exists l. cbn [Dispatch.attempts].
      repeat split; try assumption; lia.
  - intro H0. subst out.
    rewrite (RetryFacts.executeWebhook_single _ _ _ _ _ _ _ _ _ _ _ _ _ Hv H0).
    destruct (attempt_world config context timeout w) as (Hr & Hs & Hd).
    cbv zeta in Hr, Hs, Hd.
    destruct (executeSingleRequest config context timeout true w) as [r w'].
    cbn [fst snd] in *. repeat split; assumption.
Qed.

(** how the loop reads the result of an attempt, in terms of what axios
    settled to *)
Lemma attempt_verdict config context timeout retry w :
  let o := fst (axios (List.length (requests w)) (build_request config context timeout)) in
  let result := fst (executeSingleRequest config context timeout true w) in
  Result.success result = successful o
  /\ (Result.success result = false ->
      isRetryable result (Result.error result) retry = retryable retry o).
Proof.
  cbv zeta.
  destruct (axios (List.length (requests w)) (build_request config context timeout))
    as [[response | err] elapsed] eqn:Hax; cbn [fst].
  - destruct (ExecutorFacts.executeSingleRequest_responded URL_parse Handlebars_render
                JSON_parse JSON_stringify String_of axios config context timeout true w
                response elapsed (or_introl eq_refl) Hax) as (Hs & Hst & Hc & He).
    cbv zeta in *. split; [exact Hs|]. intro Hfail.
    unfold isRetryable, retryable. rewrite He, Hc, Hst, Hfail. cbn.
    destruct (negb _ && existsb _ _); reflexivity.
  - destruct (ExecutorFacts.executeSingleRequest_threw URL_parse Handlebars_render
                JSON_parse JSON_stringify String_of axios config context timeout true w
                err elapsed (or_introl eq_refl) Hax) as (Hs & Hst & Hc & He).
    cbv zeta in *. split; [exact Hs|]. intros _.
    unfold isRetryable, retryable. rewrite He, Hc, Hst.
    destruct (Failure.code err) as [c|]; cbn.
    + destruct (Str.mem c (Policy.retryableErrors retry)); cbn; [reflexivity|].
      destruct (String.eqb c "ECONNABORTED" || _); reflexivity.
    + destruct (Str.includes "timeout" (Failure.message err)); reflexivity.
Qed.

Lemma verdict_retries retry o :
  verdict_of retry o = Retries <-> successful o = false /\ retryable retry o = true.
Proof.
  unfold verdict_of. destruct (successful o), (retryable retry o);
    intuition discriminate.
Qed.

(** The loop stops at the first attempt that does not call for a retry, or
    at the last index. *)
Lemma retry_loop_stops config context timeout retry t0 k :
  forall a n last attempts w,
    List.length attempts = a ->
    (k < n)%nat ->
    Z.of_nat (a + k) <= Policy.maxRetries retry ->
    (forall i, (i < k)%nat ->
       verdict_of retry
         (fst (axios (List.length (requests w) + i) (build_request config context timeout)))
       = Retries) ->
    verdict_of retry
      (fst (axios (List.length (requests w) + k) (build_request config context timeout)))
    <> Retries
    \/ Z.of_nat (a + k) = Policy.maxRetries retry ->
    exists exit w',
      retry_loop config context timeout retry t0
        (map Z.of_nat (seq a n)) last attempts w = (exit, w')
      /\ let o := fst (axios (List.length (requests w) + k)
                         (build_request config context timeout)) in
         match exit with
         | Returned r =>
             successful o = true
             /\ exists l res,
                  Dispatch.attempts r = Some l
                  /\ List.length l = (a + k + 1)%nat
                  /\ Dispatch.retriesUsed r = Some (Z.of_nat (a + k))
                  /\ Dispatch.base r = Some res
                  /\ Result.success res = true
                  /\ Dispatch.maxRetriesReached r = None
         | Fell_through last' l =>
             successful o = false
             /\ List.length l = (a + k + 1)%nat
             /\ exists res, last' = Some res /\ Result.success res = false
         end.
Proof.
  induction k as [|k IH]; intros a n last attempts w Hlen Hn Hmax Hretry Hstop.
  - destruct n as [|n]; [lia|]. cbn [seq map]. rewrite RetryFacts.retry_loop_step.
    cbv zeta.
    destruct (backoff_world (Z.of_nat a) retry w) as (Hb & _). cbv zeta in Hb.
    destruct (attempt_verdict config context timeout retry
                (snd (backoff (Z.of_nat a) retry w))) as (Hs & Hr).
    cbv zeta in Hs, Hr. rewrite Hb in Hs, Hr. rewrite Nat.add_0_r in *.
    destruct (executeSingleRequest config context timeout true _) as [result w2].
    cbn [fst] in Hs, Hr.
    destruct (Result.success result) eqn:Hsucc.
    + eexists _, _. split; [reflexivity|]. split; [now rewrite <- Hs|].
      eexists _, _. rewrite length_app. cbn.
      repeat split; try reflexivity; try assumption;
        rewrite ?Nat.add_0_r; cbn [List.length]; try reflexivity; lia.
    + rewrite (Hr eq_refl).
      assert (Hno : (Z.of_nat a <? Policy.maxRetries retry)%Z
                    && retryable retry
                         (fst (axios (List.length (requests w))
                                 (build_request config context timeout))) = false).
      { destruct Hstop as [Hstop | Hstop].
        - rewrite verdict_retries in Hstop.
          destruct (retryable retry _); [|apply andb_false_r].
          exfalso. apply Hstop. split; [now rewrite <- Hs | reflexivity].
        - replace (Z.of_nat a <? Policy.maxRetries retry)%Z with false; [reflexivity|].
          symmetry. apply Z.ltb_ge. lia. }
      rewrite Hno. eexists _, _. split; [reflexivity|].
      split; [now rewrite <- Hs|]. rewrite length_app. cbn.
      split; [lia|]. eexists. split; [reflexivity | exact Hsucc].
  - destruct n as [|n]; [lia|]. cbn [seq map]. rewrite RetryFacts.retry_loop_step.
    cbv zeta.
    destruct (backoff_world (Z.of_nat a) retry w) as (Hb & _). cbv zeta in Hb.
    destruct (attempt_verdict config context timeout retry
                (snd (backoff (Z.of_nat a) retry w))) as (Hs & Hr).
    destruct (attempt_world config context timeout
                (snd (backoff (Z.of_nat a) retry w))) as (Hw & _).
    cbv zeta in Hs, Hr, Hw. rewrite Hb in Hs, Hr, Hw.
    pose proof (Hretry 0%nat ltac:(lia)) as H0. rewrite Nat.add_0_r in H0.
    apply verdict_retries in H0 as [H0s H0r].
    destruct (executeSingleRequest config context timeout true _) as [result w2].
    cbn [fst snd] in Hs, Hr, Hw.
    rewrite H0s in Hs. rewrite Hs, (Hr Hs), H0r.
    replace (Z.of_nat a <? Policy.maxRetries retry)%Z with true
      by (symmetry; apply Z.ltb_lt; lia).
    cbn [andb].
    assert (Hreq : List.length (requests w2) = S (List.length (requests w)))
      by (rewrite Hw, length_app; cbn; lia).
    destruct (IH (S a) n (Some result)
                 (attempts ++ [record_of (Z.of_nat a) result])%list w2)
      as (exit & w' & Hrun & Hexit).
    + rewrite length_app. cbn. lia.
    + lia.
    + lia.
    + intros i Hi. rewrite Hreq.
      replace (S (List.length (requests w)) + i)%nat
        with (List.length (requests w) + S i)%nat by lia.
      apply Hretry. lia.
    + rewrite Hreq.
      replace (S (List.length (requests w)) + k)%nat
        with (List.length (requests w) + S k)%nat by lia.
      destruct Hstop as [Hstop | Hstop]; [left; exact Hstop | right; lia].
    + exists exit, w'. split; [exact Hrun|]. cbv zeta in Hexit |- *.
      rewrite Hreq in Hexit.
      replace (S (List.length (requests w)) + k)%nat
        with (List.length (requests w) + S k)%nat in Hexit by lia.
      replace (S a + k)%nat with (a + S k)%nat in Hexit by lia.
      exact Hexit.
Qed.

(** X7. The course of a dispatch, read off what the destination does. With a
    valid URL and [maxRetries >= 1]: if the first [k] attempts each call
    for a retry (a failure that [isRetryable] accepts) and attempt [k + 1]
    either does not or is the last one allowed ([k = maxRetries]), then
    exactly [k + 1] requests are issued, the result carries [k + 1] attempt
    records and [retriesUsed = k], and it is a success exactly when attempt
    [k + 1] got a 2xx response; [maxRetriesReached] is absent on success and
    otherwise tells whether [k = maxRetries]. *)
Theorem executeWebhook_stops_at config context timeout retryConfig w k :
  url_valid config context = true ->
  let retry := merge_retry retryConfig in
  let request := build_request config context timeout in
  let settled i := fst (axios (List.length (requests w) + i) request) in
  1 <= Policy.maxRetries retry ->
  Z.of_nat k <= Policy.maxRetries retry ->
  (forall i, (i < k)%nat -> verdict_of retry (settled i) = Retries) ->
  verdict_of retry (settled k) <> Retries \/ Z.of_nat k = Policy.maxRetries retry ->
  let out := executeWebhook config context timeout retryConfig w in
  List.length (requests (snd out)) = (List.length (requests w) + k + 1)%nat
  /\ Dispatch.retriesUsed (fst out) = Some (Z.of_nat k)
  /\ (exists l, Dispatch.attempts (fst out) = Some l /\ List.length l = (k + 1)%nat)
  /\ (exists res, Dispatch.base (fst out) = Some res
                  /\ Result.success res = successful (settled k))
  /\ Dispatch.maxRetriesReached (fst out)
     = (if successful (settled k) then None
        else Some (Z.of_nat k =? Policy.maxRetries retry)%Z).
Proof.
  intros Hv retry request settled Hmax Hk Hretry Hstop out. subst out.
  rewrite (RetryFacts.executeWebhook_retrying _ _ _ _ _ _ _ _ _ _ _ _ _ Hv)
    by (fold retry; lia).
  cbv zeta. fold retry. rewrite RetryFacts.attempt_indices_seq.
  destruct (retry_loop_stops config context timeout retry (clock w) k 0
              (Z.to_nat (Policy.maxRetries retry + 1)) None [] w
              eq_refl ltac:(lia) Hk Hretry Hstop)
    as (exit & w' & Hrun & Hexit).
  rewrite Hrun.
  pose proof Hrun as Hcount.
  apply RetryFacts.retry_loop_counts with (a := 0%nat) in Hcount; [|reflexivity].
  cbv zeta in Hexit. fold request in Hexit. fold (settled k) in Hexit.
  destruct exit as [r | last l]; cbn [fst snd].
  - destruct Hexit as (Hsucc & l & res & Hl & Hlen & Hused & Hbase & Hres & Hreached).
    destruct Hcount as (l' & Hl' & _ & _ & Hreq).
    assert (l' = l) by congruence. subst l'.
    rewrite Hsucc. cbn [Nat.add] in *.
    repeat split; try assumption.
    + lia.
    + exists l. split; [exact Hl | exact Hlen].
    + exists res. split; [exact Hbase | exact Hres].
  - destruct Hexit as (Hsucc & Hlen & res & -> & Hres).
    destruct Hcount as (_ & _ & Hreq).
    rewrite Hsucc. cbn [Nat.add Dispatch.retriesUsed Dispatch.attempts
                         Dispatch.base Dispatch.maxRetriesReached] in *.
    repeat split.
    + lia.
    + f_equal. lia.
    + exists l. split; [reflexivity | exact Hlen].
    + exists res. split; [reflexivity | exact Hres].
    + f_equal. rewrite Hlen.
      destruct (Z.of_nat k =? Policy.maxRetries retry)%Z eqn:E.
      * apply Z.eqb_eq in E. apply Z.ltb_lt. lia.
      * apply Z.eqb_neq in E. apply Z.ltb_ge. lia.
Qed.

Lemma numbered_snoc l : forall first r,
  numbered first l ->
  Attempt.attempt r = first + Z.of_nat (List.length l) ->
  numbered first (l ++ [r]).
Proof.
  induction l as [|x l IH]; intros first r Hnum Hr; cbn in *.
  - split; [lia | exact I].
  - destruct Hnum as [Hx Hrest]. split; [exact Hx|].
    apply IH; [exact Hrest | lia].
Qed.

Lemma mirrors_record before attempt result :
  mirrors (before ++ [record_of attempt result]) result.
Proof. exists before, (record_of attempt result). repeat split. Qed.

(** the records of the loop: numbered in order, the last one taken from
    the result the loop ends with *)
Lemma retry_loop_records config context timeout retry t0 n :
  forall a last attempts w exit w',
    List.length attempts = a ->
    numbered 1 attempts ->
    (forall res, last = Some res -> mirrors attempts res) ->
    retry_loop config context timeout retry t0
      (map Z.of_nat (seq a n)) last attempts w = (exit, w') ->
    match exit with
    | Returned r =>
        exists l res,
          Dispatch.attempts r = Some l /\ Dispatch.base r = Some res
          /\ numbered 1 l /\ mirrors l res
    | Fell_through last' l =>
        numbered 1 l
        /\ (forall res, last' = Some res -> mirrors l res)
        /\ (last <> None \/ n <> 0%nat -> exists res, last' = Some res)
    end.
Proof.
  induction n as [|n IH]; intros a last attempts w exit w' Hlen Hnum Hmir Hrun.
  - cbn in Hrun. inversion Hrun; subst. repeat split; try assumption.
    intros [H | H]; [|congruence]. destruct last as [res|]; [now exists res | congruence].
  - cbn [seq map] in Hrun. rewrite RetryFacts.retry_loop_step in Hrun.
    cbv zeta in Hrun.
    destruct (executeSingleRequest config context timeout true _) as [result w2].
    assert (Hnum' : numbered 1 (attempts ++ [record_of (Z.of_nat a) result])).
    { apply numbered_snoc; [exact Hnum|].
      unfold record_of. cbn [Attempt.attempt]. lia. }
    destruct (Result.success result).
    + inversion Hrun; subst. eexists _, _.
      repeat split; try reflexivity; [exact Hnum' | apply mirrors_record].
    + destruct (_ && _).
      * apply IH in Hrun.
        -- destruct exit as [r | last' l]; [exact Hrun|].
           destruct Hrun as (H1 & H2 & H3). repeat split; try assumption.
           intros _. apply H3. left. discriminate.
        -- rewrite length_app. cbn. lia.
        -- exact Hnum'.
        -- intros res Hres. inversion Hres; subst. apply mirrors_record.
      * inversion Hrun; subst. repeat split; try assumption.
        -- intros res Hres. inversion Hres; subst. apply mirrors_record.
        -- intros _. now exists result.
Qed.

Lemma numbered_nth l : forall first i r,
  numbered first l -> nth_error l i = Some r ->
  Attempt.attempt r = first + Z.of_nat i.
Proof.
  induction l as [|x l IH]; intros first i r Hnum Hnth.
  - destruct i; discriminate.
  - destruct Hnum as [Hx Hrest]. destruct i as [|i]; cbn in Hnth.
    + inversion Hnth; subst. lia.
    + rewrite (IH _ _ _ Hrest Hnth). lia.
Qed.

(** X8. The attempt history. With a valid URL and [maxRetries >= 1] the
    records are numbered 1, 2, 3, ... in the order of the attempts, and the
    last record repeats the status, HTTP status code, execution time and
    error message of the result that is returned. *)
Theorem executeWebhook_history config context timeout retryConfig w :
  url_valid config context = true ->
  1 <= Policy.maxRetries (merge_retry retryConfig) ->
  let result := fst (executeWebhook config context timeout retryConfig w) in
  exists l res,
    Dispatch.attempts result = Some l
    /\ Dispatch.base result = Some res
    /\ (forall i r, nth_error l i = Some r -> Attempt.attempt r = Z.of_nat i + 1)
    /\ mirrors l res.
Proof.
  intros Hv Hmax result. subst result.
  rewrite (RetryFacts.executeWebhook_retrying _ _ _ _ _ _ _ _ _ _ _ _ _ Hv) by lia.
  cbv zeta. rewrite RetryFacts.attempt_indices_seq.
  destruct (retry_loop _ _ _ _ _ _ _ _ _) as [exit w'] eqn:Hrun.
  apply retry_loop_records with (a := 0%nat) in Hrun;
    [|reflexivity | exact I | discriminate].
  destruct exit as [r | last l]; cbn [fst].
  - destruct Hrun as (l & res & Hl & Hb & Hnum & Hmir).
    exists l, res. repeat split; try assumption.
    intros i rec Hnth. rewrite (numbered_nth _ _ _ _ Hnum Hnth). lia.
  - destruct Hrun as (Hnum & Hmir & Hsome).
    destruct Hsome as [res ->]; [right; lia|].
    exists l, res. cbn. repeat split; try reflexivity.
    + intros i rec Hnth. rewrite (numbered_nth _ _ _ _ Hnum Hnth). lia.
    + now apply Hmir.
Qed.

(** X9. A negative [maxRetries]: the URL is validated, then the loop runs over
    no index: nothing is sent, slept or drawn, and the result has an empty
    attempt list, [retriesUsed = -1], [maxRetriesReached = true] and none
    of the keys of an attempt result ([success] is absent). *)
Theorem executeWebhook_negative_maxRetries config context timeout retryConfig w :
  url_valid config context = true ->
  Policy.maxRetries (merge_retry retryConfig) < 0 ->
  let out := executeWebhook config context timeout retryConfig w in
  snd out = w
  /\ Dispatch.attempts (fst out) = Some []
  /\ Dispatch.retriesUsed (fst out) = Some (-1)
  /\ Dispatch.maxRetriesReached (fst out) = Some true
  /\ Dispatch.base (fst out) = None.
Proof.
  intros Hv Hmax out. subst out.
  rewrite (RetryFacts.executeWebhook_retrying _ _ _ _ _ _ _ _ _ _ _ _ _ Hv) by lia.
  cbv zeta. rewrite RetryFacts.attempt_indices_seq.
  replace (Z.to_nat (Policy.maxRetries (merge_retry retryConfig) + 1)) with 0%nat by lia.
  cbn [seq map Retry.retry_loop ret fst snd List.length Z.of_nat Z.sub Z.opp
       Dispatch.attempts Dispatch.retriesUsed Dispatch.maxRetriesReached Dispatch.base].
  repeat split. f_equal. apply Z.ltb_lt. lia.
Qed.

(** X10. What [isRetryable] makes of an attempt. After an attempt with
    validation skipped, a failed result is retryable exactly when axios
    settled to a response whose status code is not 0 and is one of
    [retryableStatusCodes], or rejected with a code among [retryableErrors],
    with the code ECONNABORTED, or with a message that mentions a timeout.
    So a timeout is retried under every policy, whatever its lists hold. *)
Theorem isRetryable_after_attempt config context timeout retry w :
  let o := fst (axios (List.length (requests w)) (build_request config context timeout)) in
  let result := fst (executeSingleRequest config context timeout true w) in
  Result.success result = false ->
  isRetryable result (Result.error result) retry = retryable retry o
  /\ (Result.status result = timeout_ ->
      isRetryable result (Result.error result) retry = true).
Proof.
  intros o result Hfail.
  destruct (attempt_verdict config context timeout retry w) as (_ & Hr).
  split; [exact (Hr Hfail)|].
  intro Hto. unfold isRetryable. fold result. rewrite Hto. cbn.
  destruct (match Result.error result with Some _ => _ | None => _ end); [reflexivity|].
  destruct (match Result.httpStatusCode result with Some _ => _ | None => _ end);
    reflexivity.
Qed.

(** X11. The cap. The capped delay never exceeds [maxDelayMs], nor the
    exponential delay, and is one of the two; when one of them is not a
    number, neither is the capped delay. *)
Theorem cappedDelay_at_most_max attempt config :
  let exponentialDelay :=
    (Policy.initialDelayMs config
     * Math_pow (Policy.backoffMultiplier config) (Double.of_Z attempt))%float in
  let cap := cappedDelay attempt config in
  if is_nan exponentialDelay || is_nan (Policy.maxDelayMs config)
  then is_nan cap = true
  else (cap <=? Policy.maxDelayMs config)%float = true
       /\ (cap <=? exponentialDelay)%float = true
       /\ (cap = exponentialDelay \/ cap = Policy.maxDelayMs config).
Proof.
  intros exponentialDelay cap. subst cap. unfold Retry.cappedDelay.
  fold exponentialDelay.
  destruct (is_nan exponentialDelay || is_nan (Policy.maxDelayMs config)) eqn:Hnan.
  - unfold Math_min. rewrite Hnan. reflexivity.
  - apply orb_false_elim in Hnan as [Ha Hb].
    destruct (DoubleFacts.Math_min_le _ _ Ha Hb) as (H1 & H2 & H3).
    repeat split; assumption.
Qed.

(** X13. The default policy. For each of the retries [DEFAULT_RETRY_CONFIG]
    allows, [k = 1, 2, 3], when [Math.pow(2, k - 1)] is the power it names
    and the jitter draw is in [0, 1), the delay is a whole number of
    milliseconds within 25% of [1000 * 2^(k-1)]: rounding never leaves the
    band. *)
Theorem default_policy_delays_in_band k w :
  1 <= k <= Policy.maxRetries DEFAULT_RETRY_CONFIG ->
  Math_pow 2 (Double.of_Z (k - 1)) = Double.of_Z (2 ^ (k - 1)) ->
  (0 <=? Math_random (draws w))%float = true ->
  (Math_random (draws w) <? 1)%float = true ->
  exists d,
    Double.whole (fst (calculateBackoffDelay (k - 1) DEFAULT_RETRY_CONFIG w)) = Some d
    /\ 750 * 2 ^ (k - 1) <= d <= 1250 * 2 ^ (k - 1).
Proof.
  intros Hk Hpow Hu0 Hu1. cbn [Policy.maxRetries DEFAULT_RETRY_CONFIG] in Hk.
  rewrite RetryFacts.calculateBackoffDelay_value. cbv zeta.
  unfold Retry.cappedDelay.
  cbn [Policy.initialDelayMs Policy.maxDelayMs Policy.backoffMultiplier
       DEFAULT_RETRY_CONFIG].
  rewrite Hpow.
  set (cap := Math_min (1000 * Double.of_Z (2 ^ (k - 1)))%float 10000).
  assert (Hc : k = 1 \/ k = 2 \/ k = 3) by lia.
  assert (Hcap : Double.whole cap = Some (1000 * 2 ^ (k - 1))).
  { subst cap. destruct Hc as [-> | [-> | ->]]; vm_compute; reflexivity. }
  assert (Hn : Z.abs (1000 * 2 ^ (k - 1)) <= 2 ^ 49).
  { destruct Hc as [-> | [-> | ->]]; vm_compute; discriminate. }
  destruct (DoubleFacts.jitter_band cap _ _ Hcap Hn Hu0 Hu1) as (d & Hd & _ & H4).
  exists d. split; [exact Hd|].
  assert (Hmod : (1000 * 2 ^ (k - 1)) mod 4 = 0).
  { replace (1000 * 2 ^ (k - 1)) with (250 * 2 ^ (k - 1) * 4) by lia.
    apply Z.mod_mul. lia. }
  specialize (H4 Hmod).
  assert (0 < 2 ^ (k - 1)) by (apply Z.pow_pos_nonneg; lia).
  lia.
Qed.

End WithLibraries.

(** X5. No request to a blocked address. When the rendered URL parses to a
    host that is a listed dotted quad, neither entry point sends anything:
    [executeWebhook] returns an error with an empty attempt list and
    [executeSingleRequest], unless told to skip validation, returns an
    error; the world is left as it was. *)
Theorem dispatch_refuses_listed_ipv4
    URL_parse Handlebars_render JSON_parse JSON_stringify String_of axios Math_random
    Math_pow config context timeout retryConfig w p a b c d :
  URL_parse (Template.processTemplate Handlebars_render (Config.url config) context)
  = Some p ->
  (a < 256)%nat -> (b < 256)%nat -> (c < 256)%nat -> (d < 256)%nat ->
  Guard.hostname p = Ipv4.dotted a b c d ->
  Ipv4.listed a b c = true ->
  let out := Retry.executeWebhook URL_parse Handlebars_render JSON_parse JSON_stringify
               String_of axios Math_random Math_pow config context timeout retryConfig w in
  let single := Executor.executeSingleRequest URL_parse Handlebars_render JSON_parse
                  JSON_stringify String_of axios config context timeout false w in
  snd out = w
  /\ Dispatch.attempts (fst out) = Some []
  /\ (exists res, Dispatch.base (fst out) = Some res
                  /\ Result.success res = false /\ Result.status res = error_)
  /\ snd single = w
  /\ Result.success (fst single) = false
  /\ Result.status (fst single) = error_.
Proof.
  intros Hp Ha Hb Hc Hd Hhost Hlisted out single.
  pose proof (GuardBlocks.listed_rejected URL_parse _ p a b c d Hp Ha Hb Hc Hd Hhost
                Hlisted) as Hv.
  subst out single.
  unfold Retry.executeWebhook, Executor.executeSingleRequest, bind, ret, Date_now.
  cbn [fst snd]. rewrite Hv. cbn.
  repeat split. eexists. repeat split.
Qed.

Lemma dispatch_refuses_listed_ipv4_witness :
  Dispatch.attempts
    (fst (Retry.executeWebhook Sample.URL_parse Sample.Handlebars_render
            Sample.JSON_parse Sample.JSON_stringify Sample.String_of
            (Sample.always 200) Sample.Math_random Sample.Math_pow
            {| Config.url := "http://10.0.0.8/"; Config.method := "POST";
               Config.headers := JUndefined; Config.body := JUndefined;
               Config.params := JUndefined |}
            Sample.context 30000 Overrides.none (initial 0)))
  = Some [].
Proof.
  apply (dispatch_refuses_listed_ipv4 Sample.URL_parse Sample.Handlebars_render
           Sample.JSON_parse Sample.JSON_stringify Sample.String_of
           (Sample.always 200) Sample.Math_random Sample.Math_pow
           {| Config.url := "http://10.0.0.8/"; Config.method := "POST";
              Config.headers := JUndefined; Config.body := JUndefined;
              Config.params := JUndefined |}
           Sample.context 30000 Overrides.none (initial 0)
           (Sample.http_host "10.0.0.8") 10 0 0 8).
  - reflexivity.
  - lia.
  - lia.
  - lia.
  - lia.
  - reflexivity.
  - reflexivity.
Defined.

Lemma executeWebhook_trace_witness :
  let out := Sample.executeWebhook (Sample.always 503) Sample.hook Sample.context
               30000 (Sample.max_retries 3) (initial 0) in
  exists l,
    Dispatch.attempts (fst out) = Some l
    /\ requests (snd out)
       = repeat (Executor.build_request Sample.Handlebars_render Sample.JSON_parse
                   Sample.hook Sample.context 30000) (List.length l)
    /\ List.length (sleeps (snd out)) = (List.length l - 1)%nat.
Proof.
  destruct (executeWebhook_trace Sample.URL_parse Sample.Handlebars_render
              Sample.JSON_parse Sample.JSON_stringify Sample.String_of
              (Sample.always 503) Sample.Math_random Sample.Math_pow
              Sample.hook Sample.context 30000 (Sample.max_retries 3) (initial 0))
    as [H _].
  - vm_compute; reflexivity.
  - destruct H as (l & Hl & _ & _ & Hr & Hs & _).
    + vm_compute; discriminate.
    + exists l. split; [exact Hl|]. split; [exact Hr|].
      unfold Sample.executeWebhook. rewrite Hs.
      cbn [initial sleeps app]. now rewrite length_map, length_seq.
Defined.

Lemma executeWebhook_stops_at_witness :
  let out := Sample.executeWebhook (recovering 2) Sample.hook Sample.context
               30000 (Sample.max_retries 3) (initial 0) in
  List.length (requests (snd out)) = 3%nat
  /\ Dispatch.retriesUsed (fst out) = Some 2.
Proof.
  destruct (executeWebhook_stops_at Sample.URL_parse Sample.Handlebars_render
              Sample.JSON_parse Sample.JSON_stringify Sample.String_of
              (recovering 2) Sample.Math_random Sample.Math_pow
              Sample.hook Sample.context 30000 (Sample.max_retries 3) (initial 0) 2)
    as (Hreq & Hused & _).
  - vm_compute; reflexivity.
  - vm_compute; discriminate.
  - vm_compute; discriminate.
  - intros i Hi. destruct i as [|[|i]]; [reflexivity | reflexivity | lia].
  - left. vm_compute. discriminate.
  - split; [exact Hreq | exact Hused].
Defined.

Lemma executeWebhook_history_witness :
  exists l res,
    Dispatch.attempts
      (fst (Sample.executeWebhook (recovering 1) Sample.hook Sample.context
              30000 (Sample.max_retries 3) (initial 0))) = Some l
    /\ mirrors l res.
Proof.
  destruct (executeWebhook_history Sample.URL_parse Sample.Handlebars_render
              Sample.JSON_parse Sample.JSON_stringify Sample.String_of
              (recovering 1) Sample.Math_random Sample.Math_pow
              Sample.hook Sample.context 30000 (Sample.max_retries 3) (initial 0))
    as (l & res & Hl & _ & _ & Hm).
  - vm_compute; reflexivity.
  - vm_compute; discriminate.
  - exists l, res. split; [exact Hl | exact Hm].
Defined.

Lemma executeWebhook_negative_maxRetries_witness :
  requests (snd (Sample.executeWebhook (Sample.always 200) Sample.hook Sample.context
                   30000 (Sample.max_retries (-1)) (initial 0))) = [].
Proof.
  destruct (executeWebhook_negative_maxRetries Sample.URL_parse Sample.Handlebars_render
              Sample.JSON_parse Sample.JSON_stringify Sample.String_of
              (Sample.always 200) Sample.Math_random Sample.Math_pow
              Sample.hook Sample.context 30000 (Sample.max_retries (-1)) (initial 0))
    as (Hw & _).
  - vm_compute; reflexivity.
  - vm_compute; reflexivity.
  - unfold Sample.executeWebhook. rewrite Hw. reflexivity.
Defined.

Lemma isRetryable_after_attempt_witness :
  let result :=
    fst (Executor.executeSingleRequest Sample.URL_parse Sample.Handlebars_render
           Sample.JSON_parse Sample.JSON_stringify Sample.String_of
           (Sample.always 503) Sample.hook Sample.context 30000 true (initial 0)) in
  isRetryable result (Result.error result) DEFAULT_RETRY_CONFIG = true.
Proof.
  destruct (isRetryable_after_attempt Sample.URL_parse Sample.Handlebars_render
              Sample.JSON_parse Sample.JSON_stringify Sample.String_of
              (Sample.always 503) Sample.hook Sample.context 30000
              DEFAULT_RETRY_CONFIG (initial 0)) as [H _].
  - reflexivity.
  - cbv zeta. rewrite H. reflexivity.
Defined.

Lemma default_policy_delays_in_band_witness :
  exists d,
    Double.whole (fst (Retry.calculateBackoffDelay Sample.Math_random Sample.Math_pow
                         (2 - 1) DEFAULT_RETRY_CONFIG (initial 0))) = Some d
    /\ 750 * 2 ^ (2 - 1) <= d <= 1250 * 2 ^ (2 - 1).
Proof.
  apply (default_policy_delays_in_band Sample.Math_random Sample.Math_pow 2 (initial 0)).
  - cbn. lia.
  - vm_compute. reflexivity.
  - vm_compute. reflexivity.
  - vm_compute. reflexivity.
Defined.

End FlowFacts.


(** ** Templates in objects and arrays *)

Module DeepTemplateFacts.
Import Js Template Kind.

Section WithHandlebars.

Variable Handlebars_render : string -> value -> option string.

Local Notation processObjectTemplates := (Template.processObjectTemplates Handlebars_render).
Local Notation rendered_field := (Kind.rendered_field Handlebars_render).

Lemma obj_set_fresh {A : Type} k (v : A) o :
  ~ In k (keys o) -> obj_set k v o = (o ++ [(k, v)])%list.
Proof.
  induction o as [|[k' v'] o IH]; cbn; intro Hfresh; [reflexivity|].
  destruct (String.eqb k k') eqn:E.
  - apply String.eqb_eq in E. subst. exfalso. apply Hfresh. now left.
  - rewrite IH; [reflexivity|]. intro H. apply Hfresh. now right.
Qed.

Lemma has_fresh {A : Type} k (o : list (string * A)) :
  ~ In k (keys o) -> has k o = false.
Proof.
  unfold has. induction o as [|[k' v'] o IH]; cbn; intro Hfresh; [reflexivity|].
  destruct (String.eqb k k') eqn:E.
  - apply String.eqb_eq in E. subst. exfalso. apply Hfresh. now left.
  - apply IH. intro H. apply Hfresh. now right.
Qed.

(** only the key [__proto__] reaches the accessor *)
Lemma value_slot_setter holder k :
  value_slot holder k = Proto_setter -> k = "__proto__".
Proof.
  induction holder as [| | | | | items | fields | proto IH fields]; cbn [value_slot];
    try discriminate.
  - destruct (own (JArr items) k); [discriminate|].
    destruct (String.eqb k "__proto__") eqn:E; [|discriminate].
    intros _. now apply String.eqb_eq.
  - destruct (has k fields); [discriminate|].
    destruct (String.eqb k "__proto__") eqn:E; [|discriminate].
    intros _. now apply String.eqb_eq.
  - destruct (has k fields); [discriminate | exact IH].
Qed.

(** a key that is new and is not [__proto__] becomes the last own property *)
Lemma assign_fresh o k v :
  object o = true -> ~ In k (keys (own_entries o)) -> k <> "__proto__" ->
  object (assign o k v) = true
  /\ own_entries (assign o k v) = (own_entries o ++ [(k, v)])%list
  /\ reparented (assign o k v) = reparented o.
Proof.
  intros Ho Hfresh Hk. apply String.eqb_neq in Hk.
  destruct o as [| | | | | |r|p r]; try discriminate; cbn [own_entries] in Hfresh;
    cbn [assign]; rewrite (has_fresh k r Hfresh).
  - rewrite Hk. cbn. now rewrite obj_set_fresh.
  - destruct (value_slot p k) eqn:Hs;
      try (cbn; now rewrite obj_set_fresh).
    apply value_slot_setter in Hs. apply String.eqb_neq in Hk. contradiction.
Qed.

(** the key [__proto__], met first on an object as the literal made it,
    adds no own property *)
Lemma assign_proto r v :
  ~ In "__proto__" (keys r) ->
  object (assign (JObj r) "__proto__" v) = true
  /\ own_entries (assign (JObj r) "__proto__" v) = r.
Proof.
  intro Hfresh. cbn [assign]. rewrite (has_fresh _ r Hfresh). cbn.
  destruct (is_object v); split; reflexivity.
Qed.

(** the loop over the entries of an object, on keys not seen before *)
Lemma fields_loop context fields : forall o,
  object o = true ->
  NoDup (keys (own_entries o) ++ keys fields) ->
  (reparented o = true -> ~ In "__proto__" (keys fields)) ->
  let final :=
    fold_left
      (fun result kv =>
         match kv with
         | (key, JStr s) =>
             assign result key (JStr (Template.processTemplate Handlebars_render s context))
         | (key, (JNull | JArr _ | JObj _ | JObjP _ _) as v) =>
             assign result key (processObjectTemplates v context)
         | (key, v) => assign result key v
         end)
      fields o in
  object final = true
  /\ own_entries final
     = (own_entries o
        ++ map (fun kv => (fst kv, rendered_field context (snd kv)))
               (filter ordinary fields))%list
  /\ (~ In "__proto__" (keys fields) -> reparented final = reparented o).
Proof.
  induction fields as [|[k v] fields IH]; intros o Ho Hnd Hre; cbn [fold_left].
  - cbn. rewrite app_nil_r. repeat split. exact Ho.
  - set (o' := match v with
               | JStr s =>
                   assign o k (JStr (Template.processTemplate Handlebars_render s context))
               | JNull | JArr _ | JObj _ | JObjP _ _ =>
                   assign o k (processObjectTemplates v context)
               | _ => assign o k v
               end).
    assert (Ho' : o' = assign o k (rendered_field context v))
      by (subst o'; destruct v; reflexivity).
    clearbody o'. subst o'.
    assert (Hfresh : ~ In k (keys (own_entries o))).
    { intro Hin. apply NoDup_remove_2 in Hnd. apply Hnd.
      apply in_or_app. now left. }
    assert (Hrest : ~ In k (keys fields)).
    { intro Hin. apply NoDup_remove_2 in Hnd. apply Hnd.
      apply in_or_app. now right. }
    assert (Hnd' : NoDup (keys (own_entries o) ++ keys fields))
      by (now apply NoDup_remove_1 in Hnd).
    destruct (String.eqb k "__proto__") eqn:Ek.
    + apply String.eqb_eq in Ek. subst k.
      assert (Hplain : reparented o = false).
      { destruct (reparented o) eqn:E; [|reflexivity].
        exfalso. apply (Hre eq_refl). now left. }
      destruct o as [| | | | | |r|p r]; try discriminate.
      cbn [own_entries] in *.
      destruct (assign_proto r (rendered_field context v) Hfresh) as [Hobj Hown].
      destruct (IH (assign (JObj r) "__proto__" (rendered_field context v)))
        as (H1 & H2 & H3).
      * exact Hobj.
      * rewrite Hown. exact Hnd'.
      * intros _. exact Hrest.
      * cbv zeta in H1, H2, H3 |- *. split; [exact H1|]. split.
        -- rewrite H2, Hown. reflexivity.
        -- intro Hno. exfalso. apply Hno. now left.
    + assert (Hk : k <> "__proto__") by (now apply String.eqb_neq).
      destruct (assign_fresh o k (rendered_field context v) Ho Hfresh Hk)
        as (Hobj & Hown & Hsame).
      destruct (IH (assign o k (rendered_field context v))) as (H1 & H2 & H3).
      * exact Hobj.
      * rewrite Hown. unfold keys in *. rewrite map_app, <- app_assoc. exact Hnd.
      * rewrite Hsame. intros Hr Hin. apply (Hre Hr). now right.
      * cbv zeta in H1, H2, H3 |- *. split; [exact H1|]. split.
        -- rewrite H2, Hown. cbn [filter]. unfold ordinary at 2. cbn [fst].
           rewrite Ek. cbn [negb map fst snd]. now rewrite <- app_assoc.
        -- intro Hno. rewrite H3, Hsame; [reflexivity|].
           intro Hin. apply Hno. now right.
Qed.

(** X14. Objects. On an object with distinct keys [processObjectTemplates]
    returns an object whose own properties are those of the object but for
    the key [__proto__], in the same order; a string value is rendered as a
    template, an array, object or null value is processed in turn, and any
    other value is kept. A property with the key [__proto__] is not kept
    as a property (it replaces the prototype of the result when its value
    is an object or null); without one the result is an object as a
    literal makes it. *)
Theorem processObjectTemplates_object context fields :
  NoDup (keys fields) ->
  own_entries (processObjectTemplates (JObj fields) context)
  = map (fun kv => (fst kv, rendered_field context (snd kv))) (filter ordinary fields)
  /\ (~ In "__proto__" (keys fields) ->
      processObjectTemplates (JObj fields) context
      = JObj (map (fun kv => (fst kv, rendered_field context (snd kv))) fields)).
Proof.
  intro Hnd. cbn [Template.processObjectTemplates].
  destruct (fields_loop context fields (JObj []) eq_refl Hnd) as (Hobj & Hown & Hsame).
  { discriminate. }
  cbv zeta in Hobj, Hown, Hsame. cbn [own_entries app] in Hown.
  split; [exact Hown|].
  intro Hno. specialize (Hsame Hno).
  assert (Hall : filter ordinary fields = fields).
  { clear - Hno. induction fields as [|[k v] fields IH]; [reflexivity|].
    cbn [filter]. unfold ordinary at 1. cbn [fst].
    destruct (String.eqb k "__proto__") eqn:E.
    - apply String.eqb_eq in E. subst k. exfalso. apply Hno. now left.
    - cbn [negb]. f_equal. apply IH. intro Hin. apply Hno. now right. }
  rewrite Hall in Hown.
  destruct (fold_left _ fields (JObj [])) as [| | | | | |r|p r]; try discriminate.
  cbn [own_entries] in Hown. now subst r.
Qed.

(** X15. Arrays. A string that is an item of an array is not rendered: an
    array whose items are neither arrays nor objects comes back as it is,
    placeholders included. *)
Theorem processObjectTemplates_flat_array context items :
  forallb flat items = true ->
  processObjectTemplates (JArr items) context = JArr items.
Proof.
  intro Hflat. cbn [Template.processObjectTemplates]. f_equal.
  induction items as [|v items IH]; [reflexivity|].
  cbn in Hflat. apply andb_prop in Hflat as [Hv Hrest]. cbn [map].
  rewrite (IH Hrest). f_equal. destruct v; try reflexivity; discriminate.
Qed.

End WithHandlebars.

Lemma processObjectTemplates_object_witness :
  own_entries (Template.processObjectTemplates Sample.Handlebars_render
                 (JObj [("id", JStr "{{x}}"); ("__proto__", JNum 7)]) Sample.context)
  = [("id", JStr "1")].
Proof.
  destruct (processObjectTemplates_object Sample.Handlebars_render Sample.context
              [("id", JStr "{{x}}"); ("__proto__", JNum 7)]) as [H _].
  - repeat constructor; cbn; intuition discriminate.
  - rewrite H. reflexivity.
Defined.

Lemma processObjectTemplates_flat_array_witness :
  Template.processObjectTemplates Sample.Handlebars_render
    (JArr [JStr "{{x}}"; JNum 2]) Sample.context
  = JArr [JStr "{{x}}"; JNum 2].
Proof.
  apply (processObjectTemplates_flat_array Sample.Handlebars_render). reflexivity.
Defined.

End DeepTemplateFacts.

(** ** Request builder and response handling *)

Module RequestFacts.
Import Js Http Executor Kind.

Section WithHandlebars.

Variable Handlebars_render : string -> value -> option string.

Local Notation request_headers := (Executor.request_headers Handlebars_render).
Local Notation caller_headers := (Kind.caller_headers Handlebars_render).

(** X16. Headers. Every request carries a Content-Type and a User-Agent header;
    a header the caller gives wins over the default of the same name, and a
    default the caller does not name keeps its value
    ([Content-Type: application/json], [User-Agent: CodeFlow/1.0]). *)
Theorem request_headers_merge config context :
  let headers := request_headers config context in
  let given := own_entries (caller_headers config context) in
  In "Content-Type" (keys headers)
  /\ In "User-Agent" (keys headers)
  /\ (forall k v, NoDup (keys given) -> In (k, v) given ->
                  obj_get k headers = Some v)
  /\ (forall k, ~ In k (keys given) ->
                obj_get k headers = obj_get k default_headers).
Proof.
  intros headers given. subst headers given.
  unfold Executor.request_headers. fold (Kind.caller_headers Handlebars_render config context).
  rewrite JsFacts.spread_fold. fold default_headers.
  repeat split.
  - apply JsFacts.keys_fold. left. cbn. tauto.
  - apply JsFacts.keys_fold. left. cbn. tauto.
  - intros k v Hnd Hin. now apply JsFacts.get_fold_present.
  - intros k Hnot. now apply JsFacts.get_fold_absent.
Qed.

End WithHandlebars.

Section WithLibraries.

Variable URL_parse : string -> option Guard.ParsedUrl.
Variable Handlebars_render : string -> value -> option string.
Variable JSON_parse : string -> option value.
Variable JSON_stringify : value -> string.
Variable String_of : value -> string.
Variable axios : nat -> Request.t -> outcome * Z.

Local Notation build_request := (Executor.build_request Handlebars_render JSON_parse).
Local Notation processedBody := (Executor.processedBody Handlebars_render JSON_parse).
Local Notation declared_params := (Executor.declared_params Handlebars_render).
Local Notation request_headers := (Executor.request_headers Handlebars_render).
Local Notation executeSingleRequest :=
  (Executor.executeSingleRequest URL_parse Handlebars_render JSON_parse
     JSON_stringify String_of axios).
Local Notation caller_headers := (Kind.caller_headers Handlebars_render).
Local Notation response_text := (Kind.response_text JSON_stringify String_of).
Local Notation decoded := (Kind.decoded JSON_parse).

Lemma substring_length m : forall s,
  (String.length (String.substring 0 m s) <= m)%nat.
Proof.
  induction m as [|m IH]; intros [|c s]; cbn; try lia.
  specialize (IH s). lia.
Qed.

Lemma substring_short m : forall s,
  (String.length s <= m)%nat -> String.substring 0 m s = s.
Proof.
  induction m as [|m IH]; intros [|c s] Hlen; cbn in *; try reflexivity; try lia.
  f_equal. apply IH. lia.
Qed.


End WithLibraries.

Lemma request_headers_merge_witness :
  obj_get "User-Agent"
    (Executor.request_headers Sample.Handlebars_render
       {| Config.url := "https://api.example.com/hook"; Config.method := "POST";
          Config.headers := JObj [("User-Agent", JStr "probe/{{x}}")];
          Config.body := JUndefined; Config.params := JUndefined |}
       Sample.context)
  = Some (JStr "probe/1").
Proof.
  destruct (request_headers_merge Sample.Handlebars_render
              {| Config.url := "https://api.example.com/hook"; Config.method := "POST";
                 Config.headers := JObj [("User-Agent", JStr "probe/{{x}}")];
                 Config.body := JUndefined; Config.params := JUndefined |}
              Sample.context) as (_ & _ & Hwins & _).
  apply Hwins.
  - vm_compute. repeat constructor. intros [].
  - vm_compute. left. reflexivity.
Defined.


End RequestFacts.


(** ** Response extractor: paths and outputs *)

Module PathFacts.
Import Js Extractor.

Lemma split_from_app sep q p : forall cur,
  Str.split_from sep cur (p ++ String sep q)
  = (Str.split_from sep cur p ++ Str.split_from sep EmptyString q)%list.
Proof.
  induction p as [|c p IH]; intro cur; cbn.
  - now rewrite Ascii.eqb_refl.
  - destruct (Ascii.eqb c sep); [cbn; f_equal|]; apply IH.
Qed.

Lemma split_from_plain sep s : forall cur,
  Str.all_chars (fun c => negb (Ascii.eqb c sep)) s = true ->
  Str.split_from sep cur s = [cur ++ s].
Proof.
  induction s as [|c s IH]; intros cur Hplain; cbn.
  - now rewrite TemplateFacts.append_nil_r.
  - cbn in Hplain. apply andb_prop in Hplain as [Hc Hs].
    apply negb_true_iff in Hc. rewrite Hc, (IH _ Hs).
    now rewrite TemplateFacts.append_assoc.
Qed.

Lemma span_all p s rest :
  Str.all_chars p s = true ->
  (match rest with EmptyString => true | String c _ => negb (p c) end) = true ->
  span p (s ++ rest) = (s, rest).
Proof.
  intros Hs Hrest. induction s as [|c s IH]; cbn.
  - destruct rest as [|c rest]; [reflexivity|]. cbn.
    apply negb_true_iff in Hrest. now rewrite Hrest.
  - cbn in Hs. apply andb_prop in Hs as [Hc Hs]. rewrite Hc, (IH Hs). reflexivity.
Qed.

Lemma arrayMatch_bracket name digits :
  nonempty name = true -> Str.all_chars Str.is_word name = true ->
  nonempty digits = true -> Str.all_chars Str.is_digit digits = true ->
  arrayMatch (name ++ "[" ++ digits ++ "]") = Some (name, digits).
Proof.
  intros Hn Hw Hd Hds. unfold arrayMatch.
  rewrite (span_all Str.is_word name ("[" ++ digits ++ "]") Hw eq_refl).
  cbn [String.append].
  rewrite (span_all Str.is_digit digits "]" Hds eq_refl).
  now rewrite Hn, Hd.
Qed.

Lemma word_has_no_dot s :
  Str.all_chars Str.is_word s = true ->
  Str.all_chars (fun c => negb (Ascii.eqb c ".")) s = true.
Proof.
  induction s as [|c s IH]; cbn; [reflexivity|]. intro H.
  apply andb_prop in H as [Hc Hs]. rewrite (IH Hs), andb_true_r.
  destruct (Ascii.eqb c ".") eqn:E; [|reflexivity].
  apply Ascii.eqb_eq in E. subst c. discriminate.
Qed.

Lemma digit_has_no_dot s :
  Str.all_chars Str.is_digit s = true ->
  Str.all_chars (fun c => negb (Ascii.eqb c ".")) s = true.
Proof.
  induction s as [|c s IH]; cbn; [reflexivity|]. intro H.
  apply andb_prop in H as [Hc Hs]. rewrite (IH Hs), andb_true_r.
  destruct (Ascii.eqb c ".") eqn:E; [|reflexivity].
  apply Ascii.eqb_eq in E. subst c. discriminate.
Qed.

Lemma all_chars_app p a b :
  Str.all_chars p (a ++ b) = Str.all_chars p a && Str.all_chars p b.
Proof. induction a; cbn; [reflexivity|]. now rewrite IHa, andb_assoc. Qed.

Lemma arrayMatch_word s :
  Str.all_chars Str.is_word s = true -> arrayMatch s = None.
Proof.
  intro Hw. unfold arrayMatch.
  pose proof (span_all Str.is_word s EmptyString Hw eq_refl) as H.
  rewrite TemplateFacts.append_nil_r in H. now rewrite H.
Qed.

Section WithRuntime.

Variable runtime : Runtime.t.

Local Notation getValueByPath := (Extractor.getValueByPath runtime).

(** X19. Paths compose: following [p.q] is following [p] and then [q] from
    where [p] arrives. *)
Theorem getValueByPath_compose obj p q :
  getValueByPath obj (p ++ "." ++ q)
  = match getValueByPath obj p with
    | Some reached => getValueByPath reached q
    | None => None
    end.
Proof.
  unfold Extractor.getValueByPath, Str.split.
  change (p ++ "." ++ q) with (p ++ String "." q).
  rewrite split_from_app. apply ExtractorFacts.walk_app.
Qed.

(** X20. Segments. On an object, a segment that is a plain word and names
    an own key gives the value under it, whatever the prototypes hold; the
    segment [name[digits]] gives the item at that index when the value
    under [name] is an array that has it, what the array inherits under
    the index when it is past the end, and undefined when the value is not
    an array. *)
Theorem getValueByPath_segment fields name digits v :
  nonempty name = true -> Str.all_chars Str.is_word name = true ->
  nonempty digits = true -> Str.all_chars Str.is_digit digits = true ->
  obj_get name fields = Some v ->
  getValueByPath (Data (JObj fields)) name = Some (Data v)
  /\ getValueByPath (Data (JObj fields)) (name ++ "[" ++ digits ++ "]")
     = match v with
       | JArr items =>
           match nth_error items (parseInt digits) with
           | Some item => Some (Data item)
           | None => Runtime.inherited runtime (JArr items) (JArr items)
                       (Runtime.index_key runtime (parseInt digits))
           end
       | _ => Some (Data JUndefined)
       end.
Proof.
  intros Hn Hw Hd Hds Hown. unfold Extractor.getValueByPath, Str.split. split.
  - rewrite (split_from_plain "." name EmptyString (word_has_no_dot _ Hw)).
    cbn [String.append walk gone]. rewrite (arrayMatch_word _ Hw).
    cbn [read property lookup own]. rewrite Hown. reflexivity.
  - rewrite split_from_plain.
    + change (EmptyString ++ (name ++ "[" ++ digits ++ "]"))
        with (name ++ "[" ++ digits ++ "]").
      cbn [walk gone]. rewrite (arrayMatch_bracket _ _ Hn Hw Hd Hds).
      cbn [read property lookup own]. rewrite Hown. cbn [is_array].
      destruct v as [| | | | |items| |]; cbn [isArray]; try reflexivity.
      cbn [at_index]. destruct (nth_error items (parseInt digits)); [reflexivity|].
      destruct (Runtime.inherited runtime _ _ _); reflexivity.
    + rewrite !all_chars_app, (word_has_no_dot _ Hw), (digit_has_no_dot _ Hds).
      reflexivity.
Qed.

End WithRuntime.

Lemma getValueByPath_compose_witness :
  Extractor.getValueByPath Sample.runtime (Data Sample.tagged) ("user" ++ "." ++ "tags[1]")
  = Some (Data (JStr "b")).
Proof.
  rewrite (getValueByPath_compose Sample.runtime (Data Sample.tagged) "user" "tags[1]").
  reflexivity.
Defined.

Lemma getValueByPath_segment_witness :
  Extractor.getValueByPath Sample.runtime
    (Data (JObj [("tags", JArr [JStr "a"; JStr "b"])])) ("tags" ++ "[" ++ "1" ++ "]")
  = Some (Data (JStr "b")).
Proof.
  exact (proj2 (getValueByPath_segment Sample.runtime
                  [("tags", JArr [JStr "a"; JStr "b"])] "tags" "1"
                  (JArr [JStr "a"; JStr "b"]) eq_refl eq_refl eq_refl eq_refl eq_refl)).
Defined.

End PathFacts.

Module OutputFacts.
Import Js Extractor Names.

Section WithRuntime.

Variable runtime : Runtime.t.

Local Notation getValueByPath := (Extractor.getValueByPath runtime).
Local Notation store := (Extractor.store runtime).
Local Notation extract_loop := (Extractor.extract_loop runtime).
Local Notation extractOutputFields := (Extractor.extractOutputFields runtime).

(** an assignment adds at most the property assigned *)
Lemma store_fields outputs k v after :
  store outputs k v = Some after ->
  forall k' v', obj_get k' (Outputs.fields after) = Some v' ->
    (k' = k /\ v' = v) \/ obj_get k' (Outputs.fields outputs) = Some v'.
Proof.
  intros Hstore k' v' Hget.
  assert (Hset : obj_get k' (obj_set k v (Outputs.fields outputs)) = Some v' ->
                 (k' = k /\ v' = v) \/ obj_get k' (Outputs.fields outputs) = Some v').
  { intro H. destruct (String.eqb k k') eqn:E.
    - apply String.eqb_eq in E. subst k'.
      rewrite JsFacts.obj_get_set_same in H. left. split; congruence.
    - apply String.eqb_neq in E.
      rewrite JsFacts.obj_get_set_other in H by exact E. now right. }
  unfold Extractor.store in Hstore.
  destruct (has k (Outputs.fields outputs)).
  - inversion Hstore; subst after. now apply Hset.
  - destruct (chain_slot runtime (Outputs.proto outputs) k); try discriminate.
    + inversion Hstore; subst after. now apply Hset.
    + inversion Hstore; subst after. right.
      destruct (object_or_null v); exact Hget.
    + inversion Hstore; subst after. now right.
Qed.

(** on outputs as the object literal made them, a key other than
    [__proto__] is defined *)
Lemma store_plain outputs k v :
  Outputs.proto outputs = None -> k <> "__proto__" ->
  store outputs k v
  = Some {| Outputs.proto := None;
            Outputs.fields := obj_set k v (Outputs.fields outputs) |}.
Proof.
  intros Hp Hk. apply String.eqb_neq in Hk. unfold Extractor.store.
  rewrite Hp. cbn [chain_slot]. rewrite Hk.
  destruct (has k (Outputs.fields outputs)); reflexivity.
Qed.

(** every output comes from a mapping whose path leads to a value *)
Lemma extract_loop_sound data mappings : forall outputs final,
  extract_loop data mappings outputs = Some final ->
  forall k v, obj_get k (Outputs.fields final) = Some v ->
    obj_get k (Outputs.fields outputs) = Some v
    \/ exists m path,
         In m mappings /\ Mapping.outputFieldName m = k
         /\ Mapping.jsonPath m = Some path /\ path <> EmptyString
         /\ getValueByPath data path = Some v /\ v <> Data JUndefined.
Proof.
  induction mappings as [|m rest IH]; intros outputs final Hrun k v Hk;
    cbn [Extractor.extract_loop] in Hrun.
  - inversion Hrun; subst. now left.
  - assert (Hlater : forall acc,
               extract_loop data rest acc = Some final ->
               obj_get k (Outputs.fields acc) = Some v
               \/ exists m' path,
                    In m' (m :: rest) /\ Mapping.outputFieldName m' = k
                    /\ Mapping.jsonPath m' = Some path /\ path <> EmptyString
                    /\ getValueByPath data path = Some v /\ v <> Data JUndefined).
    { intros acc Hacc. destruct (IH _ _ Hacc k v Hk) as [H | (m' & path & Hin & H)].
      - now left.
      - right. exists m', path. split; [now right | exact H]. }
    destruct (Mapping.jsonPath m) as [path|] eqn:Hp; [|now apply Hlater].
    destruct (String.eqb path EmptyString) eqn:He; [now apply Hlater|].
    apply String.eqb_neq in He.
    destruct (getValueByPath data path) as [found|] eqn:Hg; [|discriminate].
    destruct (is_undefined found) eqn:Hu; cbn [negb] in Hrun; [now apply Hlater|].
    destruct (store outputs (Mapping.outputFieldName m) found) as [acc|] eqn:Hs;
      [|discriminate].
    destruct (Hlater _ Hrun) as [H | H]; [|now right].
    destruct (store_fields _ _ _ _ Hs k v H) as [[-> ->] | Hold]; [|now left].
    right. exists m, path. repeat split; try assumption; [now left|].
    intro Hv. subst found. discriminate.
Qed.

(** with distinct output names, none of them [__proto__], each mapping
    decides its own output *)
Lemma extract_loop_complete data mappings : forall outputs final,
  extract_loop data mappings outputs = Some final ->
  Outputs.proto outputs = None ->
  NoDup (names mappings) -> ~ In "__proto__" (names mappings) ->
  (forall m path v,
     In m mappings -> Mapping.jsonPath m = Some path -> path <> EmptyString ->
     getValueByPath data path = Some v ->
     obj_get (Mapping.outputFieldName m) (Outputs.fields final)
     = if is_undefined v
       then obj_get (Mapping.outputFieldName m) (Outputs.fields outputs)
       else Some v)
  /\ (forall k, ~ In k (names mappings) ->
                obj_get k (Outputs.fields final) = obj_get k (Outputs.fields outputs)).
Proof.
  induction mappings as [|m0 rest IH]; intros outputs final Hrun Hproto Hnd Hno;
    cbn [Extractor.extract_loop] in Hrun.
  - inversion Hrun; subst. split; [intros m path v [] | reflexivity].
  - cbn in Hnd. inversion Hnd as [|? ? Hfresh Hnd']; subst.
    assert (Hname : Mapping.outputFieldName m0 <> "__proto__").
    { intro Heq. apply Hno. left. exact Heq. }
    assert (Hno' : ~ In "__proto__" (names rest)).
    { intro Hin. apply Hno. now right. }
    assert (Hstep : exists acc,
               extract_loop data rest acc = Some final
               /\ Outputs.proto acc = None
               /\ (forall k, k <> Mapping.outputFieldName m0 ->
                             obj_get k (Outputs.fields acc)
                             = obj_get k (Outputs.fields outputs))
               /\ (forall path v,
                     Mapping.jsonPath m0 = Some path -> path <> EmptyString ->
                     getValueByPath data path = Some v ->
                     obj_get (Mapping.outputFieldName m0) (Outputs.fields acc)
                     = if is_undefined v
                       then obj_get (Mapping.outputFieldName m0) (Outputs.fields outputs)
                       else Some v)).
    { destruct (Mapping.jsonPath m0) as [path|] eqn:Hp;
        [|exists outputs; repeat split; [exact Hrun | exact Hproto | discriminate]].
      destruct (String.eqb path EmptyString) eqn:He.
      - apply String.eqb_eq in He. exists outputs.
        repeat split; [exact Hrun | exact Hproto |].
        intros p v Hpv. inversion Hpv; subst. congruence.
      - destruct (getValueByPath data path) as [found|] eqn:Hg; [|discriminate].
        destruct (is_undefined found) eqn:Hu; cbn [negb] in Hrun.
        + exists outputs. repeat split; [exact Hrun | exact Hproto |].
          intros p v Hpv _ Hv. inversion Hpv; subst p. rewrite Hg in Hv.
          inversion Hv; subst v. now rewrite Hu.
        + rewrite (store_plain outputs _ found Hproto Hname) in Hrun.
          eexists. split; [exact Hrun|]. split; [reflexivity|]. split.
          * intros k Hk. cbn [Outputs.fields].
            apply JsFacts.obj_get_set_other. congruence.
          * intros p v Hpv _ Hv. inversion Hpv; subst p. rewrite Hg in Hv.
            inversion Hv; subst v. rewrite Hu. cbn [Outputs.fields].
            apply JsFacts.obj_get_set_same. }
    destruct Hstep as (acc & Hacc & Hpacc & Hother & Hown).
    destruct (IH _ _ Hacc Hpacc Hnd' Hno') as [IH1 IH2]. split.
    + intros m path v [<- | Hin] Hp Hne Hv.
      * rewrite IH2 by exact Hfresh. now apply (Hown path).
      * rewrite (IH1 m path v Hin Hp Hne Hv).
        rewrite Hother; [reflexivity|].
        intro Heq. apply Hfresh. rewrite <- Heq. unfold Names.names. now apply in_map.
    + intros k Hk. cbn in Hk.
      rewrite IH2 by (intro H; apply Hk; now right).
      apply Hother. intro Heq. apply Hk. now left.
Qed.

(** no output named [__proto__] and no read that throws: the loop returns *)
Lemma extract_loop_returns data mappings : forall outputs,
  Outputs.proto outputs = None ->
  ~ In "__proto__" (names mappings) ->
  (forall m path, In m mappings -> Mapping.jsonPath m = Some path ->
                  getValueByPath data path <> None) ->
  exists final, extract_loop data mappings outputs = Some final.
Proof.
  induction mappings as [|m rest IH]; intros outputs Hproto Hno Hwalk;
    cbn [Extractor.extract_loop].
  - now exists outputs.
  - assert (Hno' : ~ In "__proto__" (names rest)) by (intro H; apply Hno; now right).
    assert (Hwalk' : forall m' path, In m' rest -> Mapping.jsonPath m' = Some path ->
                                     getValueByPath data path <> None)
      by (intros m' path Hin; apply Hwalk; now right).
    destruct (Mapping.jsonPath m) as [path|] eqn:Hp; [|now apply IH].
    destruct (String.eqb path EmptyString); [now apply IH|].
    pose proof (Hwalk m path (or_introl eq_refl) Hp) as Hfound.
    destruct (getValueByPath data path) as [found|]; [|congruence].
    destruct (negb (is_undefined found)); [|now apply IH].
    rewrite store_plain; [|exact Hproto | intro Heq; apply Hno; left; exact Heq].
    now apply IH.
Qed.

(** X21. The outputs. Without mappings, or with a falsy [response.data], the
    outputs are empty. Otherwise every output returned is the value some
    mapping's path leads to, and that value is never undefined; when the
    mappings have distinct output names, none of them [__proto__], a
    mapping with a non-empty path has an output exactly when its path
    leads to a value other than undefined, [null] included; and when no
    output is named [__proto__] and no path runs into a getter that
    throws, outputs are returned. *)
Theorem extractOutputFields_outputs response data mappings :
  property runtime response "data" = Some data ->
  extractOutputFields response None = Some Outputs.empty
  /\ (Extractor.truthy data = false ->
      extractOutputFields response (Some mappings) = Some Outputs.empty)
  /\ (Extractor.truthy data = true ->
      (forall outputs,
         extractOutputFields response (Some mappings) = Some outputs ->
         (forall k v, obj_get k (Outputs.fields outputs) = Some v ->
            v <> Data JUndefined
            /\ exists m path,
                 In m mappings /\ Mapping.outputFieldName m = k
                 /\ Mapping.jsonPath m = Some path
                 /\ getValueByPath data path = Some v)
         /\ (NoDup (names mappings) -> ~ In "__proto__" (names mappings) ->
             forall m path v,
               In m mappings -> Mapping.jsonPath m = Some path ->
               path <> EmptyString -> getValueByPath data path = Some v ->
               obj_get (Mapping.outputFieldName m) (Outputs.fields outputs)
               = if is_undefined v then None else Some v))
      /\ (~ In "__proto__" (names mappings) ->
          (forall m path, In m mappings -> Mapping.jsonPath m = Some path ->
                          getValueByPath data path <> None) ->
          exists outputs, extractOutputFields response (Some mappings) = Some outputs)).
Proof.
  intro Hdata. split; [reflexivity|]. unfold Extractor.extractOutputFields.
  rewrite Hdata.
  split; [intros ->; reflexivity|]. intros ->. cbn [negb]. split.
  - intros outputs Hrun. split.
    + intros k v Hk.
      destruct (extract_loop_sound _ _ _ _ Hrun k v Hk)
        as [H | (m & path & Hin & Hname & Hp & _ & Hv & Hdef)]; [discriminate|].
      split; [exact Hdef|]. exists m, path. repeat split; assumption.
    + intros Hnd Hno m path v Hin Hp Hne Hv.
      destruct (extract_loop_complete _ _ _ _ Hrun eq_refl Hnd Hno) as [H _].
      now rewrite (H m path v Hin Hp Hne Hv).
  - intros Hno Hwalk. now apply extract_loop_returns.
Qed.

End WithRuntime.

Lemma extractOutputFields_outputs_witness :
  exists outputs,
    Extractor.extractOutputFields Sample.runtime (JObj [("data", Sample.tagged)])
      (Some [Sample.nickname; Sample.first_tag]) = Some outputs
    /\ obj_get "first_tag" (Outputs.fields outputs) = Some (Data (JStr "a")).
Proof.
  destruct (extractOutputFields_outputs Sample.runtime (JObj [("data", Sample.tagged)])
              (Data Sample.tagged) [Sample.nickname; Sample.first_tag] eq_refl)
    as (_ & _ & H).
  destruct (H eq_refl) as (Hprops & Hreturns).
  destruct Hreturns as (outputs & Hout).
  - cbn. intuition discriminate.
  - intros m path [<- | [<- | []]] Hp; inversion Hp; subst path; discriminate.
  - exists outputs. split; [exact Hout|].
    destruct (Hprops outputs Hout) as (_ & Hcomplete).
    apply (Hcomplete ltac:(repeat constructor; cbn; intuition discriminate)
             ltac:(cbn; intuition discriminate)
             Sample.first_tag "user.tags[0]" (Data (JStr "a"))).
    + right. left. reflexivity.
    + reflexivity.
    + discriminate.
    + reflexivity.
Defined.

End OutputFacts.


(** ** The webhook action route *)

Module RouteFacts.
Import Js Http Executor Retry Route.

Example parseInt_examples :
  map parseInt ["3"; " 12px"; "-7"; "+4"; "0"; "-0"; "007"; EmptyString; "abc"; "1e3"; "3.9"; "0x10"]
  = [Some 3; Some 12; Some (-7); Some 4; Some 0; Some 0; Some 7; None; None;
     Some 1; Some 3; Some 0].
Proof. reflexivity. Qed.

Lemma int_or_nonzero x fallback : fallback <> 0 -> int_or x fallback <> 0.
Proof.
  intro Hf. unfold int_or. destruct x as [s|]; [|exact Hf].
  destruct (parseInt s) as [n|]; [|exact Hf].
  destruct (n =? 0)%Z eqn:E; [exact Hf | now apply Z.eqb_neq].
Qed.

Lemma int_or_fallback s fallback :
  parseInt s = None \/ parseInt s = Some 0 -> int_or (Some s) fallback = fallback.
Proof. unfold int_or. intros [-> | ->]; reflexivity. Qed.

Section WithLibraries.

Variable URL_parse : string -> option Guard.ParsedUrl.
Variable Handlebars_render : string -> value -> option string.
Variable JSON_parse : string -> option value.
Variable JSON_stringify : value -> string.
Variable String_of : value -> string.
Variable axios : nat -> Request.t -> outcome * Z.
Variable Math_random : nat -> float.
Variable Math_pow : float -> float -> float.

Local Notation executeWebhook :=
  (Retry.executeWebhook URL_parse Handlebars_render JSON_parse JSON_stringify
     String_of axios Math_random Math_pow).


End WithLibraries.


End RouteFacts.
